(** * git-agent: workflow state, recoverable memory and scheduler

    A shallow embedding of the parts of the repository that carry the
    workflow's state:

    - [src/services/memoryService.js]  (the event log and its projection),
    - [src/agent/developmentAgent.js]  (the development cycle, path
      normalisation) and the setup agents that share its file
      ([generateIdea], [planProject], [manageRepository]),
    - [src/agent/workflow.js]          (the orchestrator),
    - [src/services/cronScheduler.js]  (the scheduler),

    followed by the properties of the specification stated over it.

    JavaScript strings are modelled as [string], i.e. sequences of 8-bit
    code units read as Latin-1; code outside that range is not modelled. *)

From Stdlib Require Import String Ascii List ZArith Bool Lia DecimalString.
Import ListNotations.

Local Open Scope string_scope.
Local Open Scope list_scope.

(* ================================================================== *)
(** * JavaScript strings *)
(* ================================================================== *)

Module Js.

Definition chars := list ascii.

Definition code (c : ascii) : nat := nat_of_ascii c.

Definition ch (n : nat) : ascii := ascii_of_nat n.

Definition eqc (a b : ascii) : bool := Ascii.eqb a b.

Definition is_lower (c : ascii) : bool :=
  (97 <=? code c)%nat && (code c <=? 122)%nat.

Definition is_upper (c : ascii) : bool :=
  (65 <=? code c)%nat && (code c <=? 90)%nat.

Definition is_digit (c : ascii) : bool :=
  (48 <=? code c)%nat && (code c <=? 57)%nat.

(** [\s] of a regular expression, and the characters [trim] removes:
    TAB, LF, VT, FF, CR, space and (in Latin-1) NBSP. *)
Definition is_space (c : ascii) : bool :=
  ((9 <=? code c)%nat && (code c <=? 13)%nat)
  || (code c =? 32)%nat || (code c =? 160)%nat.

(** [.] of a regular expression matches everything but a line
    terminator. *)
Definition is_line_terminator (c : ascii) : bool :=
  (code c =? 10)%nat || (code c =? 13)%nat.

Definition is_hyphen (c : ascii) : bool := eqc c "-"%char.
Definition is_slash (c : ascii) : bool := eqc c "/"%char.

(** [String.prototype.toLowerCase] on one code unit: A-Z, and the
    Latin-1 capitals U+00C0..U+00DE except the multiplication sign. *)
Definition lower (c : ascii) : ascii :=
  if is_upper c then ch (code c + 32)
  else if (192 <=? code c)%nat && (code c <=? 222)%nat
          && negb (code c =? 215)%nat
       then ch (code c + 32)
       else c.

Definition toLowerCase (s : chars) : chars := map lower s.

Fixpoint dropWhile (p : ascii -> bool) (s : chars) : chars :=
  match s with
  | [] => []
  | c :: t => if p c then dropWhile p t else s
  end.

Definition dropWhileEnd (p : ascii -> bool) (s : chars) : chars :=
  rev (dropWhile p (rev s)).

(** [s.trim()] *)
Definition trim (s : chars) : chars :=
  dropWhileEnd is_space (dropWhile is_space s).

(** [s.replace(/[p]+/g, r)]: every maximal run of characters in the
    class [p] is replaced by [r].  [in_run] tells that the previous
    character already belonged to the run being replaced. *)
Fixpoint replace_runs (p : ascii -> bool) (r : chars) (in_run : bool)
         (s : chars) : chars :=
  match s with
  | [] => []
  | c :: t =>
      if p c
      then (if in_run then replace_runs p r true t
            else r ++ replace_runs p r true t)
      else c :: replace_runs p r false t
  end.

(** [s.replace(/[p]/g, '')] *)
Definition remove_all (p : ascii -> bool) (s : chars) : chars :=
  filter (fun c => negb (p c)) s.

Fixpoint starts_with (pre s : chars) : bool :=
  match pre, s with
  | [], _ => true
  | _ :: _, [] => false
  | a :: pre', b :: s' => eqc a b && starts_with pre' s'
  end.

(** [strip_prefix pre s] is the rest of [s] after [pre], when [s]
    starts with it. *)
Fixpoint strip_prefix (pre s : chars) : option chars :=
  match pre, s with
  | [], _ => Some s
  | _ :: _, [] => None
  | a :: pre', b :: s' => if eqc a b then strip_prefix pre' s' else None
  end.

(** [s.endsWith(suf)] *)
Definition ends_with (suf s : chars) : bool :=
  starts_with (rev suf) (rev s).

(** [s.includes(sub)] *)
Fixpoint includes (sub s : chars) : bool :=
  starts_with sub s
  || match s with
     | [] => false
     | _ :: t => includes sub t
     end.

(** [s.substring(0, n)] *)
Definition substring0 (n : nat) (s : chars) : chars := firstn n s.

(** [s.replace(/c$/, '')] for a one-character pattern [c]: the last
    character goes when it is in the class. *)
Definition remove_last_if (p : ascii -> bool) (s : chars) : chars :=
  match rev s with
  | c :: t => if p c then rev t else s
  | [] => s
  end.

(** [s.replace(/^c/, '')] *)
Definition remove_first_if (p : ascii -> bool) (s : chars) : chars :=
  match s with
  | c :: t => if p c then t else s
  | [] => s
  end.

(** [s.replace(lit, r)] with the global flag, for a literal [lit] that
    is not empty: occurrences are replaced left to right and do not
    overlap.  [skip] counts the characters of a match that are still
    to be passed over. *)
Fixpoint replace_lit (lit r : chars) (skip : nat) (s : chars) : chars :=
  match s with
  | [] => []
  | c :: t =>
      match skip with
      | S k => replace_lit lit r k t
      | O =>
          if starts_with lit s
          then r ++ replace_lit lit r (length lit - 1) t
          else c :: replace_lit lit r 0 t
      end
  end.

(** Leftmost search of a regular expression: [m] is tried at every
    position from the left, as the engine does. *)
Fixpoint search {A} (m : chars -> option A) (s : chars) : option A :=
  match m s with
  | Some r => Some r
  | None =>
      match s with
      | [] => None
      | _ :: t => search m t
      end
  end.

(** The lazy [.*?] followed by the rest [k] of the expression: the rest
    is tried first, and only when it fails one more character that is
    not a line terminator is consumed. *)
Fixpoint lazy_dots {A} (k : chars -> option A) (s : chars) : option A :=
  match k s with
  | Some r => Some r
  | None =>
      match s with
      | [] => None
      | c :: t => if is_line_terminator c then None else lazy_dots k t
      end
  end.

(** The capturing [(.*?)]: as [lazy_dots], and the rest receives the
    text consumed so far ([acc], reversed). *)
Fixpoint lazy_capture {A} (k : chars -> chars -> option A)
         (acc : chars) (s : chars) : option A :=
  match k (rev acc) s with
  | Some r => Some r
  | None =>
      match s with
      | [] => None
      | c :: t =>
          if is_line_terminator c then None
          else lazy_capture k (c :: acc) t
      end
  end.

(** A literal character in an expression. *)
Definition lit_char {A} (c : ascii) (k : chars -> option A)
           (s : chars) : option A :=
  match s with
  | d :: t => if eqc c d then k t else None
  | [] => None
  end.

End Js.

(** Conversions between [string] and the character lists the functions
    above work on. *)
Definition chars_of (s : string) : Js.chars := list_ascii_of_string s.
Definition string_of (l : Js.chars) : string := string_of_list_ascii l.

(* ================================================================== *)
(** * Pure helpers of the agents *)
(* ================================================================== *)

(** [manageRepository], "Enhanced repository name generation":
<<
  projectSpec.title.toLowerCase()
      .replace(/[^a-z0-9\s-]/g, '')
      .replace(/\s+/g, '-')
      .replace(/-+/g, '-')
      .replace(/^-|-$/g, '')
      .substring(0, 100)
>> *)
Definition slug_keep (c : ascii) : bool :=
  Js.is_lower c || Js.is_digit c || Js.is_space c || Js.is_hyphen c.

Definition strip_special (s : Js.chars) : Js.chars :=
  Js.remove_all (fun c => negb (slug_keep c)) s.

Definition spaces_to_hyphen (s : Js.chars) : Js.chars :=
  Js.replace_runs Js.is_space ["-"%char] false s.

Definition collapse_hyphens (s : Js.chars) : Js.chars :=
  Js.replace_runs Js.is_hyphen ["-"%char] false s.

(** [/^-|-$/g]: one hyphen at the start and one at the end. *)
Definition trim_hyphens (s : Js.chars) : Js.chars :=
  Js.remove_last_if Js.is_hyphen (Js.remove_first_if Js.is_hyphen s).

Definition repoNameChars (title : Js.chars) : Js.chars :=
  Js.substring0 100
    (trim_hyphens
       (collapse_hyphens
          (spaces_to_hyphen
             (strip_special (Js.toLowerCase title))))).

Definition repoName (title : string) : string :=
  string_of (repoNameChars (chars_of title)).

(** [normalizeFilePath(filePath, taskTitle)] of developmentAgent.js. *)
Definition collapse_slashes (s : Js.chars) : Js.chars :=
  Js.replace_runs Js.is_slash ["/"%char] false s.

(** The first statement: leading slashes, repeated slashes, one leading
    "./", then [trim]. *)
Definition cleanPath (filePath : Js.chars) : Js.chars :=
  let p1 := Js.dropWhile Js.is_slash filePath in
  let p2 := collapse_slashes p1 in
  let p3 := match Js.strip_prefix (chars_of "./") p2 with
            | Some r => r
            | None => p2
            end in
  Js.trim p3.

Definition is_name (name : string) (p : Js.chars) : bool :=
  String.eqb (string_of p) name.

(** "Handle directory paths by creating appropriate files". *)
Definition directoryDefault (p : Js.chars) : Js.chars :=
  if Js.ends_with ["/"%char] p || is_name "root" p
     || is_name "frontend" p || is_name "backend" p
  then
    if is_name "root" p || is_name "" p then chars_of "src/main.js"
    else if is_name "frontend" p then chars_of "frontend/src/main.js"
    else if is_name "backend" p then chars_of "backend/src/main.js"
    else Js.remove_last_if Js.is_slash p ++ chars_of "/index.js"
  else p.

(** "Ensure the path has a proper file extension". *)
Definition ensureExtension (p : Js.chars) : Js.chars :=
  if negb (Js.includes ["."%char] p) then p ++ chars_of ".js" else p.

(** [/^\/+|\/+$/g]: the run of slashes at the start and the one at the
    end. *)
Definition trim_slashes (p : Js.chars) : Js.chars :=
  Js.dropWhileEnd Js.is_slash (Js.dropWhile Js.is_slash p).

Definition titleFileName (taskTitle : Js.chars) : Js.chars :=
  chars_of "src/"
  ++ Js.replace_runs Js.is_space ["-"%char] false (Js.toLowerCase taskTitle)
  ++ chars_of ".js".

Definition normalizeFilePathChars (filePath taskTitle : Js.chars) : Js.chars :=
  let p := ensureExtension (directoryDefault (cleanPath filePath)) in
  let p := trim_slashes (collapse_slashes p) in
  if (length p =? 0)%nat then titleFileName taskTitle else p.

Definition normalizeFilePath (filePath taskTitle : string) : string :=
  string_of (normalizeFilePathChars (chars_of filePath) (chars_of taskTitle)).


(* ================================================================== *)
(** * JavaScript values and exceptions *)
(* ================================================================== *)

(** The values that travel through the log and the agents: what
    [JSON.parse] can return, and [undefined].  Numbers are integers; the
    code never computes with a number it read from a payload. *)
#[warnings="-register-all"]
Inductive value : Type :=
| VUndefined
| VNull
| VBool (b : bool)
| VNum (n : Z)
| VStr (s : string)
| VArr (items : list value)
| VObj (fields : list (string * value)).

(** What a [throw] carries. *)
Inductive error : Type :=
| Error (message : string)                  (* [new Error(message)] *)
| TypeError (message : string)              (* raised by the engine *)
| SyntaxError (message : string)            (* raised by [JSON.parse] *)
| HttpError (status : Z) (message : string) (* a rejected request *).

Definition message_of (e : error) : string :=
  match e with
  | Error m | TypeError m | SyntaxError m | HttpError _ m => m
  end.

(** [error.status] *)
Definition status_of (e : error) : option Z :=
  match e with
  | HttpError st _ => Some st
  | _ => None
  end.

Inductive outcome (A : Type) : Type :=
| Ok (a : A)
| Throw (e : error).
Arguments Ok {A} a.
Arguments Throw {A} e.

Definition truthy (v : value) : bool :=
  match v with
  | VUndefined | VNull => false
  | VBool b => b
  | VNum n => negb (n =? 0)%Z
  | VStr s => negb (String.eqb s "")
  | VArr _ | VObj _ => true
  end.

Fixpoint lookup (k : string) (fs : list (string * value)) : option value :=
  match fs with
  | [] => None
  | (k', v) :: t => if String.eqb k k' then Some v else lookup k t
  end.

(** [v.k] for the property names the code uses; none of them is a
    method or an index.  Reading a property of [null] or [undefined]
    throws. *)
Definition get (v : value) (k : string) : outcome value :=
  match v with
  | VUndefined => Throw (TypeError "Cannot read properties of undefined")
  | VNull => Throw (TypeError "Cannot read properties of null")
  | VObj fs => Ok match lookup k fs with Some x => x | None => VUndefined end
  | VArr l =>
      Ok (if String.eqb k "length" then VNum (Z.of_nat (length l))
          else VUndefined)
  | VStr s =>
      Ok (if String.eqb k "length" then VNum (Z.of_nat (String.length s))
          else VUndefined)
  | VBool _ | VNum _ => Ok VUndefined
  end.

(** [v?.k] and reads whose receiver is known not to be nullish. *)
Definition get_or_undefined (v : value) (k : string) : value :=
  match get v k with
  | Ok x => x
  | Throw _ => VUndefined
  end.

(** Comparisons of a value with the number 0.  [x === 0] is strict; the
    relational operators convert with ToNumber, which is modelled on
    [undefined], [null], booleans and numbers; any other operand counts
    as NaN. *)
Definition toNumber (v : value) : option Z :=
  match v with
  | VNum n => Some n
  | VNull => Some 0%Z
  | VBool b => Some (if b then 1 else 0)%Z
  | _ => None
  end.

Definition ge0 (v : value) : bool :=
  match toNumber v with Some n => (0 <=? n)%Z | None => false end.

Definition gt0 (v : value) : bool :=
  match toNumber v with Some n => (0 <? n)%Z | None => false end.

Definition is0 (v : value) : bool :=
  match v with VNum n => (n =? 0)%Z | _ => false end.

(** [Array.isArray(v)] *)
Definition isArray (v : value) : bool :=
  match v with VArr _ => true | _ => false end.

(** [a === b] on the values compared in the code.  Primitives compare by
    value.  Objects and arrays compare by reference, which the model
    does not carry: two payload objects read from different places are
    different references, so they compare unequal here. *)
Definition strict_eq (a b : value) : bool :=
  match a, b with
  | VUndefined, VUndefined => true
  | VNull, VNull => true
  | VBool x, VBool y => Bool.eqb x y
  | VNum x, VNum y => (x =? y)%Z
  | VStr x, VStr y => String.eqb x y
  | _, _ => false
  end.

Definition is_str (name : string) (v : value) : bool :=
  strict_eq v (VStr name).

Definition join_with (sep : string) (items : list string) : string :=
  String.concat sep items.

Definition string_of_Z (n : Z) : string :=
  DecimalString.NilZero.string_of_int (Z.to_int n).

(** [String(v)], as template literals and [JSON.parse] apply it. *)
Fixpoint toString (v : value) : string :=
  match v with
  | VUndefined => "undefined"
  | VNull => "null"
  | VBool b => if b then "true" else "false"
  | VNum n => string_of_Z n
  | VStr s => s
  | VArr l =>
      join_with ","
        (map (fun x => match x with
                       | VUndefined | VNull => ""
                       | _ => toString x
                       end) l)
  | VObj _ => "[object Object]"
  end.

(** [a.join(sep)]: only arrays have the method. *)
Definition join (v : value) (sep : string) : outcome string :=
  match v with
  | VArr l =>
      Ok (join_with sep
            (map (fun x => match x with
                           | VUndefined | VNull => ""
                           | _ => toString x
                           end) l))
  | VUndefined => Throw (TypeError "Cannot read properties of undefined")
  | VNull => Throw (TypeError "Cannot read properties of null")
  | _ => Throw (TypeError "join is not a function")
  end.

(** [a[0]] *)
Definition first (v : value) : value :=
  match v with
  | VArr (x :: _) => x
  | VStr (String c _) => VStr (String c "")
  | VObj fs => match lookup "0" fs with Some x => x | None => VUndefined end
  | _ => VUndefined
  end.

(** [a || b] *)
Definition or_else (a b : value) : value := if truthy a then a else b.

(** [s.includes(sub)] *)
Definition includes (sub s : string) : bool :=
  Js.includes (chars_of sub) (chars_of s).

(* ================================================================== *)
(** * The host: everything outside the repository *)
(* ================================================================== *)

(** What the agents ask the language model.  The prompt text is a fixed
    template around the interpolated values kept here. *)
Inductive prompt : Type :=
| IdeaPrompt (projectName description complexity : value)
             (techConstraints : value)
| PlanPrompt (projectSpec : value)
| ReadmePrompt (projectSpec : value) (repoName repoUrl : value)
| DevelopmentPrompt (type techStack complexity title description
                     filePath priority : string)
| RetryPrompt (title filePath techStack : string).

(** [data] of a repository as the hosting API answers it. *)
Record repository : Type := mkRepository {
  repo_name : string;
  repo_html_url : string
}.

(** A request to [repos.createOrUpdateFileContents] (the content before
    its base64 encoding). *)
Record commitRequest : Type := mkCommit {
  commit_owner : string;
  commit_repo : string;
  commit_path : string;
  commit_message : string;
  commit_content : string;
  commit_sha : option string
}.

(** The first argument of every call is the instant of the call (the
    number of earlier interactions), so that a service may answer the
    same request differently at different times. *)
Record Host : Type := mkHost {
  JSON_parse : string -> option value;
  JSON_stringify : value -> string;
  Date_toISOString : nat -> string;
  GITHUB_TOKEN : bool;
  GITHUB_REPO_NAME : option string;
  GITHUB_REPO_URL : option string;
  COMMIT_MODE : option string;
  productionCron : string;
  cron_validate : string -> bool;
  model_invoke : nat -> prompt -> outcome string;
  users_getAuthenticated : nat -> outcome string;
  repos_get : nat -> string -> string -> outcome repository;
  repos_createForAuthenticatedUser :
    nat -> string -> string -> outcome repository;
  repos_getContent : nat -> string -> string -> string -> outcome string;
  repos_createOrUpdateFileContents : nat -> commitRequest -> outcome unit
}.

(* ================================================================== *)
(** * memoryService.js *)
(* ================================================================== *)

Inductive role : Type := Human | AI.

(** A message of the buffer memory's chat history. *)
Record message : Type := mkMessage {
  msg_role : role;
  content : string
}.

Record ProjectState : Type := mkProjectState {
  isInitialized : bool;
  isCompleted : bool;
  remainingTasks : value;
  projectSpec : value;
  lastUpdated : value
}.

(** The service: the buffer memory ([past_steps], oldest message first,
    as the chat history keeps them) and the local state. *)
Record MemoryService : Type := mkMemory {
  past_steps : list message;
  projectState : ProjectState
}.

Definition emptyProjectState : ProjectState :=
  mkProjectState false false (VArr []) VNull VNull.

(** [constructor] *)
Definition newMemoryService : MemoryService :=
  mkMemory [] emptyProjectState.

Definition set_isInitialized (b : bool) (p : ProjectState) : ProjectState :=
  mkProjectState b (isCompleted p) (remainingTasks p) (projectSpec p)
                 (lastUpdated p).
Definition set_isCompleted (b : bool) (p : ProjectState) : ProjectState :=
  mkProjectState (isInitialized p) b (remainingTasks p) (projectSpec p)
                 (lastUpdated p).
Definition set_remainingTasks (v : value) (p : ProjectState) : ProjectState :=
  mkProjectState (isInitialized p) (isCompleted p) v (projectSpec p)
                 (lastUpdated p).
Definition set_projectSpec (v : value) (p : ProjectState) : ProjectState :=
  mkProjectState (isInitialized p) (isCompleted p) (remainingTasks p) v
                 (lastUpdated p).
Definition set_lastUpdated (now : string) (p : ProjectState) : ProjectState :=
  mkProjectState (isInitialized p) (isCompleted p) (remainingTasks p)
                 (projectSpec p) (VStr now).

Definition with_state (f : ProjectState -> ProjectState)
           (m : MemoryService) : MemoryService :=
  mkMemory (past_steps m) (f (projectState m)).

(** The result of one turn of a [for ... of] loop whose body may
    [return], go on, or throw to the enclosing [try]. *)
Inductive step (A : Type) : Type :=
| Return (a : A)
| Continue
| Raise (e : error).
Arguments Return {A} a.
Arguments Continue {A}.
Arguments Raise {A} e.

Fixpoint scan {A} (body : string -> step A) (steps : list message) : step A :=
  match steps with
  | [] => Continue
  | m :: rest =>
      match body (content m) with
      | Continue => scan body rest
      | r => r
      end
  end.

Definition dquote : ascii := Js.ch 34.
Definition backslash : ascii := Js.ch 92.

(** [stepContent.match(/remainingTasks.*?\[(.*?)\]/)], group 1. *)
Definition match_remainingTasks (stepContent : string) : option string :=
  Js.search
    (fun s =>
       match Js.strip_prefix (chars_of "remainingTasks") s with
       | None => None
       | Some r =>
           Js.lazy_dots
             (Js.lit_char "["%char
                (Js.lazy_capture
                   (fun cap rest =>
                      Js.lit_char "]"%char (fun _ => Some (string_of cap))
                                  rest)
                   []))
             r
       end)
    (chars_of stepContent).

(** [stepContent.match(...)], group 1, for the expression made of the
    text projectSpec, a double quote, a colon, a double quote, the lazy
    group [(.*?)] and a closing double quote. *)
Definition match_projectSpec (stepContent : string) : option string :=
  Js.search
    (fun s =>
       match Js.strip_prefix
               (chars_of "projectSpec" ++ [dquote; ":"%char; dquote]) s
       with
       | None => None
       | Some r =>
           Js.lazy_capture
             (fun cap rest =>
                Js.lit_char dquote (fun _ => Some (string_of cap)) rest)
             [] r
       end)
    (chars_of stepContent).

(** The two [replace] calls on the captured text: a backslash
    followed by a double quote becomes the quote, a backslash followed
    by the letter n becomes a line feed. *)
Definition unescape (s : string) : string :=
  string_of
    (Js.replace_lit [backslash; "n"%char] [Js.ch 10] 0
       (Js.replace_lit [backslash; dquote] [dquote] 0 (chars_of s))).

Section Memory.

Variable host : Host.

(** [JSON.parse(text)] inside a [try]. *)
Definition parse (text : string) : outcome value :=
  match JSON_parse host text with
  | Some v => Ok v
  | None => Throw (SyntaxError "Unexpected token in JSON")
  end.

(** [saveContext(input, output)]: one human and one AI message are
    appended to the history; a value that is not a string is
    stringified.  Errors are caught inside. *)
Definition format (v : value) : string :=
  match v with
  | VStr s => s
  | _ => JSON_stringify host v
  end.

Definition saveContext (input output : value) (m : MemoryService)
  : MemoryService :=
  mkMemory (past_steps m
            ++ [mkMessage Human (format input);
                mkMessage AI (format output)])
           (projectState m).

(** [loadMemoryVariables().past_steps || []] *)
Definition loadMemoryVariables (m : MemoryService) : list message :=
  past_steps m.

Definition saveInitializationStatus (now : string) (status : value)
           (m : MemoryService) : MemoryService :=
  let m := with_state
             (fun p => set_lastUpdated now
                         (set_isInitialized (is_str "done" status) p)) m in
  saveContext (VObj [("step", VStr "initialization")])
              (VObj [("status", status); ("timestamp", VStr now)]) m.

Definition saveProjectCompletion (now : string) (m : MemoryService)
  : MemoryService :=
  let m := with_state
             (fun p => set_lastUpdated now (set_isCompleted true p)) m in
  saveContext (VObj [("project", VStr "status")])
              (VObj [("status", VStr "complete");
                     ("completedAt", VStr now)]) m.

Definition markProjectCompleted (now : string) (m : MemoryService)
  : MemoryService :=
  with_state (fun p => set_lastUpdated now (set_isCompleted true p)) m.

Definition saveTaskProgress (now : string) (taskTitle status details : value)
           (m : MemoryService) : MemoryService :=
  saveContext (VObj [("task", taskTitle)])
              (VObj [("status", status); ("details", details);
                     ("timestamp", VStr now)]) m.

(** [saveProjectPlan(plan, projectSpec)]; reading [plan.tasks] throws
    on a nullish plan. *)
Definition saveProjectPlan (now : string) (plan spec : value)
           (m : MemoryService) : outcome unit * MemoryService :=
  match get plan "tasks" with
  | Throw e => (Throw e, m)
  | Ok tasks =>
      let tasks' := or_else tasks (VArr []) in
      let m := with_state
                 (fun p => set_lastUpdated now
                             (set_projectSpec spec
                                (set_remainingTasks tasks' p))) m in
      let total := or_else (get_or_undefined tasks "length") (VNum 0) in
      (Ok tt,
       saveContext (VObj [("projectPlan", VStr "save")])
                   (VObj [("remainingTasks", tasks');
                          ("totalTasks", total);
                          ("projectSpec", spec)]) m)
  end.

Definition saveRepositoryInfo (now : string) (repo : value)
           (m : MemoryService) : MemoryService :=
  saveContext (VObj [("action", VStr "save_repository")])
              (VObj [("repo", repo); ("timestamp", VStr now)]) m.

(** The body of the loop of [getRepositoryInfo]. *)
Definition repositoryInfoStep (stepContent : string) : step value :=
  if includes "repo" stepContent && includes "name" stepContent then
    match parse stepContent with
    | Throw _ => Continue
    | Ok parsed =>
        match get parsed "repo" with
        | Throw _ => Continue
        | Ok repo =>
            if truthy repo
               && truthy (get_or_undefined repo "name")
               && truthy (get_or_undefined repo "url")
            then Return repo else Continue
        end
    end
  else Continue.

Definition getRepositoryInfo (m : MemoryService) : value :=
  match scan repositoryInfoStep (loadMemoryVariables m) with
  | Return repo => repo
  | _ => VNull
  end.

(** [updateRemainingTasks(updatedTasks)]; [updatedTasks.length] is read
    after the state and the log were written. *)
Definition updateRemainingTasks (now : string) (updatedTasks : value)
           (m : MemoryService) : outcome unit * MemoryService :=
  let m := with_state
             (fun p => set_lastUpdated now
                         (set_remainingTasks updatedTasks p)) m in
  let m := saveContext (VObj [("remainingTasks", VStr "update")])
                       (VObj [("remainingTasks", updatedTasks)]) m in
  match get updatedTasks "length" with
  | Throw e => (Throw e, m)
  | Ok len =>
      if is0 len then (Ok tt, markProjectCompleted now m)
      else (Ok tt, m)
  end.

Definition isProjectInitialized (m : MemoryService) : bool :=
  if isInitialized (projectState m) then true
  else existsb
         (fun st => includes "initialization" (content st)
                    && includes "done" (content st))
         (loadMemoryVariables m).

Definition statusComplete : string :=
  string_of ([dquote] ++ chars_of "status" ++ [dquote; ":"%char; dquote]
             ++ chars_of "complete" ++ [dquote]).
Definition projectStatus : string :=
  string_of ([dquote] ++ chars_of "project" ++ [dquote; ":"%char; dquote]
             ++ chars_of "status" ++ [dquote]).

Definition isProjectCompleted (m : MemoryService) : bool :=
  if isCompleted (projectState m) then true
  else existsb
         (fun st => includes statusComplete (content st)
                    || includes projectStatus (content st))
         (loadMemoryVariables m).

(** The body of the loop of [getRemainingTasks]. *)
Definition remainingTasksStep (stepContent : string) : step value :=
  if includes "remainingTasks" stepContent then
    match
      match parse stepContent with
      | Throw e => Throw e
      | Ok parsed =>
          match get parsed "remainingTasks" with
          | Throw e => Throw e
          | Ok tasks => Ok (if truthy tasks && isArray tasks
                            then Return tasks else Continue)
          end
      end
    with
    | Ok r => r
    | Throw _ =>
        match match_remainingTasks stepContent with
        | Some inner =>
            match parse ("[" ++ inner ++ "]")%string with
            | Ok v => Return v
            | Throw e => Raise e
            end
        | None => Continue
        end
    end
  else Continue.

Definition getRemainingTasks (m : MemoryService) : value :=
  let local := remainingTasks (projectState m) in
  if truthy local && ge0 (get_or_undefined local "length") then local
  else
    match scan remainingTasksStep (loadMemoryVariables m) with
    | Return tasks => tasks
    | Continue | Raise _ => VArr []
    end.

(** The body of the loop of [getProjectSpec]. *)
Definition projectSpecStep (stepContent : string) : step value :=
  if includes "projectSpec" stepContent then
    match
      match parse stepContent with
      | Throw e => Throw e
      | Ok parsed =>
          match get parsed "projectSpec" with
          | Throw e => Throw e
          | Ok spec => Ok (if truthy spec then Return spec else Continue)
          end
      end
    with
    | Ok r => r
    | Throw _ =>
        match match_projectSpec stepContent with
        | Some inner => Return (VStr (unescape inner))
        | None => Continue
        end
    end
  else Continue.

Definition getProjectSpec (m : MemoryService) : value :=
  let local := projectSpec (projectState m) in
  if truthy local then local
  else
    match scan projectSpecStep (loadMemoryVariables m) with
    | Return spec => spec
    | Continue | Raise _ => VNull
    end.

Definition clearRepositoryInfo (now : string) (m : MemoryService)
  : MemoryService :=
  saveContext (VObj [("action", VStr "clear_repository")])
              (VObj [("repository", VNull); ("timestamp", VStr now)]) m.

(** [clearMemory]: a new buffer memory and the initial local state. *)
Definition clearMemory (now : string) (m : MemoryService) : MemoryService :=
  clearRepositoryInfo now newMemoryService.

Definition resetProjectCompletion (now : string) (m : MemoryService)
  : MemoryService :=
  with_state (fun p => set_lastUpdated now (set_isCompleted false p)) m.

(** The loop shared by [forceResetProject] and [continueDevelopment]:
    the first entry with a non-empty array of tasks. *)
Definition originalPlanStep (stepContent : string) : step value :=
  if includes "remainingTasks" stepContent then
    match parse stepContent with
    | Throw _ => Continue
    | Ok parsed =>
        match get parsed "remainingTasks" with
        | Throw _ => Continue
        | Ok tasks =>
            if truthy tasks && isArray tasks
               && gt0 (get_or_undefined tasks "length")
            then Return tasks else Continue
        end
    end
  else Continue.

Definition restoreTasks (now : string) (tasks : value) (m : MemoryService)
  : MemoryService :=
  with_state
    (fun p => set_lastUpdated now
                (set_isCompleted false (set_remainingTasks tasks p))) m.

Definition forceResetProject (now : string) (m : MemoryService)
  : bool * MemoryService :=
  match scan originalPlanStep (loadMemoryVariables m) with
  | Return tasks => (true, restoreTasks now tasks m)
  | _ => (false, m)
  end.

Definition continueDevelopment (now : string) (m : MemoryService)
  : bool * MemoryService :=
  let local := remainingTasks (projectState m) in
  if truthy local && gt0 (get_or_undefined local "length") then
    (true,
     with_state (fun p => set_lastUpdated now (set_isCompleted false p)) m)
  else forceResetProject now m.

End Memory.

(* ================================================================== *)
(** * An executable JSON reader and writer *)
(* ================================================================== *)

(** The development is parametric in the host's [JSON.parse] and
    [JSON.stringify].  To run the code on concrete logs, this module
    implements both for the JSON texts made of objects, arrays, strings
    (with the two-character escapes), integers, [true], [false] and
    [null]. *)
Module Json.

Import Js.

Definition is_ws (c : ascii) : bool :=
  (code c =? 32)%nat || (code c =? 9)%nat || (code c =? 10)%nat
  || (code c =? 13)%nat.

Definition skip_ws (s : chars) : chars := dropWhile is_ws s.

Definition unescape_char (c : ascii) : option ascii :=
  if eqc c dquote then Some dquote
  else if eqc c backslash then Some backslash
  else if eqc c "/"%char then Some "/"%char
  else if eqc c "n"%char then Some (ch 10)
  else if eqc c "t"%char then Some (ch 9)
  else if eqc c "r"%char then Some (ch 13)
  else if eqc c "b"%char then Some (ch 8)
  else if eqc c "f"%char then Some (ch 12)
  else None.

(** The characters of a string literal after its opening quote. *)
Fixpoint read_string (s acc : chars) : option (string * chars) :=
  match s with
  | [] => None
  | c :: t =>
      if eqc c dquote then Some (string_of (rev acc), t)
      else if eqc c backslash then
        match t with
        | e :: t' =>
            match unescape_char e with
            | Some x => read_string t' (x :: acc)
            | None => None
            end
        | [] => None
        end
      else if (code c <? 32)%nat then None
      else read_string t (c :: acc)
  end.

Fixpoint digits_value (ds : chars) (acc : Z) : Z :=
  match ds with
  | [] => acc
  | d :: t => digits_value t (10 * acc + Z.of_nat (code d - 48))%Z
  end.

Fixpoint take_digits (s : chars) : chars * chars :=
  match s with
  | c :: t =>
      if is_digit c
      then let (ds, r) := take_digits t in (c :: ds, r)
      else ([], s)
  | [] => ([], [])
  end.

Definition read_int (s : chars) : option (Z * chars) :=
  let (ds, r) := take_digits s in
  match ds with
  | [] => None
  | d :: more =>
      if eqc d "0"%char && negb (length more =? 0)%nat then None
      else
        match r with
        | c :: _ =>
            if eqc c "."%char || eqc c "e"%char || eqc c "E"%char
            then None else Some (digits_value ds 0, r)
        | [] => Some (digits_value ds 0, r)
        end
  end.

Definition read_literal (lit : string) (v : value) (s : chars)
  : option (value * chars) :=
  match strip_prefix (chars_of lit) s with
  | Some r => Some (v, r)
  | None => None
  end.

(** A later member with the same key replaces the earlier value. *)
Fixpoint set_field (k : string) (v : value) (fs : list (string * value))
  : list (string * value) :=
  match fs with
  | [] => [(k, v)]
  | (k', v') :: t =>
      if String.eqb k k' then (k, v) :: t else (k', v') :: set_field k v t
  end.

Fixpoint read_value (fuel : nat) (s : chars) {struct fuel}
  : option (value * chars) :=
  match fuel with
  | O => None
  | S f =>
      match skip_ws s with
      | [] => None
      | c :: t =>
          if eqc c "n"%char then read_literal "null" VNull (c :: t)
          else if eqc c "t"%char then
            read_literal "true" (VBool true) (c :: t)
          else if eqc c "f"%char then
            read_literal "false" (VBool false) (c :: t)
          else if eqc c dquote then
            match read_string t [] with
            | Some (x, r) => Some (VStr x, r)
            | None => None
            end
          else if eqc c "["%char then
            match skip_ws t with
            | d :: r =>
                if eqc d "]"%char then Some (VArr [], r)
                else read_elements f t []
            | [] => None
            end
          else if eqc c "{"%char then
            match skip_ws t with
            | d :: r =>
                if eqc d "}"%char then Some (VObj [], r)
                else read_members f t []
            | [] => None
            end
          else if eqc c "-"%char then
            match read_int t with
            | Some (n, r) => Some (VNum (- n), r)
            | None => None
            end
          else
            match read_int (c :: t) with
            | Some (n, r) => Some (VNum n, r)
            | None => None
            end
      end
  end

with read_elements (fuel : nat) (s : chars) (acc : list value)
       {struct fuel} : option (value * chars) :=
  match fuel with
  | O => None
  | S f =>
      match read_value f s with
      | Some (v, r) =>
          match skip_ws r with
          | d :: r' =>
              if eqc d ","%char then read_elements f r' (v :: acc)
              else if eqc d "]"%char then Some (VArr (rev (v :: acc)), r')
              else None
          | [] => None
          end
      | None => None
      end
  end

with read_members (fuel : nat) (s : chars) (acc : list (string * value))
       {struct fuel} : option (value * chars) :=
  match fuel with
  | O => None
  | S f =>
      match skip_ws s with
      | q :: t =>
          if eqc q dquote then
            match read_string t [] with
            | Some (k, r) =>
                match skip_ws r with
                | colon :: r1 =>
                    if eqc colon ":"%char then
                      match read_value f r1 with
                      | Some (v, r2) =>
                          match skip_ws r2 with
                          | d :: r3 =>
                              if eqc d ","%char
                              then read_members f r3 (set_field k v acc)
                              else if eqc d "}"%char
                              then Some (VObj (set_field k v acc), r3)
                              else None
                          | [] => None
                          end
                      | None => None
                      end
                    else None
                | [] => None
                end
            | None => None
            end
          else None
      | [] => None
      end
  end.

Definition parse (text : string) : option value :=
  let s := chars_of text in
  match read_value (2 * length s + 2) s with
  | Some (v, r) =>
      match skip_ws r with
      | [] => Some v
      | _ :: _ => None
      end
  | None => None
  end.

Definition escape_char (c : ascii) : chars :=
  if eqc c dquote then [backslash; dquote]
  else if eqc c backslash then [backslash; backslash]
  else if (code c =? 10)%nat then [backslash; "n"%char]
  else if (code c =? 9)%nat then [backslash; "t"%char]
  else if (code c =? 13)%nat then [backslash; "r"%char]
  else if (code c =? 8)%nat then [backslash; "b"%char]
  else if (code c =? 12)%nat then [backslash; "f"%char]
  else [c].

Definition quote (s : string) : string :=
  string_of ([dquote] ++ flat_map escape_char (chars_of s) ++ [dquote]).

Definition somes {A} (l : list (option A)) : list A :=
  flat_map (fun o => match o with Some x => [x] | None => [] end) l.

Definition is_undefined (v : value) : bool :=
  match v with VUndefined => true | _ => false end.

(** Members whose value is [undefined] are left out; in an array
    [undefined] is written [null]. *)
Fixpoint stringify (v : value) : string :=
  match v with
  | VUndefined | VNull => "null"
  | VBool b => if b then "true" else "false"
  | VNum n => string_of_Z n
  | VStr s => quote s
  | VArr l => ("[" ++ join_with "," (map stringify l) ++ "]")%string
  | VObj fs =>
      ("{"
       ++ join_with ","
            (somes
               (map (fun kv : string * value =>
                       let (k, x) := kv in
                       if is_undefined x then None
                       else Some (quote k ++ ":" ++ stringify x)) fs))
       ++ "}")%string
  end.

(** Source text with a single quote wherever the JSON text has a
    double quote. *)
Definition text (s : string) : string :=
  string_of (map (fun c => if eqc c "'"%char then dquote else c)
                 (chars_of s)).

End Json.


(* ================================================================== *)
(** * The process: singletons, effects and exceptions *)
(* ================================================================== *)

(** What [notificationService] was asked to send.  The service swallows
    its own failures and every call site wraps it in a [try]. *)
Inductive notification : Type :=
| CommitNotification (message path : string) (repo task : value)
| ErrorNotification (e : error) (context : string) (repo : value)
| TaskCompletionNotification (taskTitle remaining repo : value)
| ProjectStartNotification (projectName complexity techStack repo : value).

(** A task of the cron library. *)
Record Job : Type := mkJob {
  cronExpression : string;
  started : bool
}.

Record CronScheduler : Type := mkScheduler {
  jobs : list (string * Job);
  isRunning : bool
}.

Record Sys : Type := mkSys {
  memoryService : MemoryService;
  cronScheduler : CronScheduler;
  sent : list notification;
  instant : nat
}.

Definition M (A : Type) : Type := Sys -> outcome A * Sys.

Definition ret {A} (a : A) : M A := fun s => (Ok a, s).

Definition throw {A} (e : error) : M A := fun s => (Throw e, s).

Definition bind {A B} (m : M A) (k : A -> M B) : M B :=
  fun s =>
    match m s with
    | (Ok a, s') => k a s'
    | (Throw e, s') => (Throw e, s')
    end.

(** [try { m } catch (e) { h e }] *)
Definition try_catch {A} (m : M A) (h : error -> M A) : M A :=
  fun s =>
    match m s with
    | (Ok a, s') => (Ok a, s')
    | (Throw e, s') => h e s'
    end.

Definition lift {A} (o : outcome A) : M A := fun s => (o, s).

Declare Scope m_scope.
Delimit Scope m_scope with m.
Notation "x <- m ;; k" := (bind m (fun x => k))
  (at level 61, m at next level, right associativity) : m_scope.
Notation "m ;;; k" := (bind m (fun _ => k))
  (at level 61, right associativity) : m_scope.
Local Open Scope m_scope.

Definition tick (s : Sys) : Sys :=
  mkSys (memoryService s) (cronScheduler s) (sent s) (S (instant s)).

Definition set_memory (m : MemoryService) (s : Sys) : Sys :=
  mkSys m (cronScheduler s) (sent s) (instant s).

Definition set_scheduler (c : CronScheduler) (s : Sys) : Sys :=
  mkSys (memoryService s) c (sent s) (instant s).

(** A call that leaves the process: it is answered at the current
    instant, and time moves on. *)
Definition call {A} (f : nat -> outcome A) : M A :=
  fun s => (f (instant s), tick s).

Definition notify (n : notification) : M unit :=
  fun s => (Ok tt,
            mkSys (memoryService s) (cronScheduler s) (sent s ++ [n])
                  (instant s)).

Definition memory_read {A} (f : MemoryService -> A) : M A :=
  fun s => (Ok (f (memoryService s)), s).

Definition memory_write (f : MemoryService -> MemoryService) : M unit :=
  fun s => (Ok tt, set_memory (f (memoryService s)) s).

Definition memory_run {A} (f : MemoryService -> outcome A * MemoryService)
  : M A :=
  fun s => let (o, m) := f (memoryService s) in (o, set_memory m s).

(** The state a graph node or the development agent receives and
    returns (the fields of [stateSchema] the agents use, and [status]). *)
Record AgentState : Type := mkAgentState {
  st_projectName : value;
  st_description : value;
  st_complexity : value;
  st_techConstraints : value;
  st_projectSpec : value;
  st_plan : value;
  st_repo : value;
  st_commits : value;
  st_currentTask : value;
  st_remainingTasks : value;
  st_status : value
}.

Definition field (st : AgentState) (name : string) : value :=
  if String.eqb name "projectName" then st_projectName st
  else if String.eqb name "description" then st_description st
  else if String.eqb name "complexity" then st_complexity st
  else if String.eqb name "techConstraints" then st_techConstraints st
  else if String.eqb name "projectSpec" then st_projectSpec st
  else if String.eqb name "plan" then st_plan st
  else if String.eqb name "repo" then st_repo st
  else if String.eqb name "commits" then st_commits st
  else if String.eqb name "currentTask" then st_currentTask st
  else if String.eqb name "remainingTasks" then st_remainingTasks st
  else if String.eqb name "status" then st_status st
  else VUndefined.

Definition with_projectSpec (v : value) (st : AgentState) : AgentState :=
  mkAgentState (st_projectName st) (st_description st) (st_complexity st)
    (st_techConstraints st) v (st_plan st) (st_repo st) (st_commits st)
    (st_currentTask st) (st_remainingTasks st) (st_status st).

Definition with_plan (v : value) (st : AgentState) : AgentState :=
  mkAgentState (st_projectName st) (st_description st) (st_complexity st)
    (st_techConstraints st) (st_projectSpec st) v (st_repo st) (st_commits st)
    (st_currentTask st) (st_remainingTasks st) (st_status st).

Definition with_repo (v : value) (st : AgentState) : AgentState :=
  mkAgentState (st_projectName st) (st_description st) (st_complexity st)
    (st_techConstraints st) (st_projectSpec st) (st_plan st) v (st_commits st)
    (st_currentTask st) (st_remainingTasks st) (st_status st).

Definition with_commits (v : value) (st : AgentState) : AgentState :=
  mkAgentState (st_projectName st) (st_description st) (st_complexity st)
    (st_techConstraints st) (st_projectSpec st) (st_plan st) (st_repo st) v
    (st_currentTask st) (st_remainingTasks st) (st_status st).

Definition with_status (v : value) (st : AgentState) : AgentState :=
  mkAgentState (st_projectName st) (st_description st) (st_complexity st)
    (st_techConstraints st) (st_projectSpec st) (st_plan st) (st_repo st)
    (st_commits st) (st_currentTask st) (st_remainingTasks st) v.

Definition with_progress (task remaining : value) (st : AgentState)
  : AgentState :=
  mkAgentState (st_projectName st) (st_description st) (st_complexity st)
    (st_techConstraints st) (st_projectSpec st) (st_plan st) (st_repo st)
    (st_commits st) task remaining (st_status st).

(** [validateState(state, requiredFields)] *)
Definition validateState (st : AgentState) (requiredFields : list string)
  : outcome unit :=
  match filter (fun f => negb (truthy (field st f))) requiredFields with
  | [] => Ok tt
  | missing =>
      Throw (Error ("Missing required fields: " ++ join_with ", " missing))
  end.

Definition mockRepo : value :=
  VObj [("name", VStr "mock-repo"); ("url", VStr "http://mock-repo.com")].

(** Removal of code fences: three backquotes, then the first language
    name of [langs] that follows (an optional group), then, when [ws] is
    set, the white space that follows.  [ci] is the [i] flag. *)
Definition fence : Js.chars := chars_of "```".

Definition fold_case (ci : bool) (s : Js.chars) : Js.chars :=
  if ci then Js.toLowerCase s else s.

Fixpoint language_length (ci : bool) (langs : list string) (s : Js.chars)
  : nat :=
  match langs with
  | [] => 0
  | l :: more =>
      if Js.starts_with (chars_of l)
                        (fold_case ci (firstn (String.length l) s))
      then String.length l
      else language_length ci more s
  end.

Fixpoint space_length (s : Js.chars) : nat :=
  match s with
  | c :: t => if Js.is_space c then S (space_length t) else 0
  | [] => 0
  end.

Definition fence_length (ci ws : bool) (langs : list string)
           (after : Js.chars) : nat :=
  let n := language_length ci langs after in
  n + (if ws then space_length (skipn n after) else 0).

Fixpoint strip_fences (ci ws : bool) (langs : list string) (skip : nat)
         (s : Js.chars) : Js.chars :=
  match s with
  | [] => []
  | c :: t =>
      match skip with
      | S k => strip_fences ci ws langs k t
      | O =>
          if Js.starts_with fence s
          then strip_fences ci ws langs
                 (2 + fence_length ci ws langs (skipn 2 t)) t
          else c :: strip_fences ci ws langs 0 t
      end
  end.

Definition codeLanguages : list string :=
  ["html"; "css"; "javascript"; "json"; "python"; "java"; "cpp"; "csharp";
   "php"; "go"; "rust"; "swift"; "kotlin"; "scala"; "r"; "matlab"; "julia";
   "dart"; "typescript"; "jsx"; "tsx"].

(** The cleaning of generated code in [developNextTask]. *)
Definition cleanCode (text : string) : string :=
  string_of
    (Js.trim
       (Js.replace_lit fence [] 0
          (strip_fences true true codeLanguages 0 (chars_of text)))).

(** The cleaning of a generated README. *)
Definition cleanReadme (text : string) : string :=
  string_of
    (Js.trim
       (Js.replace_lit fence [] 0
          (strip_fences true true ["markdown"; "md"] 0 (chars_of text)))).

(** The cleaning of a JSON answer in [generateIdea] and [planProject]. *)
Definition cleanJson (text : string) : string :=
  string_of
    (Js.trim (strip_fences false false ["json"] 0 (chars_of text))).

Definition nonCodePatterns : list string :=
  ["since the task does not require"; "no code will be generated";
   "this task involves"; "the following code"; "here is the code";
   "explanation"; "description"].

(** [pattern.test(codeContent)] for one of the patterns above, which
    carry the [i] flag. *)
Definition test_pattern (pattern codeContent : string) : bool :=
  Js.includes (chars_of pattern) (Js.toLowerCase (chars_of codeContent)).

Definition hasNonCodePattern (codeContent : string) : bool :=
  existsb (fun p => test_pattern p codeContent) nonCodePatterns.

(** [filePath.replace(...)] needs a string. *)
Definition normalizeFilePathOf (filePath taskTitle : value) : outcome string :=
  match filePath with
  | VStr p => Ok (normalizeFilePath p (toString taskTitle))
  | VUndefined => Throw (TypeError "Cannot read properties of undefined")
  | VNull => Throw (TypeError "Cannot read properties of null")
  | _ => Throw (TypeError "filePath.replace is not a function")
  end.

(** [remainingTasks.filter(task => task.title !== title)] *)
Fixpoint withoutTitle (title : value) (tasks : list value)
  : outcome (list value) :=
  match tasks with
  | [] => Ok []
  | task :: rest =>
      match get task "title" with
      | Throw e => Throw e
      | Ok t =>
          match withoutTitle title rest with
          | Throw e => Throw e
          | Ok rest' =>
              Ok (if negb (strict_eq t title) then task :: rest' else rest')
          end
      end
  end.

Definition filterOutTitle (title remaining : value) : outcome value :=
  match remaining with
  | VArr tasks =>
      match withoutTitle title tasks with
      | Ok l => Ok (VArr l)
      | Throw e => Throw e
      end
  | VUndefined => Throw (TypeError "Cannot read properties of undefined")
  | VNull => Throw (TypeError "Cannot read properties of null")
  | _ => Throw (TypeError "remainingTasks.filter is not a function")
  end.

(* ================================================================== *)
(** * developmentAgent.js: the development cycle *)
(* ================================================================== *)

Section Agents.

Variable host : Host.

(** [new Date().toISOString()] *)
Definition now : M string :=
  fun s => (Ok (Date_toISOString host (instant s)), tick s).

(** [memoryService.saveTaskProgress(...)] with its own reading of the
    clock. *)
Definition saveTaskProgressM (taskTitle status details : value) : M unit :=
  t <- now ;;
  memory_write (saveTaskProgress host t taskTitle status details).

(** [memoryService.markProjectCompleted()] *)
Definition markProjectCompletedM : M unit :=
  t <- now ;;
  memory_write (markProjectCompleted t).

(** [memoryService.updateRemainingTasks(updatedTasks)] *)
Definition updateRemainingTasksM (updatedTasks : value) : M unit :=
  t <- now ;;
  memory_run (updateRemainingTasks host t updatedTasks).

(** The first block of [developNextTask]: the inputs are validated. *)
Definition checkInputs (state : AgentState) : M value :=
  lift (validateState state ["projectSpec"; "plan"; "repo"]) ;;;
  projectSpec <-
    try_catch
      (lift (parse host (toString (st_projectSpec state))))
      (fun _ => throw (Error "Invalid projectSpec or plan JSON")) ;;
  let repo := st_repo state in
  if negb (truthy repo)
     || negb (truthy (get_or_undefined repo "name"))
     || negb (truthy (get_or_undefined repo "url"))
     || is_str "mock-repo" (get_or_undefined repo "name")
  then throw (Error "No valid repository found")
  else ret projectSpec.

(** The choice of the task: the head of the remaining tasks, else the
    head of the plan, else none. *)
Definition selectTask (remaining plan : value) : outcome (option value) :=
  if truthy remaining && gt0 (get_or_undefined remaining "length")
  then Ok (Some (first remaining))
  else
    match get plan "tasks" with
    | Throw e => Throw e
    | Ok tasks =>
        if truthy tasks && gt0 (get_or_undefined tasks "length")
        then Ok (Some (first tasks))
        else Ok None
    end.

(** The values interpolated into the two prompts.  Reading a property
    of a nullish spec or task throws, and so does [join] on a tech
    stack that is not an array. *)
Definition developmentPrompt (projectSpec task : value) : outcome prompt :=
  match get projectSpec "type", get projectSpec "techStack",
        get projectSpec "complexity", get projectSpec "priority",
        get task "title", get task "description", get task "filePath"
  with
  | Ok type, Ok techStack, Ok complexity, Ok priority,
    Ok title, Ok description, Ok filePath =>
      match join techStack ", " with
      | Ok stack =>
          Ok (DevelopmentPrompt (toString type) stack (toString complexity)
                (toString title) (toString description)
                (toString filePath)
                (toString (or_else priority (VStr "medium"))))
      | Throw e => Throw e
      end
  | Throw e, _, _, _, _, _, _ => Throw e
  | _, _, _, _, Throw e, _, _ => Throw e
  | _, Throw e, _, _, _, _, _
  | _, _, Throw e, _, _, _, _
  | _, _, _, Throw e, _, _, _
  | _, _, _, _, _, Throw e, _
  | _, _, _, _, _, _, Throw e => Throw e
  end.

Definition retryPrompt (projectSpec task : value) : outcome prompt :=
  match get task "title", get task "filePath", get projectSpec "techStack"
  with
  | Ok title, Ok filePath, Ok techStack =>
      match join techStack ", " with
      | Ok stack => Ok (RetryPrompt (toString title) (toString filePath)
                                    stack)
      | Throw e => Throw e
      end
  | Throw e, _, _ | _, Throw e, _ | _, _, Throw e => Throw e
  end.

(** The generation of the code, with the validation of its length and
    the single retry. *)
Definition generateCode (projectSpec task : value) : M string :=
  p <- lift (developmentPrompt projectSpec task) ;;
  response <- call (fun t => model_invoke host t p) ;;
  let codeContent := cleanCode response in
  if (String.length codeContent <? 10)%nat then
    throw (Error "Generated content is too short - likely not actual code")
  else if hasNonCodePattern codeContent
          && (String.length codeContent <? 200)%nat then
    p' <- lift (retryPrompt projectSpec task) ;;
    retryResponse <- call (fun t => model_invoke host t p') ;;
    ret (cleanCode retryResponse)
  else ret codeContent.

(** "Check if the file already exists to get its sha". *)
Definition lookupSha (owner repo path : string) : M (option string) :=
  try_catch
    (sha <- call (fun t => repos_getContent host t owner repo path) ;;
     ret (Some sha))
    (fun error =>
       if match status_of error with
          | Some st => (st =? 404)%Z
          | None => false
          end
       then ret None
       else throw error).

(** Everything [developNextTask] does for a task before it commits:
    generation, path, authentication and the lookup of the file. *)
Definition prepareCommit (state : AgentState) (projectSpec task : value)
  : M commitRequest :=
  title <- lift (get task "title") ;;
  codeContent <- generateCode projectSpec task ;;
  filePath <- lift (get task "filePath") ;;
  fullPath <- lift (normalizeFilePathOf filePath title) ;;
  if negb (GITHUB_TOKEN host) then
    throw (Error "GITHUB_TOKEN not found in environment variables")
  else
    owner <- call (users_getAuthenticated host) ;;
    let repoName := toString (get_or_undefined (st_repo state) "name") in
    sha <- lookupSha owner repoName fullPath ;;
    ret (mkCommit owner repoName fullPath
           ("feat: implement " ++ toString title) codeContent sha).

(** The commit and its two notifications. *)
Definition commitFile (state : AgentState) (task : value)
           (request : commitRequest) : M unit :=
  try_catch
    (call (fun t => repos_createOrUpdateFileContents host t request) ;;;
     notify (CommitNotification (commit_message request)
               (commit_path request) (st_repo state)
               (get_or_undefined task "title")))
    (fun commitError =>
       notify (ErrorNotification commitError
                 ("GitHub commit failed for " ++ commit_path request)
                 (st_repo state)) ;;;
       throw (Error ("GitHub commit failed: " ++ message_of commitError))).

Definition commitsOf (request : commitRequest) : value :=
  VArr [VObj [("message", VStr (commit_message request));
              ("files",
               VArr [VObj [("path", VStr (commit_path request));
                           ("content", VStr (commit_content request))]])]].

(** What follows a successful commit: the progress entry, the update
    of the remaining tasks, the completion, the notification. *)
Definition recordCompletion (state : AgentState) (remaining task : value)
           (request : commitRequest) : M AgentState :=
  let title := get_or_undefined task "title" in
  t <- now ;;
  saveTaskProgressM title (VStr "completed")
    (VObj [("filePath", VStr (commit_path request));
           ("commitMessage", VStr (commit_message request));
           ("timestamp", VStr t)]) ;;;
  updated <- lift (filterOutTitle title remaining) ;;
  updateRemainingTasksM updated ;;;
  (if is0 (get_or_undefined updated "length")
   then markProjectCompletedM
   else ret tt) ;;;
  notify (TaskCompletionNotification title
            (get_or_undefined updated "length") (st_repo state)) ;;;
  ret (with_progress title (get_or_undefined updated "length")
         (with_commits (commitsOf request) state)).

Definition developTask (state : AgentState) : M AgentState :=
  projectSpec <- checkInputs state ;;
  remaining <- memory_read (getRemainingTasks host) ;;
  selected <- lift (selectTask remaining (st_plan state)) ;;
  match selected with
  | None =>
      t <- now ;;
      memory_write (saveProjectCompletion host t) ;;;
      ret (with_status (VStr "Project completed - no more tasks")
             (with_commits (VArr []) state))
  | Some task =>
      request <- prepareCommit state projectSpec task ;;
      commitFile state task request ;;;
      recordCompletion state remaining task request
  end.

(** The handler of [developNextTask]: "Save error to memory", and
    throw the error again. *)
Definition recordFailure {A} (error : error) : M A :=
  t <- now ;;
  saveTaskProgressM (VStr "ERROR") (VStr "failed")
    (VObj [("error", VStr (message_of error)); ("timestamp", VStr t)]) ;;;
  throw error.

(** [developNextTask(state)]: the body above inside the [try]. *)
Definition developNextTask (state : AgentState) : M AgentState :=
  try_catch (developTask state) recordFailure.

End Agents.

(* ================================================================== *)
(** * The setup agents and the orchestrator (workflow.js) *)
(* ================================================================== *)

(** [v?.toLowerCase()] *)
Definition lowerCaseOf (v : value) : outcome value :=
  match v with
  | VUndefined | VNull => Ok VUndefined
  | VStr s => Ok (VStr (string_of (Js.toLowerCase (chars_of s))))
  | _ => Throw (TypeError "toLowerCase is not a function")
  end.

(** [process.env.NAME || fallback] *)
Definition env_or (variable : option string) (fallback : string) : string :=
  match variable with
  | Some v => if String.eqb v "" then fallback else v
  | None => fallback
  end.

Section Setup.

Variable host : Host.

Definition fallbackSpec (state : AgentState) : value :=
  VObj [("title", or_else (st_projectName state) (VStr "Random Project"));
        ("type", VStr "Web App");
        ("complexity", st_complexity state);
        ("techStack",
         or_else (st_techConstraints state) (VArr [VStr "Node.js"]));
        ("features", VArr [VStr "Feature 1"; VStr "Feature 2"]);
        ("timeline", VStr "2 weeks");
        ("description",
         or_else (st_description state)
           (if truthy (st_projectName state)
            then VStr ("Fallback project for "
                       ++ toString (st_projectName state)
                       ++ " due to error")
            else VStr "Fallback project due to error"));
        ("targetAudience", VStr "Developers")].

Definition ideaPrompt (state : AgentState) : outcome prompt :=
  if truthy (st_projectName state) then
    Ok (IdeaPrompt (st_projectName state) (st_description state)
                   (st_complexity state) VUndefined)
  else
    match st_techConstraints state with
    | VUndefined | VNull =>
        Ok (IdeaPrompt (st_projectName state) (st_description state)
                       (st_complexity state) (VStr "No constraints"))
    | constraints =>
        match join constraints ", " with
        | Ok joined =>
            Ok (IdeaPrompt (st_projectName state) (st_description state)
                  (st_complexity state)
                  (or_else (VStr joined) (VStr "No constraints")))
        | Throw e => Throw e
        end
    end.

Definition generateIdea (state : AgentState) : M AgentState :=
  try_catch
    (lift (validateState state ["complexity"]) ;;;
     p <- lift (ideaPrompt state) ;;
     response <- call (fun t => model_invoke host t p) ;;
     let cleaned := cleanJson response in
     try_catch (lift (parse host cleaned))
               (fun _ => throw (Error "Invalid JSON response from model")) ;;;
     ret (with_projectSpec (VStr cleaned) state))
    (fun _ =>
       ret (with_projectSpec
              (VStr (JSON_stringify host (fallbackSpec state))) state)).

Definition fallbackPlan : value :=
  VObj [("tasks", VArr []); ("timeline", VStr "1 week");
        ("dependencies", VArr []); ("milestones", VArr []);
        ("riskFactors", VArr [])].

Definition planProject (state : AgentState) : M AgentState :=
  try_catch
    (lift (validateState state ["projectSpec"]) ;;;
     projectSpec <-
       try_catch (lift (parse host (toString (st_projectSpec state))))
                 (fun _ => throw (Error "Invalid projectSpec JSON")) ;;
     response <- call (fun t => model_invoke host t (PlanPrompt projectSpec)) ;;
     let cleaned := cleanJson response in
     try_catch
       (plan <- lift (parse host cleaned) ;;
        tasks <- lift (get plan "tasks") ;;
        if negb (truthy tasks) || negb (isArray tasks)
        then throw (Error "Invalid plan structure: missing tasks array")
        else ret tt)
       (fun _ => throw (Error "Invalid JSON response from model")) ;;;
     ret (with_plan (VStr cleaned) state))
    (fun _ =>
       ret (with_plan (VStr (JSON_stringify host fallbackPlan)) state)).

(** [generateAIReadme(projectSpec, repo)]: up to [attempts] tries. *)
Definition readmeAttempt (projectSpec : value) (repo : repository)
  : M string :=
  response <-
    call (fun t =>
            model_invoke host t
              (ReadmePrompt projectSpec (VStr (repo_name repo))
                            (VStr (repo_html_url repo)))) ;;
  let readmeContent := cleanReadme response in
  if (String.length readmeContent <? 100)%nat then
    throw (Error "Generated README content is too short")
  else if Js.starts_with ["#"%char] (chars_of readmeContent) then
    ret readmeContent
  else
    title <- lift (get projectSpec "title") ;;
    ret ("# " ++ toString title ++ string_of [Js.ch 10; Js.ch 10]
         ++ readmeContent)%string.

Fixpoint readmeAttempts (attempts : nat) (lastError : error)
         (projectSpec : value) (repo : repository) : M string :=
  match attempts with
  | O =>
      throw (Error ("Failed to generate README after 3 attempts: "
                    ++ message_of lastError))
  | S k =>
      try_catch (readmeAttempt projectSpec repo)
                (fun error => readmeAttempts k error projectSpec repo)
  end.

Definition generateAIReadme (projectSpec : value) (repo : repository)
  : M string :=
  readmeAttempts 3 (Error "") projectSpec repo.

(** "Enhanced repository name generation" on [projectSpec.title]. *)
Definition repoNameOf (title : value) : outcome string :=
  match title with
  | VStr t => Ok (repoName t)
  | VUndefined => Throw (TypeError "Cannot read properties of undefined")
  | VNull => Throw (TypeError "Cannot read properties of null")
  | _ => Throw (TypeError "toLowerCase is not a function")
  end.

Definition truncateDescription (d : string) : string :=
  if (350 <? String.length d)%nat
  then (string_of (Js.substring0 347 (chars_of d)) ++ "...")%string
  else d.

Definition repoDescriptionOf (projectSpec : value) : outcome string :=
  match get projectSpec "complexity", get projectSpec "type",
        get projectSpec "title", get projectSpec "description",
        get projectSpec "techStack"
  with
  | Ok complexity, Ok type, Ok title, Ok description, Ok techStack =>
      match lowerCaseOf complexity, lowerCaseOf type with
      | Ok c, Ok t =>
          let d0 := ("A " ++ toString (or_else c (VStr "intermediate"))
                     ++ " " ++ toString (or_else t (VStr "software"))
                     ++ " project: " ++ toString title ++ ".")%string in
          let d1 := if truthy description
                    then (d0 ++ " " ++ toString description)%string
                    else d0 in
          if truthy techStack && gt0 (get_or_undefined techStack "length")
          then
            match join techStack ", " with
            | Ok stack =>
                Ok (truncateDescription
                      (d1 ++ " Built with " ++ stack ++ ".")%string)
            | Throw e => Throw e
            end
          else Ok (truncateDescription d1)
      | Throw e, _ | _, Throw e => Throw e
      end
  | Throw e, _, _, _, _ | _, Throw e, _, _, _ | _, _, Throw e, _, _
  | _, _, _, Throw e, _ | _, _, _, _, Throw e => Throw e
  end.

Definition is404 (e : error) : bool :=
  match status_of e with
  | Some st => (st =? 404)%Z
  | None => false
  end.

(** "Check if repository already exists", else "Create new
    repository"; any other error is thrown again. *)
Definition ensureRepository (owner name description : string)
  : M repository :=
  try_catch
    (call (fun t => repos_get host t owner name))
    (fun error =>
       if is404 error
       then call (fun t =>
                    repos_createForAuthenticatedUser host t name description)
       else throw error).

Definition readmeSha (owner name : string) : M (option string) :=
  try_catch
    (sha <- call (fun t => repos_getContent host t owner name "README.md") ;;
     ret (Some sha))
    (fun err => if is404 err then ret None else throw err).

(** The body of the [try] of [manageRepository] after the checks of
    the token and of the specification. *)
Definition createRepository (state : AgentState) (projectSpec : value)
  : M AgentState :=
  title <- lift (get projectSpec "title") ;;
  name <- lift (repoNameOf title) ;;
  description <- lift (repoDescriptionOf projectSpec) ;;
  owner <- call (users_getAuthenticated host) ;;
  repo <- ensureRepository owner name description ;;
  readmeContent <- generateAIReadme projectSpec repo ;;
  sha <- readmeSha owner name ;;
  call (fun t =>
          repos_createOrUpdateFileContents host t
            (mkCommit owner name "README.md"
               (match sha with
                | Some _ => "Update README with project details"
                | None => "Initial commit: Add comprehensive README"
                end)
               readmeContent sha)) ;;;
  ret (with_repo (VObj [("name", VStr (repo_name repo));
                        ("url", VStr (repo_html_url repo))]) state).

Definition manageRepository (state : AgentState) : M AgentState :=
  try_catch
    (lift (validateState state ["projectSpec"]) ;;;
     if negb (GITHUB_TOKEN host) then ret (with_repo mockRepo state)
     else
       match parse host (toString (st_projectSpec state)) with
       | Throw _ => ret (with_repo mockRepo state)
       | Ok projectSpec => createRepository state projectSpec
       end)
    (fun _ => ret (with_repo mockRepo state)).

(** The request body of the setup endpoint. *)
Record SetupInput : Type := mkInput {
  in_projectName : value;
  in_description : value;
  in_complexity : value;
  in_techConstraints : value
}.

Definition initialState (input : SetupInput) : AgentState :=
  mkAgentState
    (match in_projectName input with
     | VUndefined => VNull
     | v => v
     end)
    (or_else (in_description input) VNull)
    (or_else (in_complexity input) (VStr "beginner"))
    (or_else (in_techConstraints input) (VArr [VStr "Node.js"]))
    VNull VNull VNull VNull VNull VNull VUndefined.

(** [compiledInitialGraph.invoke]: the three nodes in sequence. *)
Definition initialGraph (st : AgentState) : M AgentState :=
  st1 <- generateIdea st ;;
  st2 <- planProject st1 ;;
  manageRepository st2.

Definition runInitialCycle (input : SetupInput) : M AgentState :=
  result <- initialGraph (initialState input) ;;
  (if truthy (st_plan result) then
     try_catch
       (plan <- lift (parse host (toString (st_plan result))) ;;
        t <- now host ;;
        memory_run (saveProjectPlan host t plan (st_projectSpec result)))
       (fun _ => ret tt)
   else ret tt) ;;;
  (if truthy (st_repo result) then
     t <- now host ;;
     memory_write (saveRepositoryInfo host t (st_repo result))
   else ret tt) ;;;
  notify (ProjectStartNotification
            (or_else (in_projectName input) (VStr "AI Generated Project"))
            (or_else (in_complexity input) (VStr "beginner"))
            (or_else (in_techConstraints input) (VArr [VStr "Node.js"]))
            (st_repo result)) ;;;
  t <- now host ;;
  memory_write (saveInitializationStatus host t (VStr "done")) ;;;
  ret result.

Definition statusOnly (status : string) : AgentState :=
  mkAgentState VUndefined VUndefined VUndefined VUndefined VUndefined
    VUndefined VUndefined VUndefined VUndefined VUndefined (VStr status).

(** "If no remaining tasks, try to get the original plan from memory":
    the first entry of the log with a non-empty array of tasks. *)
Definition findOriginalPlan (m : MemoryService) : option value :=
  match scan (originalPlanStep host) (loadMemoryVariables m) with
  | Return tasks => Some tasks
  | _ => None
  end.

Definition generatedRepo (projectSpec : value) : outcome value :=
  let projectName :=
    or_else (get_or_undefined projectSpec "name") (VStr "new-project") in
  match lowerCaseOf projectName with
  | Ok (VStr lowered) =>
      let name :=
        string_of
          (map (fun c => if Js.is_lower c || Js.is_digit c
                         then c else "-"%char)
               (chars_of lowered)) in
      Ok (VObj [("name", VStr (env_or (GITHUB_REPO_NAME host) name));
                ("url",
                 VStr (env_or (GITHUB_REPO_URL host)
                         ("https://github.com/yourusername/" ++ name)))])
  | Ok _ => Throw (TypeError "toLowerCase is not a function")
  | Throw e => Throw e
  end.

(** The body of [runDailyCycle]; [again] is the call of the method
    to itself, made after the tasks of the original plan were
    restored. *)
Definition dailyCycle (again : M AgentState) : M AgentState :=
  initialized <- memory_read (isProjectInitialized) ;;
  if negb initialized then ret (statusOnly "Project not initialized") else
  completed <- memory_read (isProjectCompleted) ;;
  if completed then ret (statusOnly "Project completed") else
  projectSpec <- memory_read (getProjectSpec host) ;;
  remaining <- memory_read (getRemainingTasks host) ;;
  if negb (truthy projectSpec)
  then ret (statusOnly "No project spec available") else
  if negb (truthy remaining) || is0 (get_or_undefined remaining "length")
  then
    original <- memory_read findOriginalPlan ;;
    match original with
    | Some tasks =>
        updateRemainingTasksM host tasks ;;;
        again
    | None =>
        markProjectCompletedM host ;;;
        ret (statusOnly "Project completed")
    end
  else
    found <- memory_read (getRepositoryInfo host) ;;
    repo <- (if truthy found then ret found
             else
               generated <- lift (generatedRepo projectSpec) ;;
               t <- now host ;;
               memory_write (saveRepositoryInfo host t generated) ;;;
               ret generated) ;;
    developNextTask host
      (mkAgentState VUndefined VUndefined VUndefined VUndefined
         projectSpec (VObj [("tasks", remaining)]) repo
         VUndefined VUndefined VUndefined VUndefined).

(** [runDailyCycle] with a bound on the calls to itself. *)
Fixpoint runDailyCycleFrom (depth : nat) : M AgentState :=
  match depth with
  | S d => dailyCycle (runDailyCycleFrom d)
  | O => dailyCycle (throw (Error "Maximum call stack size exceeded"))
  end.

Definition runDailyCycle : M AgentState := runDailyCycleFrom 1.

End Setup.

(* ================================================================== *)
(** * config/commitSchedule.js and cronScheduler.js *)
(* ================================================================== *)

Section Scheduler.

Variable host : Host.

(** The orchestrator handed to the scheduler's constructor. *)
Variable orchestrator_runDailyCycle : M AgentState.

Definition developmentSchedule : value :=
  VObj [("mode", VStr "development"); ("interval", VStr "1m");
        ("cronExpression", VStr "*/1 * * * *");
        ("description", VStr "Commit every 1 minutes for development")].

Definition productionSchedule : value :=
  VObj [("mode", VStr "production"); ("interval", VStr "daily");
        ("cronExpression", VStr (productionCron host));
        ("description",
         VStr "Commit daily at random time between 9:00 AM and 9:00 PM")].

Definition commitScheduleConfig : list (string * value) :=
  [("development", developmentSchedule);
   ("production", productionSchedule)].

(** Names every object answers through its prototype; the value found
    there is truthy and has no [cronExpression]. *)
Definition inheritedNames : list string :=
  ["constructor"; "hasOwnProperty"; "isPrototypeOf";
   "propertyIsEnumerable"; "toLocaleString"; "toString"; "valueOf";
   "__proto__"; "__defineGetter__"; "__defineSetter__";
   "__lookupGetter__"; "__lookupSetter__"].

Definition getCurrentSchedule : value :=
  let mode := env_or (COMMIT_MODE host) "development" in
  let normalizedMode :=
    if String.eqb mode "test" then "development" else mode in
  match lookup normalizedMode commitScheduleConfig with
  | Some schedule => schedule
  | None =>
      if existsb (String.eqb normalizedMode) inheritedNames
      then VObj []
      else developmentSchedule
  end.

Definition validateSchedule (schedule : value) : outcome unit :=
  if negb (truthy (get_or_undefined schedule "cronExpression"))
  then Throw (Error "Invalid schedule: missing cronExpression")
  else Ok tt.

(** [cron.schedule(expression, callback, { scheduled: false })]: the
    library rejects an expression it cannot read. *)
Definition cron_schedule (expression : string) : outcome Job :=
  if cron_validate host expression then Ok (mkJob expression false)
  else Throw (Error "Invalid cron expression").

Fixpoint set_job (name : string) (job : Job) (js : list (string * Job))
  : list (string * Job) :=
  match js with
  | [] => [(name, job)]
  | (n, j) :: rest =>
      if String.eqb n name then (n, job) :: rest
      else (n, j) :: set_job name job rest
  end.

(** [this.jobs.get(name)] *)
Fixpoint get_job (name : string) (js : list (string * Job)) : option Job :=
  match js with
  | [] => None
  | (n, j) :: rest => if String.eqb n name then Some j else get_job name rest
  end.

Definition scheduler_read {A} (f : CronScheduler -> A) : M A :=
  fun s => (Ok (f (cronScheduler s)), s).

Definition scheduler_write (f : CronScheduler -> CronScheduler) : M unit :=
  fun s => (Ok tt, set_scheduler (f (cronScheduler s)) s).

(** [stop()] *)
Definition stop : M unit :=
  scheduler_write (fun _ => mkScheduler [] false).

(** [start()] *)
Definition start : M unit :=
  running <- scheduler_read isRunning ;;
  if running then ret tt
  else
    let schedule := getCurrentSchedule in
    lift (validateSchedule schedule) ;;;
    job <- lift (cron_schedule
                   (toString (get_or_undefined schedule "cronExpression"))) ;;
    scheduler_write
      (fun c => mkScheduler (set_job "dailyDevelopment" job (jobs c))
                            (isRunning c)) ;;;
    scheduler_write
      (fun c => mkScheduler
                  (set_job "dailyDevelopment"
                     (mkJob (cronExpression job) true) (jobs c))
                  true).

Definition isStatus (status : string) (result : AgentState) : bool :=
  is_str status (st_status result).

(** The callback of the scheduled job. *)
Definition scheduledCycle : M unit :=
  try_catch
    (completed <- memory_read isProjectCompleted ;;
     if completed then stop
     else
       remaining <- memory_read (getRemainingTasks host) ;;
       proceed <-
         (if negb (truthy remaining)
             || is0 (get_or_undefined remaining "length")
          then
            t <- now host ;;
            memory_run (fun m => let (b, m') := continueDevelopment host t m
                                 in (Ok b, m'))
          else ret true) ;;
       if negb proceed then stop
       else
         result <- orchestrator_runDailyCycle ;;
         if isStatus "Project completed" result then stop else ret tt)
    (fun error =>
       t <- now host ;;
       saveTaskProgressM host (VStr "CRON_ERROR") (VStr "failed")
         (VObj [("error", VStr (message_of error));
                ("timestamp", VStr t)])).

(** [getStatus()]: the flag and the names of the jobs. *)
Definition getStatus (c : CronScheduler) : bool * list string :=
  (isRunning c, map fst (jobs c)).

(** [triggerManualCycle()] *)
Definition triggerManualCycle : M AgentState :=
  running <- scheduler_read isRunning ;;
  (if negb running then start else ret tt) ;;;
  completed <- memory_read isProjectCompleted ;;
  if completed then ret (statusOnly "Project completed")
  else orchestrator_runDailyCycle.

(** [restart()] *)
Definition restart : M unit := stop ;;; start.

End Scheduler.

(* ================================================================== *)
(** * controllers/gitAgentController.js and routes/gitAgentRoutes.js *)
(* ================================================================== *)

(** What a handler answers: [res.status(code).json(body)]; a bare
    [res.json(body)] answers with the code 200. *)
Record Response : Type := mkResponse {
  res_status : Z;
  res_body : value
}.

(** The fields of a result the controller copies into its answer.
    [unused] is the value of the three fields no agent writes
    ([qualityReport], [documentation], [learningMetrics]): [null] in
    the state of the setup graph, [undefined] in the result of a
    development cycle. *)
Definition resultData (unused : value) (result : AgentState) : value :=
  VObj [("projectSpec", st_projectSpec result);
        ("plan", st_plan result);
        ("repo", st_repo result);
        ("commits", st_commits result);
        ("qualityReport", unused);
        ("documentation", unused);
        ("learningMetrics", unused);
        ("currentTask", st_currentTask result);
        ("remainingTasks", st_remainingTasks result);
        ("status", st_status result)].

(** A result as [res.json] receives it whole. *)
Definition resultObject (result : AgentState) : value :=
  VObj [("projectName", st_projectName result);
        ("description", st_description result);
        ("complexity", st_complexity result);
        ("techConstraints", st_techConstraints result);
        ("projectSpec", st_projectSpec result);
        ("plan", st_plan result);
        ("repo", st_repo result);
        ("commits", st_commits result);
        ("currentTask", st_currentTask result);
        ("remainingTasks", st_remainingTasks result);
        ("status", st_status result)].

Section Controller.

Variable host : Host.

(** [try { await cronScheduler.start() } catch (error) { log }] *)
Definition startQuietly : M unit :=
  try_catch (start host) (fun _ => ret tt).

Definition alreadyCompleted : Response :=
  mkResponse 200
    (VObj [("success", VBool true);
           ("data", VObj [("status", VStr "Project completed")]);
           ("message", VStr "Project is already completed")]).

Definition executed (isInitialized : bool) (unused : value)
           (result : AgentState) : Response :=
  mkResponse 200
    (VObj [("success", VBool true);
           ("data", resultData unused result);
           ("message",
            VStr (if isInitialized
                  then "Development cycle executed successfully"
                  else "Initial project setup completed successfully"))]).

Definition failedWorkflow (error : error) : Response :=
  mkResponse 500
    (VObj [("success", VBool false);
           ("message", VStr "Failed to execute git agent workflow");
           ("error", VStr (message_of error))]).

(** [gitAgent(req, res)]; [parsed] is [inputSchema.parse(req.body)],
    the input or the error of the validation. *)
Definition gitAgent (parsed : outcome SetupInput) : M Response :=
  try_catch
    (input <- lift parsed ;;
     isInitialized <- memory_read isProjectInitialized ;;
     isCompleted <- memory_read isProjectCompleted ;;
     (if isInitialized && negb isCompleted then
        t <- now host ;;
        memory_write (clearMemory host t) ;;;
        t' <- now host ;;
        memory_write (clearRepositoryInfo host t')
      else ret tt) ;;;
     if isCompleted then ret alreadyCompleted
     else if negb isInitialized then
       result <- runInitialCycle host input ;;
       (if truthy (st_projectSpec result) && truthy (st_plan result)
           && truthy (st_repo result)
        then startQuietly else ret tt) ;;;
       ret (executed isInitialized VNull result)
     else
       running <- scheduler_read isRunning ;;
       (if negb running then startQuietly else ret tt) ;;;
       result <- runDailyCycle host ;;
       ret (executed isInitialized VUndefined result))
    (fun error => ret (failedWorkflow error)).

(** The answer of a route to an error: the code 500 and its message. *)
Definition failed (error : error) : Response :=
  mkResponse 500
    (VObj [("success", VBool false); ("error", VStr (message_of error))]).

(** [GET /run-daily]; [secret] is [process.env.CRON_TRIGGER_SECRET]
    and [key] is [req.query.key]. *)
Definition runDaily (secret : option string) (key : value) : M Response :=
  try_catch
    (if match secret with
        | Some sec => negb (String.eqb sec "") && negb (strict_eq key (VStr sec))
        | None => false
        end
     then
       ret (mkResponse 401
              (VObj [("success", VBool false);
                     ("error", VStr "Invalid or missing key")]))
     else
       result <- triggerManualCycle host (runDailyCycle host) ;;
       ret (mkResponse 200
              (VObj [("success", VBool true);
                     ("data", resultObject result);
                     ("message", VStr "Daily cycle completed")])))
    (fun error => ret (failed error)).

End Controller.

(* ================================================================== *)
(** * controllers/codeUpdateController.js *)
(* ================================================================== *)

(** [data] of an answer of [repos.getContent]: its type, its sha and
    its content (as decoded from base64) where it has one. *)
Record contentData : Type := mkContent {
  data_type : value;
  data_sha : option string;
  data_content : option string
}.

(** [Buffer.from(content, 'base64').toString('utf-8')] *)
Definition decodeContent (content : option string) : outcome string :=
  match content with
  | Some text => Ok text
  | None =>
      Throw (TypeError
               ("The first argument must be of type string or an instance of "
                ++ "Buffer, ArrayBuffer, or Array or an Array-like Object. "
                ++ "Received undefined"))
  end.

(** A request to [repos.deleteFile]. *)
Record deleteRequest : Type := mkDelete {
  delete_owner : string;
  delete_repo : string;
  delete_path : string;
  delete_message : string;
  delete_sha : option string;
  delete_branch : string
}.

(** The requests of this controller that name a branch, and its
    prompt (the current code, when there is some, and the change
    asked for).  The first argument is the instant of the call. *)
Record UpdateHost : Type := mkUpdateHost {
  getContentAt :
    nat -> string -> string -> string -> string -> outcome contentData;
  invokeUpdate : nat -> option string -> string -> outcome string;
  commitTo : nat -> string -> commitRequest -> outcome unit;
  deleteFile : nat -> deleteRequest -> outcome unit
}.

(** [updateSchema.parse(req.body)] and [deleteSchema.parse(req.body)]:
    the branch has its default, the commit message is optional. *)
Record UpdateInput : Type := mkUpdate {
  up_repoName : string;
  up_filePath : string;
  up_change : string;
  up_branch : string;
  up_commitMessage : option string
}.

Record DeleteInput : Type := mkDeleteInput {
  del_repoName : string;
  del_filePath : string;
  del_branch : string;
  del_commitMessage : option string
}.

(** A handler that answers from inside a [try] and returns, or goes
    on with a value. *)
Inductive early (A : Type) : Type :=
| Answer (response : Response)
| Go (a : A).
Arguments Answer {A} response.
Arguments Go {A} a.

Definition is_letter (c : ascii) : bool := Js.is_lower c || Js.is_upper c.

Fixpoint letters_length (s : Js.chars) : nat :=
  match s with
  | c :: t => if is_letter c then S (letters_length t) else 0
  | [] => 0
  end.

(** Removal of the fences followed by any run of letters and by white
    space: three backquotes, the optional group of letters of the
    class a to z with the [i] flag, the white space. *)
Fixpoint strip_named_fences (skip : nat) (s : Js.chars) : Js.chars :=
  match s with
  | [] => []
  | c :: t =>
      match skip with
      | S k => strip_named_fences k t
      | O =>
          if Js.starts_with fence s
          then
            let after := skipn 2 t in
            let n := letters_length after in
            strip_named_fences (2 + n + space_length (skipn n after)) t
          else c :: strip_named_fences 0 t
      end
  end.

(** The cleaning of the code of [updateCode]. *)
Definition cleanUpdate (text : string) : string :=
  string_of
    (Js.trim
       (Js.replace_lit fence [] 0 (strip_named_fences 0 (chars_of text)))).

(** [text || undefined], as an optional string. *)
Definition nonEmpty (text : option string) : option string :=
  match text with
  | Some t => if String.eqb t "" then None else Some t
  | None => None
  end.

Section CodeUpdate.

Variable host : Host.
Variable updates : UpdateHost.

Definition tokenMissing : Response :=
  mkResponse 400
    (VObj [("success", VBool false);
           ("message",
            VStr "GITHUB_TOKEN not found in environment variables")]).

Definition repositoryMissing (repoName : string) : Response :=
  mkResponse 404
    (VObj [("success", VBool false);
           ("message", VStr ("Repository '" ++ repoName ++ "' not found"))]).

(** "Check if repository exists": whether the lookup answered 404. *)
Definition repositoryIsMissing (owner repoName : string) : M bool :=
  try_catch
    (call (fun t => repos_get host t owner repoName) ;;; ret false)
    (fun error => if is404 error then ret true else throw error).

(** "Check if file exists to get its current content and SHA". *)
Definition lookupFile (owner : string) (input : UpdateInput)
  : M (early (option string * option string)) :=
  try_catch
    (data <- call (fun t => getContentAt updates t owner (up_repoName input)
                              (up_filePath input) (up_branch input)) ;;
     if is_str "file" (data_type data)
     then
       currentContent <- lift (decodeContent (data_content data)) ;;
       ret (Go (Some currentContent, data_sha data))
     else
       ret (Answer
              (mkResponse 400
                 (VObj [("success", VBool false);
                        ("message",
                         VStr ("Path '" ++ up_filePath input
                               ++ "' is not a file"))]))))
    (fun error => if is404 error then ret (Go (None, None)) else throw error).

(** What the lookup of [updateCode] found at an instant: a file with
    its content and its sha, or nothing at all. *)
Definition fileFound (owner : string) (input : UpdateInput) (t : nat)
           (current sha : option string) : Prop :=
  (exists data content,
      getContentAt updates t owner (up_repoName input) (up_filePath input)
        (up_branch input) = Ok data
      /\ is_str "file" (data_type data) = true
      /\ data_content data = Some content
      /\ current = nonEmpty (Some content)
      /\ sha = data_sha data)
  \/ (exists e,
         getContentAt updates t owner (up_repoName input) (up_filePath input)
           (up_branch input) = Throw e
         /\ is404 e = true /\ current = None /\ sha = None).

Definition updateMessage (input : UpdateInput) (current : option string)
  : string :=
  match nonEmpty (up_commitMessage input) with
  | Some message => message
  | None =>
      (match current with Some _ => "Update" | None => "Create" end)
      ++ " " ++ up_filePath input ++ ": " ++ up_change input
  end.

Definition updated (input : UpdateInput) (commitMessage newCodeContent : string)
           (current : option string) : Response :=
  mkResponse 200
    (VObj [("success", VBool true);
           ("message", VStr "Code updated successfully");
           ("data",
            VObj [("repository", VStr (up_repoName input));
                  ("filePath", VStr (up_filePath input));
                  ("branch", VStr (up_branch input));
                  ("commitMessage", VStr commitMessage);
                  ("contentLength",
                   VNum (Z.of_nat (String.length newCodeContent)));
                  ("action",
                   VStr match current with
                        | Some _ => "updated"
                        | None => "created"
                        end)])]).

(** [updateCode(req, res)] *)
Definition updateCode (parsed : outcome UpdateInput) : M Response :=
  try_catch
    (input <- lift parsed ;;
     if negb (GITHUB_TOKEN host) then ret tokenMissing
     else
       owner <- call (users_getAuthenticated host) ;;
       missing <- repositoryIsMissing owner (up_repoName input) ;;
       if missing then ret (repositoryMissing (up_repoName input))
       else
         looked <- lookupFile owner input ;;
         match looked with
         | Answer response => ret response
         | Go (currentContent, sha) =>
             let current := nonEmpty currentContent in
             response <-
               call (fun t => invokeUpdate updates t current
                                (up_change input)) ;;
             let newCodeContent := cleanUpdate response in
             if (String.length newCodeContent <? 5)%nat then
               throw (Error "Generated code content is too short or invalid")
             else
               let commitMessage := updateMessage input current in
               call (fun t =>
                       commitTo updates t (up_branch input)
                         (mkCommit owner (up_repoName input)
                            (up_filePath input) commitMessage
                            newCodeContent sha)) ;;;
               ret (updated input commitMessage newCodeContent current)
         end)
    (fun error =>
       ret (mkResponse 500
              (VObj [("success", VBool false);
                     ("message", VStr "Failed to update code");
                     ("error", VStr (message_of error))]))).

(** "Check if path exists and get its details". *)
Definition lookupPath (owner : string) (input : DeleteInput)
  : M (early (bool * option string)) :=
  try_catch
    (data <- call (fun t => getContentAt updates t owner (del_repoName input)
                              (del_filePath input) (del_branch input)) ;;
     if is_str "dir" (data_type data) then ret (Go (true, data_sha data))
     else if is_str "file" (data_type data)
     then ret (Go (false, data_sha data))
     else
       ret (Answer
              (mkResponse 400
                 (VObj [("success", VBool false);
                        ("message",
                         VStr ("Path '" ++ del_filePath input
                               ++ "' is not a file or directory"))]))))
    (fun error =>
       if is404 error
       then
         ret (Answer
                (mkResponse 404
                   (VObj [("success", VBool false);
                          ("message",
                           VStr ("Path '" ++ del_filePath input
                                 ++ "' not found in repository"))])))
       else throw error).

Definition deleteMessage (input : DeleteInput) (isDirectory : bool)
  : string :=
  match nonEmpty (del_commitMessage input) with
  | Some message => message
  | None =>
      "Delete " ++ (if isDirectory then "directory" else "file")
      ++ ": " ++ del_filePath input
  end.

Definition deleted (input : DeleteInput) (commitMessage : string)
           (isDirectory : bool) : Response :=
  mkResponse 200
    (VObj [("success", VBool true);
           ("message", VStr "File or directory deleted successfully");
           ("data",
            VObj [("repository", VStr (del_repoName input));
                  ("path", VStr (del_filePath input));
                  ("branch", VStr (del_branch input));
                  ("commitMessage", VStr commitMessage);
                  ("type",
                   VStr (if isDirectory then "directory" else "file"));
                  ("action", VStr "deleted")])]).

Definition conflict : Response :=
  mkResponse 409
    (VObj [("success", VBool false);
           ("message",
            VStr "File has been modified since last check. Please try again.");
           ("error", VStr "Conflict: File modified")]).

Definition is409 (e : error) : bool :=
  match status_of e with
  | Some st => (st =? 409)%Z
  | None => false
  end.

(** [deleteFileOrFolder(req, res)] *)
Definition deleteFileOrFolder (parsed : outcome DeleteInput) : M Response :=
  try_catch
    (input <- lift parsed ;;
     if negb (GITHUB_TOKEN host) then ret tokenMissing
     else
       owner <- call (users_getAuthenticated host) ;;
       missing <- repositoryIsMissing owner (del_repoName input) ;;
       if missing then ret (repositoryMissing (del_repoName input))
       else
         looked <- lookupPath owner input ;;
         match looked with
         | Answer response => ret response
         | Go (isDirectory, sha) =>
             let commitMessage := deleteMessage input isDirectory in
             try_catch
               (call (fun t =>
                        deleteFile updates t
                          (mkDelete owner (del_repoName input)
                             (del_filePath input) commitMessage sha
                             (del_branch input))) ;;;
                ret (deleted input commitMessage isDirectory))
               (fun deleteError =>
                  if is409 deleteError then ret conflict
                  else throw deleteError)
         end)
    (fun error =>
       ret (mkResponse 500
              (VObj [("success", VBool false);
                     ("message", VStr "Failed to delete file or directory");
                     ("error", VStr (message_of error))]))).

End CodeUpdate.

(* ================================================================== *)
(** * The repository manager *)
(* ================================================================== *)

(** What the manager reads of a repository of the hosting service. *)
Record repositoryData : Type := mkRepositoryData {
  html_url : value;
  default_branch : value
}.

(** The environment and the client of the manager: the token as the
    environment has it, and the three requests. *)
Record ManagerHost : Type := mkManagerHost {
  manager_token : option string;
  manager_user : nat -> outcome string;
  manager_get : nat -> string -> string -> outcome repositoryData;
  manager_create : nat -> string -> string -> outcome repositoryData
}.

Section RepositoryManager.

Variable manager : ManagerHost.

(** [process.env.GITHUB_TOKEN?.trim()] *)
Definition token : option string :=
  match manager_token manager with
  | Some text => Some (string_of (Js.trim (chars_of text)))
  | None => None
  end.

(** [checkExistingRepo(owner, repoName)] *)
Definition checkExistingRepo (owner repoName : string)
  : M (option repositoryData) :=
  try_catch
    (repo <- call (fun t => manager_get manager t owner repoName) ;;
     ret (Some repo))
    (fun error => if is404 error then ret None else throw error).

(** [createNewRepo(repoName)] *)
Definition createNewRepo (repoName : string) : M repositoryData :=
  call (fun t =>
          manager_create manager t repoName
            ("Auto-generated repository: " ++ repoName)).

(** [repositoryManagerAgent(repoName)] *)
Definition repositoryManagerAgent (repoName : string) : M value :=
  match nonEmpty token with
  | None => throw (Error "GitHub token is not configured")
  | Some _ =>
      try_catch
        (login <- call (manager_user manager) ;;
         existingRepo <- checkExistingRepo login repoName ;;
         match existingRepo with
         | Some repo =>
             ret (VObj [("repositoryUrl", html_url repo);
                        ("status", VStr "Repository already exists");
                        ("branch", default_branch repo)])
         | None =>
             newRepo <- createNewRepo repoName ;;
             ret (VObj [("repositoryUrl", html_url newRepo);
                        ("status", VStr "Initialized");
                        ("initialCommit", VStr "Initial project setup");
                        ("branch", default_branch newRepo)])
         end)
        (fun error =>
           throw (Error ("Failed to handle GitHub repository: "
                         ++ message_of error)))
  end.

End RepositoryManager.

(* ================================================================== *)
(** * Concrete hosts and logs *)
(* ================================================================== *)

(** Hosts on which the code can be run: the JSON reader and writer
    above, a fixed clock, and services that always give the same
    answer. *)
Module Demo.

Definition clock (t : nat) : string := "2025-01-01T00:00:00.000Z".

Definition code : string := "export const answer = () => 42;".

Definition notFound {A} : outcome A := Throw (HttpError 404 "Not Found").

(** Every service answers; no file exists yet. *)
Definition host : Host :=
  mkHost Json.parse Json.stringify clock true None None None
    "30 12 * * *" (fun _ => true)
    (fun _ _ => Ok code)
    (fun _ => Ok "octocat")
    (fun _ owner name =>
       Ok (mkRepository name ("https://github.com/" ++ owner ++ "/" ++ name)))
    (fun _ name _ =>
       Ok (mkRepository name ("https://github.com/octocat/" ++ name)))
    (fun _ _ _ _ => notFound)
    (fun _ _ => Ok tt).

(** As [host], and the hosting service rejects every commit with a
    conflict. *)
Definition conflictHost : Host :=
  mkHost Json.parse Json.stringify clock true None None None
    "30 12 * * *" (fun _ => true)
    (fun _ _ => Ok code)
    (fun _ => Ok "octocat")
    (repos_get host)
    (repos_createForAuthenticatedUser host)
    (fun _ _ _ _ => notFound)
    (fun _ _ => Throw (HttpError 409 "Conflict")).

(** As [host], and the lookup of a repository fails with a server
    error. *)
Definition brokenLookupHost : Host :=
  mkHost Json.parse Json.stringify clock true None None None
    "30 12 * * *" (fun _ => true)
    (fun _ _ => Ok code)
    (fun _ => Ok "octocat")
    (fun _ _ _ => Throw (HttpError 500 "Internal Server Error"))
    (repos_createForAuthenticatedUser host)
    (fun _ _ _ _ => notFound)
    (fun _ _ => Ok tt).

Definition task (title filePath : string) : value :=
  VObj [("title", VStr title); ("description", VStr "");
        ("filePath", VStr filePath)].

Definition setup : value := task "Project setup" "package.json".
Definition server : value := task "Server" "src/server.js".
Definition routes : value := task "Routes" "src/routes.js".

Definition specText (title : string) : string :=
  Json.stringify
    (VObj [("title", VStr title); ("type", VStr "Web App");
           ("complexity", VStr "beginner");
           ("techStack", VArr [VStr "Node.js"])]).

Definition plan (tasks : list value) : value := VObj [("tasks", VArr tasks)].

(** A service whose local state was lost while the log was kept. *)
Definition forget (m : MemoryService) : MemoryService :=
  mkMemory (past_steps m) emptyProjectState.

(** The log after the plan of the project "A" and then the plan of
    the project "B" were saved. *)
Definition twoPlans : MemoryService :=
  let m1 := snd (saveProjectPlan host (clock 0) (plan [setup; server])
                   (VStr (specText "A")) newMemoryService) in
  snd (saveProjectPlan host (clock 1) (plan [routes])
         (VStr (specText "B")) m1).

(** The log after the repository "first" and then the repository
    "second" were saved. *)
Definition repo (name : string) : value :=
  VObj [("name", VStr name);
        ("url", VStr ("https://github.com/octocat/" ++ name))].

Definition twoRepositories : MemoryService :=
  saveRepositoryInfo host (clock 1) (repo "second")
    (saveRepositoryInfo host (clock 0) (repo "first") newMemoryService).

(** The log of a single update of the remaining tasks. *)
Definition oneUpdate (tasks : list value) : MemoryService :=
  snd (updateRemainingTasks host (clock 0) (VArr tasks) newMemoryService).

(** The [n]-th message of the log of a service. *)
Definition entry (n : nat) (m : MemoryService) : message :=
  nth n (past_steps m) (mkMessage Human "").

(** A service with the given log whose local state has no task list
    and no specification. *)
Definition unset (m : MemoryService) : MemoryService :=
  mkMemory (past_steps m)
           (mkProjectState false false VNull VNull VNull).

(** An entry cut short while it was written, and a complete one. *)
Definition truncatedSpec : message :=
  mkMessage AI (Json.text "{'projectSpec':'half', 'remaining")%string.

Definition completeSpec : message :=
  mkMessage AI (Json.text "{'projectSpec':'whole'}").

Definition garbage : message := mkMessage AI "projectSpec: <<<".

Definition state (tasks : list value) : AgentState :=
  mkAgentState VUndefined VUndefined VUndefined VUndefined
    (VStr (specText "A")) (plan tasks) (repo "a")
    VUndefined VUndefined VUndefined VUndefined.

(** The state the repository step receives for the project "A". *)
Definition planned : AgentState :=
  mkAgentState VNull VNull (VStr "beginner") (VArr [VStr "Node.js"])
    (VStr (specText "A")) (VStr (Json.stringify (plan [setup])))
    VNull VNull VNull VNull VUndefined.

(** A process whose service holds the given queue. *)
Definition sys (tasks : list value) : Sys :=
  mkSys (mkMemory [] (mkProjectState true false (VArr tasks)
                        (VStr (specText "A")) VNull))
        (mkScheduler [] false) [] 0.

End Demo.

(** A host whose model answers each prompt with a text of the kind
    asked for: a specification, a plan of one task, a README, code. *)
Module Sample.

Definition readme : string :=
  "# A. A small web application that answers every request with the number forty-two, written for Node.js.".

Definition answer (p : prompt) : outcome string :=
  match p with
  | IdeaPrompt _ _ _ _ => Ok (Demo.specText "A")
  | PlanPrompt _ => Ok (Json.stringify (Demo.plan [Demo.setup]))
  | ReadmePrompt _ _ _ => Ok readme
  | DevelopmentPrompt _ _ _ _ _ _ _ | RetryPrompt _ _ _ => Ok Demo.code
  end.

Definition host : Host :=
  mkHost Json.parse Json.stringify Demo.clock true None None None
    "30 12 * * *" (fun _ => true)
    (fun _ => answer)
    (fun _ => Ok "octocat")
    (repos_get Demo.host)
    (repos_createForAuthenticatedUser Demo.host)
    (fun _ _ _ _ => Demo.notFound)
    (fun _ _ => Ok tt).

(** As [host], without a token for the hosting service. *)
Definition tokenless : Host :=
  mkHost Json.parse Json.stringify Demo.clock false None None None
    "30 12 * * *" (fun _ => true)
    (fun _ => answer)
    (fun _ => Ok "octocat")
    (repos_get Demo.host)
    (repos_createForAuthenticatedUser Demo.host)
    (fun _ _ _ _ => Demo.notFound)
    (fun _ _ => Ok tt).

(** The request body of a first run. *)
Definition input : SetupInput :=
  mkInput (VStr "A") VUndefined (VStr "beginner") (VArr [VStr "Node.js"]).

(** A process that has just started. *)
Definition fresh : Sys :=
  mkSys newMemoryService (mkScheduler [] false) [] 0.

(** A hosting service that holds one empty file and accepts every
    request, and a model that answers with fenced code. *)
Definition updates : UpdateHost :=
  mkUpdateHost
    (fun _ _ _ path _ =>
       if String.eqb path "index.js"
       then Ok (mkContent (VStr "file") (Some "abc123") (Some EmptyString))
       else Throw (HttpError 404 "Not Found"))
    (fun _ _ _ =>
       Ok (string_of (fence ++ chars_of "js console.log(42);" ++ fence)))
    (fun _ _ _ => Ok tt)
    (fun _ _ => Ok tt).

End Sample.

(** An entry of the log that is well formed for a key: it holds the
    key, it parses, and the value under the key is truthy. *)
Definition wellFormedEntry (host : Host) (key stepContent : string)
           (payload : value) : Prop :=
  includes key stepContent = true
  /\ exists parsed,
       JSON_parse host stepContent = Some parsed
       /\ get parsed key = Ok payload
       /\ truthy payload = true.

(** A well-formed entry for a repository: its payload also carries a
    name and a url. *)
Definition wellFormedRepository (host : Host) (stepContent : string)
           (repo : value) : Prop :=
  wellFormedEntry host "repo" stepContent repo
  /\ includes "name" stepContent = true
  /\ truthy (get_or_undefined repo "name") = true
  /\ truthy (get_or_undefined repo "url") = true.

(** The local state holds no usable list of tasks: the guard of
    [getRemainingTasks] fails. *)
Definition tasksUnset (p : ProjectState) : Prop :=
  truthy (remainingTasks p)
  && ge0 (get_or_undefined (remainingTasks p) "length") = false.

(** [total m]: the action returns normally from every state. *)
Definition total {A} (m : M A) : Prop :=
  forall s, exists a s', m s = (Ok a, s').

(** [keeps_memory m]: whatever the outcome, the memory service is as it
    was. *)
Definition keeps_memory {A} (m : M A) : Prop :=
  forall s o s', m s = (o, s') -> memoryService s' = memoryService s.

(** The entry [developNextTask] writes to the log for an error: the
    two messages of [saveTaskProgress("ERROR", "failed", ...)]. *)
Definition failureEntry (host : Host) (t1 t2 : string) (e : error)
  : list message :=
  [mkMessage Human (format host (VObj [("task", VStr "ERROR")]));
   mkMessage AI
     (format host
        (VObj [("status", VStr "failed");
               ("details", VObj [("error", VStr (message_of e));
                                 ("timestamp", VStr t1)]);
               ("timestamp", VStr t2)]))].

(** The queue without the tasks of the given title, in its order. *)
Definition withoutTasksTitled (title : string) (tasks : list value)
  : list value :=
  filter (fun task => negb (is_str title (get_or_undefined task "title")))
         tasks.

(** The entries a loop passes over. *)
Definition skipped {A} (body : string -> step A) (steps : list message)
  : Prop :=
  Forall (fun m => body (content m) = Continue) steps.

(* ================================================================== *)
(** * Predicates of the specification *)
(* ================================================================== *)

(** A character of the class [[a-z0-9-]]. *)
Definition slugChar (c : ascii) : bool :=
  Js.is_lower c || Js.is_digit c || Js.is_hyphen c.

(** The expression [^[a-z0-9-]{1,100}$]. *)
Definition matchesRepoNamePattern (s : Js.chars) : bool :=
  (1 <=? length s)%nat && (length s <=? 100)%nat && forallb slugChar s.

(** The same expression with the lower bound 0. *)
Definition matchesRepoNamePattern0 (s : Js.chars) : bool :=
  (length s <=? 100)%nat && forallb slugChar s.

(** No two adjacent characters of the class [p]. *)
Definition noDouble (p : ascii -> bool) : Js.chars -> bool :=
  fix go s :=
    match s with
    | a :: (b :: _) as t => negb (p a && p b) && go t
    | _ => true
    end.

Definition headIs (p : ascii -> bool) (s : Js.chars) : bool :=
  match s with
  | c :: _ => p c
  | [] => false
  end.

Definition noDoubleHyphen (s : Js.chars) : bool := noDouble Js.is_hyphen s.

Definition noLeadingHyphen (s : Js.chars) : bool :=
  negb (headIs Js.is_hyphen s).

Definition noTrailingHyphen (s : Js.chars) : bool :=
  negb (headIs Js.is_hyphen (rev s)).

(** An ASCII letter or digit. *)
Definition alphanumeric (c : ascii) : bool :=
  Js.is_lower c || Js.is_upper c || Js.is_digit c.

Definition noDoubleSlash (s : Js.chars) : bool := noDouble Js.is_slash s.

(** A path without a dot. *)
Definition dotless (s : Js.chars) : bool :=
  forallb (fun c => negb (Js.eqc "."%char c)) s.

(** A bare name: letters and digits only, and not empty. *)
Definition bareName (s : string) : bool :=
  negb (String.eqb s "") && forallb alphanumeric (chars_of s).

(** The names [normalizeFilePath] treats as project directories. *)
Definition projectDirectory (s : string) : bool :=
  String.eqb s "root" || String.eqb s "frontend" || String.eqb s "backend".


(* ================================================================== *)
(** * Predicates of the further properties *)
(* ================================================================== *)

(** The test [tasks && tasks.length > 0] that [continueDevelopment]
    and [developNextTask] apply to a list of tasks. *)
Definition hasTasks (v : value) : bool :=
  truthy v && gt0 (get_or_undefined v "length").

(** The test of the callback of [isProjectCompleted] on one entry. *)
Definition marksCompletion (stepContent : string) : bool :=
  includes statusComplete stepContent || includes projectStatus stepContent.

(** The test of the callback of [isProjectInitialized] on one entry. *)
Definition marksInitialization (stepContent : string) : bool :=
  includes "initialization" stepContent && includes "done" stepContent.

(** [preserves proj m]: whatever the outcome, the part [proj] of the
    process is as it was. *)
Definition preserves {X A} (proj : Sys -> X) (m : M A) : Prop :=
  forall s o s', m s = (o, s') -> proj s' = proj s.

(** A part of the process that does not depend on the instant, on the
    memory service, on the notifications sent, on the scheduler. *)
Definition timeless {X} (proj : Sys -> X) : Prop :=
  forall s, proj (tick s) = proj s.

Definition memoryless {X} (proj : Sys -> X) : Prop :=
  forall m s, proj (set_memory m s) = proj s.

Definition silent {X} (proj : Sys -> X) : Prop :=
  forall s n,
    proj (mkSys (memoryService s) (cronScheduler s) (sent s ++ [n])
                (instant s)) = proj s.

Definition unscheduled {X} (proj : Sys -> X) : Prop :=
  forall c s, proj (set_scheduler c s) = proj s.

(** The local state of the service of a process, and its log. *)
Definition localState (s : Sys) : ProjectState :=
  projectState (memoryService s).

Definition logOf (s : Sys) : list message := past_steps (memoryService s).

(** [grows m]: whatever the outcome, the local state is as it was and
    the log was only appended to. *)
Definition grows {A} (m : M A) : Prop :=
  forall s o s',
    m s = (o, s') ->
    localState s' = localState s
    /\ exists more, logOf s' = logOf s ++ more.

(** The two messages [saveTaskProgress] appends for a task. *)
Definition progressEntry (host : Host) (title status details : value)
           (t : string) : list message :=
  [mkMessage Human (format host (VObj [("task", title)]));
   mkMessage AI
     (format host
        (VObj [("status", status); ("details", details);
               ("timestamp", VStr t)]))].

(** [advances m]: time does not go back. *)
Definition advances {A} (m : M A) : Prop :=
  forall s o s', m s = (o, s') -> (instant s <= instant s')%nat.

(** A backquote, and the number of backquotes a text starts with. *)
Definition backquote : ascii := "`"%char.

Definition is_backquote (c : ascii) : bool := Js.eqc c backquote.
(* ================================================================== *)
(** * Properties of the string helpers *)
(* ================================================================== *)

Lemma eqc_true (a b : ascii) : Js.eqc a b = true <-> a = b.
Proof. unfold Js.eqc. apply Ascii.eqb_eq. Qed.

Lemma replace_runs_length p r b s :
  (length r <= 1)%nat -> (length (Js.replace_runs p r b s) <= length s)%nat.
Proof.
  intros Hr. revert b.
  induction s as [|c t IH]; intros b; simpl; [lia|].
  destruct (p c).
  - destruct b.
    + specialize (IH true). lia.
    + rewrite length_app. specialize (IH true). lia.
  - simpl. specialize (IH false). lia.
Qed.

Lemma filter_length_le {A} (f : A -> bool) l :
  (length (filter f l) <= length l)%nat.
Proof.
  induction l as [|a l IH]; simpl; [lia|].
  destruct (f a); simpl; lia.
Qed.

Lemma remove_first_if_length p s :
  (length (Js.remove_first_if p s) <= length s)%nat.
Proof. destruct s as [|c t]; simpl; [lia|]. destruct (p c); simpl; lia. Qed.

Lemma remove_last_if_length p s :
  (length (Js.remove_last_if p s) <= length s)%nat.
Proof.
  unfold Js.remove_last_if.
  destruct (rev s) as [|c t] eqn:E; [lia|].
  destruct (p c); [|lia].
  rewrite length_rev.
  assert (length (rev s) = S (length t)) by (rewrite E; reflexivity).
  rewrite length_rev in H. lia.
Qed.

(** Every character that survives [strip_special] is a lower-case
    letter, a digit, white space or a hyphen. *)
Lemma strip_special_chars s : forallb slug_keep (strip_special s) = true.
Proof.
  unfold strip_special, Js.remove_all.
  induction s as [|c t IH]; simpl; [reflexivity|].
  destruct (slug_keep c) eqn:E; simpl; [rewrite E|]; exact IH.
Qed.

Lemma spaces_to_hyphen_chars b s :
  forallb slug_keep s = true ->
  forallb slugChar (Js.replace_runs Js.is_space ["-"%char] b s) = true.
Proof.
  revert b. induction s as [|c t IH]; intros b H; simpl; [reflexivity|].
  simpl in H. apply andb_true_iff in H as [Hc Ht].
  destruct (Js.is_space c) eqn:E.
  - destruct b; simpl; auto.
  - simpl. rewrite IH by exact Ht. rewrite andb_true_r.
    unfold slug_keep in Hc. rewrite E in Hc. unfold slugChar.
    rewrite orb_false_r in Hc.
    destruct (Js.is_lower c), (Js.is_digit c), (Js.is_hyphen c);
      simpl in *; congruence.
Qed.

Lemma collapse_hyphens_chars b s :
  forallb slugChar s = true ->
  forallb slugChar (Js.replace_runs Js.is_hyphen ["-"%char] b s) = true.
Proof.
  revert b. induction s as [|c t IH]; intros b H; simpl; [reflexivity|].
  simpl in H. apply andb_true_iff in H as [Hc Ht].
  destruct (Js.is_hyphen c) eqn:E.
  - destruct b; simpl; auto.
  - simpl. rewrite Hc. simpl. auto.
Qed.

Lemma noDouble_cons p a s :
  noDouble p (a :: s) = negb (p a && headIs p s) && noDouble p s.
Proof. destruct s as [|b u]; simpl; [rewrite andb_false_r|]; reflexivity. Qed.

(** After the runs of a class are collapsed to one character [x] of
    the class, no two characters of the class are adjacent; inside a
    run ([b = true]) the output does not start with one. *)
Lemma collapse_shape p x b s :
  p x = true ->
  noDouble p (Js.replace_runs p [x] b s) = true
  /\ (b = true -> headIs p (Js.replace_runs p [x] b s) = false).
Proof.
  intros Hx. revert b.
  induction s as [|c t IH]; intros b.
  - simpl. split; [reflexivity|]. intros _. reflexivity.
  - cbn [Js.replace_runs]. destruct (p c) eqn:E.
    + destruct b.
      * apply IH.
      * split; [|discriminate].
        destruct (IH true) as [H1 H2]. specialize (H2 eq_refl).
        cbn [app]. rewrite noDouble_cons, H1, H2, andb_false_r.
        reflexivity.
    + destruct (IH false) as [H1 _]. split.
      * rewrite noDouble_cons, H1, E. reflexivity.
      * intros _. simpl. exact E.
Qed.

Lemma noDouble_tail p a s : noDouble p (a :: s) = true -> noDouble p s = true.
Proof. rewrite noDouble_cons. intros H. apply andb_true_iff in H. tauto. Qed.

Lemma noDouble_firstn p n s :
  noDouble p s = true -> noDouble p (firstn n s) = true.
Proof.
  revert s. induction n as [|n IH]; intros s H; [reflexivity|].
  destruct s as [|a s]; [reflexivity|].
  rewrite firstn_cons, noDouble_cons.
  rewrite noDouble_cons in H. apply andb_true_iff in H as [H1 H2].
  rewrite IH by exact H2. rewrite andb_true_r.
  destruct (p a); [|reflexivity]. simpl in *.
  destruct s as [|b u]; [destruct n; reflexivity|].
  destruct n; [reflexivity|]. simpl in *. exact H1.
Qed.

Lemma noDouble_app_inv p s u :
  noDouble p (s ++ u) = true -> noDouble p s = true.
Proof.
  induction s as [|a s IH]; intros H; [reflexivity|].
  rewrite <- app_comm_cons in H.
  rewrite noDouble_cons in *.
  apply andb_true_iff in H as [H1 H2].
  rewrite IH by exact H2. rewrite andb_true_r.
  destruct (p a); [|reflexivity]. simpl in *.
  destruct s as [|b s]; [reflexivity|]. exact H1.
Qed.

Lemma noDouble_rev p s : noDouble p (rev s) = noDouble p s.
Proof.
  assert (snoc : forall l a,
             noDouble p (l ++ [a])
             = noDouble p l && negb (headIs p (rev l) && p a)).
  { induction l as [|b l IHl]; intros a.
    - simpl. reflexivity.
    - rewrite <- app_comm_cons, !noDouble_cons, IHl.
      destruct l as [|c l].
      + simpl. destruct (p b), (p a); reflexivity.
      + cbn [app headIs].
        replace (headIs p (rev (b :: c :: l))) with (headIs p (rev (c :: l))).
        * destruct (p b), (p c), (noDouble p (c :: l)),
            (headIs p (rev (c :: l))), (p a); reflexivity.
        * cbn [rev]. destruct (rev l ++ [c]) eqn:R.
          -- destruct (rev l); discriminate.
          -- reflexivity. }
  induction s as [|a s IH]; [reflexivity|].
  cbn [rev]. rewrite snoc, IH, rev_involutive, noDouble_cons.
  destruct (p a), (headIs p s), (noDouble p s); reflexivity.
Qed.

Lemma forallb_firstn {A} (f : A -> bool) n l :
  forallb f l = true -> forallb f (firstn n l) = true.
Proof.
  revert l. induction n as [|n IH]; intros [|a l] H; try reflexivity.
  simpl in *. apply andb_true_iff in H as [H1 H2].
  rewrite H1, IH by exact H2. reflexivity.
Qed.

Lemma forallb_rev {A} (f : A -> bool) l : forallb f (rev l) = forallb f l.
Proof.
  induction l as [|a l IH]; [reflexivity|].
  simpl. rewrite forallb_app, IH. simpl.
  destruct (f a), (forallb f l); reflexivity.
Qed.

Lemma forallb_remove_first_if p f s :
  forallb f s = true -> forallb f (Js.remove_first_if p s) = true.
Proof.
  destruct s as [|c t]; intros H; [reflexivity|].
  simpl. destruct (p c); [|exact H].
  simpl in H. apply andb_true_iff in H. tauto.
Qed.

Lemma forallb_remove_last_if p f s :
  forallb f s = true -> forallb f (Js.remove_last_if p s) = true.
Proof.
  intros H. unfold Js.remove_last_if.
  destruct (rev s) as [|c t] eqn:E; [exact H|].
  destruct (p c); [|exact H].
  rewrite forallb_rev.
  rewrite <- forallb_rev, E in H. simpl in H.
  apply andb_true_iff in H. tauto.
Qed.

Lemma noDouble_remove_first_if p s :
  noDouble p s = true ->
  noDouble p (Js.remove_first_if p s) = true
  /\ headIs p (Js.remove_first_if p s) = false.
Proof.
  destruct s as [|c t]; intros H; [split; reflexivity|].
  simpl Js.remove_first_if. destruct (p c) eqn:E.
  - rewrite noDouble_cons, E in H. simpl in H.
    apply andb_true_iff in H as [H1 H2].
    split; [exact H2|]. now apply negb_true_iff in H1.
  - split; [exact H|]. exact E.
Qed.

Lemma noDouble_remove_last_if p s :
  noDouble p s = true ->
  noDouble p (Js.remove_last_if p s) = true
  /\ headIs p (rev (Js.remove_last_if p s)) = false.
Proof.
  intros H. unfold Js.remove_last_if.
  rewrite <- noDouble_rev in H.
  destruct (rev s) as [|c t] eqn:E.
  - split; [now rewrite <- noDouble_rev, E|]. now rewrite E.
  - destruct (p c) eqn:Ec.
    + rewrite noDouble_rev, rev_involutive.
      rewrite noDouble_cons, Ec in H. simpl in H.
      apply andb_true_iff in H as [H1 H2].
      split; [exact H2|]. now apply negb_true_iff in H1.
    + split; [now rewrite <- noDouble_rev, E|]. rewrite E. exact Ec.
Qed.

Lemma headIs_remove_last_if p s :
  headIs p s = false -> headIs p (Js.remove_last_if p s) = false.
Proof.
  intros H. unfold Js.remove_last_if.
  destruct (rev s) as [|c t] eqn:E; [exact H|].
  destruct (p c); [|exact H].
  assert (Es : s = rev t ++ [c]).
  { rewrite <- (rev_involutive s), E. reflexivity. }
  destruct (rev t) as [|d u]; [reflexivity|].
  subst s. exact H.
Qed.

Lemma headIs_firstn p n s :
  headIs p s = false -> headIs p (firstn n s) = false.
Proof. destruct n, s; simpl; auto. Qed.

Lemma trim_hyphens_length s : (length (trim_hyphens s) <= length s)%nat.
Proof.
  unfold trim_hyphens.
  pose proof (remove_last_if_length Js.is_hyphen
                (Js.remove_first_if Js.is_hyphen s)).
  pose proof (remove_first_if_length Js.is_hyphen s). lia.
Qed.

(** The slug before it is cut to 100 characters. *)
Lemma slug_before_cap (title : Js.chars) :
  let s := trim_hyphens
             (collapse_hyphens
                (spaces_to_hyphen (strip_special (Js.toLowerCase title)))) in
  forallb slugChar s = true
  /\ noDoubleHyphen s = true
  /\ noLeadingHyphen s = true
  /\ noTrailingHyphen s = true
  /\ (length s <= length title)%nat.
Proof.
  set (s1 := strip_special (Js.toLowerCase title)).
  set (s2 := spaces_to_hyphen s1).
  set (s3 := collapse_hyphens s2).
  assert (C2 : forallb slugChar s2 = true).
  { apply spaces_to_hyphen_chars, strip_special_chars. }
  assert (C3 : forallb slugChar s3 = true).
  { apply collapse_hyphens_chars, C2. }
  assert (D3 : noDouble Js.is_hyphen s3 = true).
  { apply (collapse_shape Js.is_hyphen "-"%char false s2). reflexivity. }
  destruct (noDouble_remove_first_if _ _ D3) as [D4 H4].
  destruct (noDouble_remove_last_if _ _ D4) as [D5 T5].
  cbv zeta. unfold trim_hyphens, noDoubleHyphen, noLeadingHyphen,
              noTrailingHyphen.
  repeat split.
  - apply forallb_remove_last_if, forallb_remove_first_if, C3.
  - exact D5.
  - rewrite headIs_remove_last_if by exact H4. reflexivity.
  - rewrite T5. reflexivity.
  - pose proof (remove_last_if_length Js.is_hyphen
                  (Js.remove_first_if Js.is_hyphen s3)).
    pose proof (remove_first_if_length Js.is_hyphen s3).
    assert (length s3 <= length s2)%nat
      by (apply replace_runs_length; simpl; lia).
    assert (length s2 <= length s1)%nat
      by (apply replace_runs_length; simpl; lia).
    assert (length s1 <= length (Js.toLowerCase title))%nat
      by apply filter_length_le.
    unfold Js.toLowerCase in *. rewrite length_map in *. lia.
Qed.

(** A lower-case letter or a digit: what the slug is made of apart from
    its hyphens. *)
Lemma lower_alphanumeric (c : ascii) :
  alphanumeric c = true ->
  Js.is_lower (Js.lower c) || Js.is_digit (Js.lower c) = true.
Proof.
  destruct c as [[] [] [] [] [] [] [] []]; vm_compute;
    solve [reflexivity | discriminate].
Qed.

Lemma core_char_kept (c : ascii) :
  Js.is_lower c || Js.is_digit c = true ->
  slug_keep c = true /\ Js.is_space c = false /\ Js.is_hyphen c = false.
Proof.
  destruct c as [[] [] [] [] [] [] [] []]; vm_compute;
    solve [repeat split; reflexivity | discriminate].
Qed.

Lemma existsb_replace_runs (q p : ascii -> bool) r b s :
  (forall c, q c = true -> p c = false) ->
  existsb q s = true -> existsb q (Js.replace_runs p r b s) = true.
Proof.
  intros Hq. revert b.
  induction s as [|c t IH]; intros b H; [discriminate|].
  simpl in H. cbn [Js.replace_runs].
  destruct (q c) eqn:E.
  - rewrite (Hq c E). simpl. rewrite E. reflexivity.
  - simpl in H. destruct (p c).
    + destruct b; [now apply IH|].
      rewrite existsb_app, (IH true H). apply orb_true_r.
    + simpl. rewrite E. simpl. now apply IH.
Qed.

Lemma existsb_nonempty {A} (q : A -> bool) l : existsb q l = true -> l <> [].
Proof. destruct l; [discriminate|]. intros _. discriminate. Qed.

Lemma existsb_rev {A} (q : A -> bool) l : existsb q (rev l) = existsb q l.
Proof.
  induction l as [|a l IH]; [reflexivity|].
  simpl. rewrite existsb_app, IH. simpl.
  destruct (q a), (existsb q l); reflexivity.
Qed.

Lemma existsb_remove_first_if (q p : ascii -> bool) s :
  (forall c, q c = true -> p c = false) ->
  existsb q s = true -> existsb q (Js.remove_first_if p s) = true.
Proof.
  intros Hq. destruct s as [|c t]; intros H; [discriminate|].
  simpl. destruct (p c) eqn:E; [|exact H].
  simpl in H. destruct (q c) eqn:Eq; [|exact H].
  rewrite (Hq c Eq) in E. discriminate.
Qed.

Lemma existsb_remove_last_if (q p : ascii -> bool) s :
  (forall c, q c = true -> p c = false) ->
  existsb q s = true -> existsb q (Js.remove_last_if p s) = true.
Proof.
  intros Hq H. unfold Js.remove_last_if.
  destruct (rev s) as [|c t] eqn:E; [exact H|].
  destruct (p c) eqn:Ep; [|exact H].
  rewrite existsb_rev.
  rewrite <- existsb_rev, E in H. simpl in H.
  destruct (q c) eqn:Eq; [|exact H].
  rewrite (Hq c Eq) in Ep. discriminate.
Qed.

(** A title with a letter or a digit has a slug that is not empty. *)
Lemma repoName_nonempty (title : Js.chars) :
  existsb alphanumeric title = true -> repoNameChars title <> [].
Proof.
  intros H.
  set (q := fun c => Js.is_lower c || Js.is_digit c).
  assert (H0 : existsb q (Js.toLowerCase title) = true).
  { unfold Js.toLowerCase. induction title as [|c t IH]; [discriminate|].
    simpl in *. apply orb_true_iff in H as [H|H].
    - unfold q. rewrite (lower_alphanumeric c H). reflexivity.
    - rewrite (IH H). apply orb_true_r. }
  assert (H1 : existsb q (strip_special (Js.toLowerCase title)) = true).
  { unfold strip_special, Js.remove_all.
    induction (Js.toLowerCase title) as [|c t IH]; [discriminate|].
    simpl in *. destruct (q c) eqn:E.
    - destruct (core_char_kept c E) as [K _]. rewrite K. simpl.
      rewrite E. reflexivity.
    - simpl in H0. destruct (slug_keep c); simpl; [rewrite E|]; auto. }
  assert (H4 : existsb q
                 (trim_hyphens
                    (collapse_hyphens
                       (spaces_to_hyphen
                          (strip_special (Js.toLowerCase title))))) = true).
  { unfold trim_hyphens.
    apply existsb_remove_last_if; [intros c Hc; apply core_char_kept, Hc|].
    apply existsb_remove_first_if; [intros c Hc; apply core_char_kept, Hc|].
    apply existsb_replace_runs; [intros c Hc; apply core_char_kept, Hc|].
    apply existsb_replace_runs; [intros c Hc; apply core_char_kept, Hc|].
    exact H1. }
  unfold repoNameChars, Js.substring0.
  destruct (trim_hyphens _) as [|c t]; [discriminate|].
  discriminate.
Qed.

Lemma chars_of_length (s : string) : length (chars_of s) = String.length s.
Proof. induction s as [|c s IH]; simpl; [reflexivity|]. now rewrite IH. Qed.

(** ** C7 *)

(** C7, as amended: for every title the derived repository name is the
    title lower-cased, stripped of every character outside [a-z0-9],
    white space and the hyphen, with runs of white space turned into a
    hyphen, runs of hyphens collapsed, one leading and one trailing
    hyphen removed, and cut to 100 characters.  The result matches
    [^[a-z0-9-]{0,100}$] and has no leading and no duplicate hyphen; it
    has no trailing hyphen when the title has at most 100 characters;
    it is not empty when the title holds an ASCII letter or digit; and
    the title "My Cool App!! 2.0" yields "my-cool-app-20". *)
Theorem repoName_slug (title : string) :
  let name := chars_of (repoName title) in
  name = Js.substring0 100
           (trim_hyphens
              (collapse_hyphens
                 (spaces_to_hyphen
                    (strip_special (Js.toLowerCase (chars_of title))))))
  /\ matchesRepoNamePattern0 name = true
  /\ noLeadingHyphen name = true
  /\ noDoubleHyphen name = true
  /\ ((String.length title <= 100)%nat -> noTrailingHyphen name = true)
  /\ (existsb alphanumeric (chars_of title) = true ->
      matchesRepoNamePattern name = true)
  /\ repoName "My Cool App!! 2.0" = "my-cool-app-20".
Proof.
  cbv zeta. unfold repoName, chars_of, string_of.
  rewrite list_ascii_of_string_of_list_ascii.
  fold (chars_of title).
  destruct (slug_before_cap (chars_of title)) as (C & D & L & T & Len).
  cbv zeta in *.
  set (s := trim_hyphens _) in *.
  assert (Cap : (length (Js.substring0 100 s) <= 100)%nat).
  { unfold Js.substring0. rewrite length_firstn. lia. }
  assert (Chars : forallb slugChar (Js.substring0 100 s) = true).
  { apply forallb_firstn, C. }
  repeat split.
  - unfold matchesRepoNamePattern0. unfold repoNameChars. fold s.
    rewrite Chars.
    apply Nat.leb_le in Cap. unfold repoNameChars. fold s.
    rewrite Cap. reflexivity.
  - unfold noLeadingHyphen in *. unfold repoNameChars. fold s.
    unfold Js.substring0. rewrite headIs_firstn; [reflexivity|].
    now apply negb_true_iff in L.
  - unfold noDoubleHyphen in *. apply noDouble_firstn, D.
  - intros Ht. unfold repoNameChars. fold s. unfold Js.substring0.
    rewrite firstn_all2; [exact T|].
    rewrite chars_of_length in Len. lia.
  - intros Ha. unfold matchesRepoNamePattern. unfold repoNameChars in *.
    fold s. rewrite Chars. apply Nat.leb_le in Cap. rewrite Cap.
    pose proof (repoName_nonempty (chars_of title) Ha) as N.
    unfold repoNameChars in N. fold s in N.
    destruct (Js.substring0 100 s); [congruence|reflexivity].
Qed.

(** C7 as the specification states it fails: a title without letters
    and digits has the empty name, which [^[a-z0-9-]{1,100}$] rejects. *)
Lemma repoName_empty_counterexample :
  repoName "!!!" = ""
  /\ matchesRepoNamePattern (chars_of (repoName "!!!")) = false.
Proof. split; reflexivity. Qed.

(** Cutting to 100 characters comes after the hyphens were trimmed, so
    a long title can leave a hyphen at the end. *)
Lemma repoName_trailing_hyphen_after_cap :
  let title := string_of (repeat "a"%char 99 ++ chars_of " b") in
  noTrailingHyphen (chars_of (repoName title)) = false.
Proof. vm_compute. reflexivity. Qed.

(* ================================================================== *)
(** * Path normalisation *)
(* ================================================================== *)

Lemma dropWhile_suffix p s : exists z, s = z ++ Js.dropWhile p s.
Proof.
  induction s as [|c t [z IH]]; [exists []; reflexivity|].
  simpl. destruct (p c).
  - exists (c :: z). simpl. now rewrite <- IH.
  - exists []. reflexivity.
Qed.

Lemma dropWhileEnd_prefix p s : exists z, s = Js.dropWhileEnd p s ++ z.
Proof.
  unfold Js.dropWhileEnd.
  destruct (dropWhile_suffix p (rev s)) as [z Hz].
  exists (rev z).
  rewrite <- rev_app_distr, <- Hz. now rewrite rev_involutive.
Qed.

Lemma headIs_dropWhile p s : headIs p (Js.dropWhile p s) = false.
Proof.
  induction s as [|c t IH]; [reflexivity|].
  simpl. destruct (p c) eqn:E; [exact IH|]. simpl. exact E.
Qed.

Lemma headIs_prefix p s z : headIs p (s ++ z) = false -> headIs p s = false.
Proof. destruct s; [reflexivity|]. simpl. auto. Qed.

Lemma noDouble_suffix p z s : noDouble p (z ++ s) = true -> noDouble p s = true.
Proof.
  induction z as [|a z IH]; intros H; [exact H|].
  apply IH. rewrite <- app_comm_cons in H. now apply noDouble_tail in H.
Qed.

Lemma includes_single c s : Js.includes [c] s = existsb (Js.eqc c) s.
Proof.
  induction s as [|d t IH]; [reflexivity|].
  cbn [Js.includes Js.starts_with existsb]. rewrite IH.
  rewrite andb_true_r. reflexivity.
Qed.

Lemma existsb_dropWhile (q p : ascii -> bool) s :
  (forall c, q c = true -> p c = false) ->
  existsb q (Js.dropWhile p s) = existsb q s.
Proof.
  intros Hq. induction s as [|c t IH]; [reflexivity|].
  simpl. destruct (p c) eqn:E; [|reflexivity].
  rewrite IH. destruct (q c) eqn:Eq; [|reflexivity].
  rewrite (Hq c Eq) in E. discriminate.
Qed.

Lemma existsb_dropWhileEnd (q p : ascii -> bool) s :
  (forall c, q c = true -> p c = false) ->
  existsb q (Js.dropWhileEnd p s) = existsb q s.
Proof.
  intros Hq. unfold Js.dropWhileEnd.
  now rewrite existsb_rev, existsb_dropWhile, existsb_rev.
Qed.

Lemma dot_not_slash c : Js.eqc "."%char c = true -> Js.is_slash c = false.
Proof. intros H. apply eqc_true in H. subst c. reflexivity. Qed.

Lemma ensureExtension_has_dot p :
  existsb (Js.eqc "."%char) (ensureExtension p) = true.
Proof.
  unfold ensureExtension. rewrite includes_single.
  destruct (existsb (Js.eqc ".") p) eqn:E; simpl; [exact E|].
  rewrite existsb_app. apply orb_true_r.
Qed.

(** The path after the last two replacements. *)
Lemma finalPath_shape e :
  existsb (Js.eqc "."%char) e = true ->
  let p := trim_slashes (collapse_slashes e) in
  p <> []
  /\ existsb (Js.eqc "."%char) p = true
  /\ headIs Js.is_slash p = false
  /\ headIs Js.is_slash (rev p) = false
  /\ noDoubleSlash p = true.
Proof.
  intros He. cbv zeta. unfold trim_slashes.
  set (c := collapse_slashes e).
  assert (Dot : existsb (Js.eqc ".")
                  (Js.dropWhileEnd Js.is_slash (Js.dropWhile Js.is_slash c))
                = true).
  { rewrite existsb_dropWhileEnd, existsb_dropWhile by apply dot_not_slash.
    apply existsb_replace_runs; [apply dot_not_slash|exact He]. }
  assert (D : noDouble Js.is_slash c = true).
  { apply (collapse_shape Js.is_slash "/"%char false e). reflexivity. }
  destruct (dropWhile_suffix Js.is_slash c) as [z Hz].
  destruct (dropWhileEnd_prefix Js.is_slash (Js.dropWhile Js.is_slash c))
    as [y Hy].
  repeat split.
  - apply (existsb_nonempty _ _ Dot).
  - exact Dot.
  - apply (headIs_prefix _ _ y). rewrite <- Hy. apply headIs_dropWhile.
  - unfold Js.dropWhileEnd. rewrite rev_involutive. apply headIs_dropWhile.
  - unfold noDoubleSlash. apply (noDouble_app_inv _ _ y). rewrite <- Hy.
    apply (noDouble_suffix _ z). rewrite <- Hz. exact D.
Qed.

(** The last test of [normalizeFilePath] never holds: the task title
    plays no part in the result. *)
Lemma normalizeFilePathChars_eq (filePath taskTitle : Js.chars) :
  normalizeFilePathChars filePath taskTitle
  = trim_slashes
      (collapse_slashes
         (ensureExtension (directoryDefault (cleanPath filePath)))).
Proof.
  unfold normalizeFilePathChars.
  destruct (finalPath_shape _ (ensureExtension_has_dot
                                 (directoryDefault (cleanPath filePath))))
    as [N _].
  cbv zeta in N.
  destruct (trim_slashes _); [congruence|reflexivity].
Qed.

Lemma alphanumeric_plain (c : ascii) :
  alphanumeric c = true ->
  Js.is_slash c = false /\ Js.is_space c = false
  /\ Js.eqc "."%char c = false.
Proof.
  destruct c as [[] [] [] [] [] [] [] []]; vm_compute;
    solve [repeat split; reflexivity | discriminate].
Qed.

Lemma replace_runs_clean p r b n y :
  forallb (fun c => negb (p c)) n = true ->
  Js.replace_runs p r b (n ++ y)
  = n ++ Js.replace_runs p r (match n with [] => b | _ => false end) y.
Proof.
  revert b. induction n as [|c t IH]; intros b H; [reflexivity|].
  simpl in H. apply andb_true_iff in H as [Hc Ht].
  apply negb_true_iff in Hc.
  rewrite <- app_comm_cons. cbn [Js.replace_runs]. rewrite Hc.
  rewrite IH by exact Ht. destruct t; reflexivity.
Qed.

Lemma replace_runs_id p r b n :
  forallb (fun c => negb (p c)) n = true -> Js.replace_runs p r b n = n.
Proof.
  intros H. pose proof (replace_runs_clean p r b n [] H) as E.
  rewrite !app_nil_r in E. exact E.
Qed.

Lemma dropWhile_id p s : headIs p s = false -> Js.dropWhile p s = s.
Proof. destruct s as [|c t]; [reflexivity|]. simpl. now intros ->. Qed.

Lemma dropWhileEnd_id p s :
  headIs p (rev s) = false -> Js.dropWhileEnd p s = s.
Proof.
  intros H. unfold Js.dropWhileEnd.
  rewrite dropWhile_id by exact H. apply rev_involutive.
Qed.

Lemma string_chars_roundtrip (l : Js.chars) : chars_of (string_of l) = l.
Proof. apply list_ascii_of_string_of_list_ascii. Qed.

Lemma chars_string_roundtrip (s : string) : string_of (chars_of s) = s.
Proof. apply string_of_list_ascii_of_string. Qed.

Lemma chars_of_app (a b : string) :
  chars_of (a ++ b) = chars_of a ++ chars_of b.
Proof. induction a as [|c a IH]; simpl; [reflexivity|]. now rewrite IH. Qed.

Lemma string_of_app (a b : Js.chars) :
  string_of (a ++ b) = (string_of a ++ string_of b)%string.
Proof. induction a as [|c a IH]; simpl; [reflexivity|]. now rewrite IH. Qed.

Lemma is_name_true name p : is_name name p = true -> p = chars_of name.
Proof.
  unfold is_name. intros H. apply String.eqb_eq in H.
  rewrite <- H. symmetry. apply string_chars_roundtrip.
Qed.

Lemma ends_with_slash s :
  Js.ends_with ["/"%char] s = headIs Js.is_slash (rev s).
Proof.
  unfold Js.ends_with. cbn [rev app].
  destruct (rev s) as [|c t]; [reflexivity|].
  cbn [Js.starts_with headIs]. rewrite andb_true_r.
  unfold Js.is_slash, Js.eqc. apply Ascii.eqb_sym.
Qed.

Section BareNames.

Variable name : string.
Hypothesis bare : bareName name = true.

Let n := chars_of name.

Lemma bare_chars : forallb alphanumeric n = true.
Proof. unfold bareName in bare. apply andb_true_iff in bare. tauto. Qed.

Lemma bare_nonempty : n <> [].
Proof.
  unfold bareName in bare. apply andb_true_iff in bare as [H _].
  apply negb_true_iff in H. apply String.eqb_neq in H.
  intros E. apply H. rewrite <- (chars_string_roundtrip name).
  fold n. rewrite E. reflexivity.
Qed.

Lemma bare_no (p : ascii -> bool) :
  (forall c, alphanumeric c = true -> p c = false) ->
  forallb (fun c => negb (p c)) n = true
  /\ headIs p n = false /\ headIs p (rev n) = false
  /\ existsb p n = false.
Proof.
  intros Hp. pose proof bare_chars as H.
  assert (A : forall l, forallb alphanumeric l = true ->
                        forallb (fun c => negb (p c)) l = true
                        /\ existsb p l = false /\ headIs p l = false).
  { induction l as [|c t IH]; intros Hl; [repeat split|].
    simpl in Hl. apply andb_true_iff in Hl as [Hc Ht].
    destruct (IH Ht) as (I1 & I2 & _). simpl.
    rewrite (Hp c Hc), I1, I2. repeat split. }
  destruct (A n H) as (A1 & A2 & A3).
  rewrite <- forallb_rev in H. destruct (A _ H) as (_ & _ & A4).
  repeat split; assumption.
Qed.

Lemma no_slash : forall c, alphanumeric c = true -> Js.is_slash c = false.
Proof. intros c H. now apply alphanumeric_plain. Qed.

Lemma no_space : forall c, alphanumeric c = true -> Js.is_space c = false.
Proof. intros c H. now apply alphanumeric_plain. Qed.

Lemma no_dot : forall c, alphanumeric c = true -> Js.eqc "."%char c = false.
Proof. intros c H. now apply alphanumeric_plain. Qed.

Lemma strip_dot_slash_bare y :
  Js.strip_prefix (chars_of "./") (n ++ y) = None.
Proof.
  destruct (bare_no _ no_dot) as (_ & H & _).
  pose proof bare_nonempty as N.
  destruct n as [|c t]; [congruence|].
  simpl in *. now rewrite H.
Qed.

(** A bare name, with or without a slash behind it, is already clean. *)
Lemma cleanPath_bare : cleanPath n = n.
Proof.
  destruct (bare_no _ no_slash) as (S1 & S2 & S3 & _).
  destruct (bare_no _ no_space) as (_ & W2 & W3 & _).
  unfold cleanPath, collapse_slashes.
  rewrite dropWhile_id by exact S2.
  rewrite replace_runs_id by exact S1.
  pose proof (strip_dot_slash_bare []) as P. rewrite app_nil_r in P.
  rewrite P.
  unfold Js.trim.
  rewrite dropWhile_id by exact W2. now apply dropWhileEnd_id.
Qed.

Lemma cleanPath_bare_slash : cleanPath (n ++ ["/"%char]) = n ++ ["/"%char].
Proof.
  destruct (bare_no _ no_slash) as (S1 & S2 & S3 & _).
  destruct (bare_no _ no_space) as (_ & W2 & W3 & _).
  pose proof bare_nonempty as N.
  unfold cleanPath, collapse_slashes.
  rewrite dropWhile_id
    by (destruct n; [congruence|exact S2]).
  rewrite replace_runs_clean by exact S1.
  replace (Js.replace_runs Js.is_slash ["/"%char]
             (match n with [] => false | _ => false end) ["/"%char])
    with ["/"%char] by (destruct n; reflexivity).
  rewrite strip_dot_slash_bare.
  unfold Js.trim.
  rewrite dropWhile_id by (destruct n; [congruence|exact W2]).
  apply dropWhileEnd_id. rewrite rev_app_distr. reflexivity.
Qed.

Lemma finish_bare (tail : Js.chars) :
  headIs Js.is_slash (rev (n ++ tail)) = false ->
  Js.replace_runs Js.is_slash ["/"%char] false tail = tail ->
  trim_slashes (collapse_slashes (n ++ tail)) = n ++ tail.
Proof.
  intros Hlast Htail.
  destruct (bare_no _ no_slash) as (S1 & S2 & _).
  pose proof bare_nonempty as N.
  unfold trim_slashes, collapse_slashes.
  rewrite replace_runs_clean by exact S1.
  replace (match n with [] => false | _ => false end) with false
    by (destruct n; reflexivity).
  rewrite Htail.
  rewrite dropWhile_id by (destruct n; [congruence|exact S2]).
  now apply dropWhileEnd_id.
Qed.

(** An extensionless bare name receives the extension. *)
Lemma normalize_bare_name (taskTitle : string) :
  projectDirectory name = false ->
  normalizeFilePath name taskTitle = (name ++ ".js")%string.
Proof.
  intros Hk. unfold normalizeFilePath.
  rewrite normalizeFilePathChars_eq. fold n. rewrite cleanPath_bare.
  destruct (bare_no _ no_slash) as (_ & _ & S3 & _).
  destruct (bare_no _ no_dot) as (_ & _ & _ & D4).
  assert (Dir : directoryDefault n = n).
  { unfold directoryDefault. rewrite ends_with_slash, S3.
    unfold is_name, n. rewrite chars_string_roundtrip.
    unfold projectDirectory in Hk.
    apply orb_false_iff in Hk as [Hk H3].
    apply orb_false_iff in Hk as [H1 H2].
    rewrite H1, H2, H3. reflexivity. }
  rewrite Dir. unfold ensureExtension. rewrite includes_single, D4.
  cbn [negb].
  rewrite finish_bare; [| | reflexivity].
  - rewrite string_of_app. unfold n.
    now rewrite chars_string_roundtrip.
  - rewrite rev_app_distr. reflexivity.
Qed.

(** A bare directory name, written with its slash, receives an index
    file. *)
Lemma normalize_bare_directory (taskTitle : string) :
  normalizeFilePath (name ++ "/") taskTitle = (name ++ "/index.js")%string.
Proof.
  unfold normalizeFilePath.
  rewrite normalizeFilePathChars_eq.
  assert (E : chars_of (name ++ "/") = n ++ ["/"%char]).
  { unfold n. now rewrite chars_of_app. }
  rewrite E, cleanPath_bare_slash.
  assert (Dir : directoryDefault (n ++ ["/"%char])
                = n ++ chars_of "/index.js").
  { unfold directoryDefault. rewrite ends_with_slash, rev_app_distr.
    cbn [rev app headIs].
    replace (Js.is_slash "/") with true by reflexivity. cbn [orb].
    assert (K : forall k, headIs Js.is_slash (rev (chars_of k)) = false ->
                          is_name k (n ++ ["/"%char]) = false).
    { intros k Hk. destruct (is_name k (n ++ ["/"%char])) eqn:Ek;
        [|reflexivity].
      apply is_name_true in Ek. rewrite <- Ek, rev_app_distr in Hk.
      discriminate Hk. }
    rewrite (K "root"), (K ""), (K "frontend"), (K "backend")
      by reflexivity.
    cbn [orb]. unfold Js.remove_last_if. rewrite rev_app_distr.
    cbn [rev app]. replace (Js.is_slash "/") with true by reflexivity.
    now rewrite rev_involutive. }
  rewrite Dir. unfold ensureExtension. rewrite includes_single.
  rewrite existsb_app.
  replace (existsb (Js.eqc ".") (chars_of "/index.js")) with true
    by reflexivity.
  rewrite orb_true_r. cbn [negb].
  rewrite finish_bare; [| | reflexivity].
  - rewrite string_of_app. unfold n.
    now rewrite chars_string_roundtrip.
  - rewrite rev_app_distr. reflexivity.
Qed.

End BareNames.

(** ** Paths without a dot *)

Lemma forallb_suffix {A} (f : A -> bool) z s :
  forallb f (z ++ s) = true -> forallb f s = true.
Proof. rewrite forallb_app. intros H. apply andb_true_iff in H. tauto. Qed.

Lemma forallb_prefix {A} (f : A -> bool) s z :
  forallb f (s ++ z) = true -> forallb f s = true.
Proof. rewrite forallb_app. intros H. apply andb_true_iff in H. tauto. Qed.

Lemma forallb_dropWhile f p s :
  forallb f s = true -> forallb f (Js.dropWhile p s) = true.
Proof.
  intros H. destruct (dropWhile_suffix p s) as [z Hz].
  rewrite Hz in H. now apply forallb_suffix in H.
Qed.

Lemma forallb_dropWhileEnd f p s :
  forallb f s = true -> forallb f (Js.dropWhileEnd p s) = true.
Proof.
  intros H. destruct (dropWhileEnd_prefix p s) as [z Hz].
  rewrite Hz in H. now apply forallb_prefix in H.
Qed.

Lemma forallb_replace_runs f p r b s :
  forallb f r = true -> forallb f s = true ->
  forallb f (Js.replace_runs p r b s) = true.
Proof.
  intros Hr. revert b. induction s as [|c t IH]; intros b H; [reflexivity|].
  simpl in H. apply andb_true_iff in H as [Hc Ht].
  cbn [Js.replace_runs]. destruct (p c).
  - destruct b; [now apply IH|].
    rewrite forallb_app, Hr. now apply IH.
  - simpl. rewrite Hc. now apply IH.
Qed.

Lemma strip_prefix_suffix pre s r :
  Js.strip_prefix pre s = Some r -> exists z, s = z ++ r.
Proof.
  revert s. induction pre as [|a pre IH]; intros s H.
  - simpl in H. destruct s; inversion H; exists []; reflexivity.
  - destruct s as [|b s]; [discriminate|]. simpl in H.
    destruct (Js.eqc a b); [|discriminate].
    destruct (IH _ H) as [z Hz]. exists (b :: z). simpl. now rewrite Hz.
Qed.

Lemma cleanPath_dotless p : dotless p = true -> dotless (cleanPath p) = true.
Proof.
  unfold dotless, cleanPath, Js.trim, collapse_slashes. intros H.
  apply forallb_dropWhileEnd, forallb_dropWhile.
  assert (C : forallb (fun c => negb (Js.eqc "."%char c))
                (Js.replace_runs Js.is_slash ["/"%char] false
                   (Js.dropWhile Js.is_slash p)) = true).
  { apply forallb_replace_runs; [reflexivity|].
    now apply forallb_dropWhile. }
  destruct (Js.strip_prefix _ _) as [r|] eqn:E; [|exact C].
  destruct (strip_prefix_suffix _ _ _ E) as [z Hz].
  rewrite Hz in C. now apply forallb_suffix in C.
Qed.

Lemma dotless_includes p : dotless p = true -> Js.includes ["."%char] p = false.
Proof.
  rewrite includes_single. unfold dotless.
  induction p as [|c t IH]; [reflexivity|].
  simpl. intros H. apply andb_true_iff in H as [Hc Ht].
  apply negb_true_iff in Hc. rewrite Hc. now apply IH.
Qed.

(** Whatever [directoryDefault] answers on a path without a dot, the
    extension step leaves a path that ends in ".js". *)
Lemma extension_of_dotless c :
  dotless c = true ->
  exists x, ensureExtension (directoryDefault c) = x ++ chars_of ".js".
Proof.
  intros H. unfold directoryDefault.
  destruct (Js.ends_with ["/"%char] c || is_name "root" c
            || is_name "frontend" c || is_name "backend" c).
  - destruct (is_name "root" c || is_name "" c);
      [exists (chars_of "src/main"); reflexivity|].
    destruct (is_name "frontend" c);
      [exists (chars_of "frontend/src/main"); reflexivity|].
    destruct (is_name "backend" c);
      [exists (chars_of "backend/src/main"); reflexivity|].
    exists (Js.remove_last_if Js.is_slash c ++ chars_of "/index").
    unfold ensureExtension. rewrite includes_single, existsb_app.
    replace (existsb (Js.eqc ".") (chars_of "/index.js")) with true
      by reflexivity.
    rewrite orb_true_r. cbn [negb]. now rewrite <- app_assoc.
  - exists c. unfold ensureExtension.
    now rewrite (dotless_includes c H).
Qed.

Lemma replace_runs_keep_tail p r b x y :
  forallb (fun c => negb (p c)) y = true ->
  exists x', Js.replace_runs p r b (x ++ y) = x' ++ y.
Proof.
  intros Hy. revert b. induction x as [|c t IH]; intros b.
  - exists []. simpl. now apply replace_runs_id.
  - rewrite <- app_comm_cons. cbn [Js.replace_runs]. destruct (p c).
    + destruct b.
      * apply IH.
      * destruct (IH true) as [x' E]. exists (r ++ x').
        now rewrite E, app_assoc.
    + destruct (IH false) as [x' E]. exists (c :: x'). now rewrite E.
Qed.

Lemma dropWhile_keep_tail p x y :
  headIs p y = false -> y <> [] ->
  exists x', Js.dropWhile p (x ++ y) = x' ++ y.
Proof.
  intros Hy Ny. induction x as [|c t [x' IH]].
  - exists []. simpl. now apply dropWhile_id.
  - rewrite <- app_comm_cons. simpl. destruct (p c).
    + exists x'. exact IH.
    + exists (c :: t). reflexivity.
Qed.

Lemma finalPath_keeps_js x :
  exists w,
    trim_slashes (collapse_slashes (x ++ chars_of ".js"))
    = w ++ chars_of ".js".
Proof.
  unfold trim_slashes, collapse_slashes.
  destruct (replace_runs_keep_tail Js.is_slash ["/"%char] false x
              (chars_of ".js") eq_refl) as [x1 E1].
  rewrite E1.
  destruct (dropWhile_keep_tail Js.is_slash x1 (chars_of ".js") eq_refl)
    as [x2 E2]; [discriminate|].
  rewrite E2. exists x2.
  apply dropWhileEnd_id. rewrite rev_app_distr. reflexivity.
Qed.

(** A path without a dot is given the extension. *)
Lemma normalize_extensionless (filePath taskTitle : string) :
  dotless (chars_of filePath) = true ->
  exists stem,
    normalizeFilePath filePath taskTitle = (stem ++ ".js")%string.
Proof.
  intros H. unfold normalizeFilePath. rewrite normalizeFilePathChars_eq.
  destruct (extension_of_dotless _ (cleanPath_dotless _ H)) as [x Ex].
  rewrite Ex.
  destruct (finalPath_keeps_js x) as [w Ew]. rewrite Ew.
  exists (string_of w). now rewrite string_of_app.
Qed.

(** A leading "./" goes, on a path that does not itself start with a
    dot or a slash. *)
Lemma cleanPath_dot_slash (p : Js.chars) :
  headIs (fun c => Js.eqc "."%char c || Js.is_slash c) p = false ->
  cleanPath (chars_of "./" ++ p) = cleanPath p.
Proof.
  intros H. destruct p as [|c t]; [reflexivity|].
  cbn [headIs] in H. apply orb_false_iff in H as [Hd Hs].
  unfold cleanPath, collapse_slashes.
  assert (L : Js.replace_runs Js.is_slash ["/"%char] false
                (Js.dropWhile Js.is_slash (chars_of "./" ++ c :: t))
              = "."%char :: "/"%char
                  :: c :: Js.replace_runs Js.is_slash ["/"%char] false t).
  { change (Js.dropWhile Js.is_slash (chars_of "./" ++ c :: t))
      with ("."%char :: "/"%char :: c :: t).
    change (Js.replace_runs Js.is_slash ["/"%char] false
              ("."%char :: "/"%char :: c :: t))
      with ("."%char :: "/"%char
              :: Js.replace_runs Js.is_slash ["/"%char] true (c :: t)).
    cbn [Js.replace_runs]. now rewrite Hs. }
  assert (R : Js.replace_runs Js.is_slash ["/"%char] false
                (Js.dropWhile Js.is_slash (c :: t))
              = c :: Js.replace_runs Js.is_slash ["/"%char] false t).
  { cbn [Js.dropWhile]. rewrite Hs. cbn [Js.replace_runs]. now rewrite Hs. }
  rewrite L, R.
  change (Js.strip_prefix (chars_of "./")
            ("."%char :: "/"%char
               :: c :: Js.replace_runs Js.is_slash ["/"%char] false t))
    with (Some (c :: Js.replace_runs Js.is_slash ["/"%char] false t)).
  change (Js.strip_prefix (chars_of "./")
            (c :: Js.replace_runs Js.is_slash ["/"%char] false t))
    with (if Js.eqc "."%char c
          then Js.strip_prefix ["/"%char]
                 (Js.replace_runs Js.is_slash ["/"%char] false t)
          else None).
  now rewrite Hd.
Qed.

(** ** C8 *)



(* ================================================================== *)
(** * The log and its projection *)
(* ================================================================== *)

Section Projection.

Variable host : Host.

(** A loop returns at the first entry its body returns at. *)
Lemma scan_first {A} (body : string -> step A) pre e rest (r : A) :
  skipped body pre ->
  body (content e) = Return r ->
  scan body (pre ++ e :: rest) = Return r.
Proof.
  intros Hpre He. induction Hpre as [|m pre Hm _ IH].
  - simpl. now rewrite He.
  - simpl. now rewrite Hm.
Qed.

Lemma scan_skipped {A} (body : string -> step A) steps :
  skipped body steps -> scan body steps = Continue.
Proof.
  intros H. induction H as [|m l Hm _ IH]; [reflexivity|].
  simpl. now rewrite Hm.
Qed.

Lemma parse_some text v : JSON_parse host text = Some v -> parse host text = Ok v.
Proof. unfold parse. now intros ->. Qed.

Lemma parse_none text :
  JSON_parse host text = None ->
  parse host text = Throw (SyntaxError "Unexpected token in JSON").
Proof. unfold parse. now intros ->. Qed.

Lemma projectSpecStep_wellFormed c p :
  wellFormedEntry host "projectSpec" c p ->
  projectSpecStep host c = Return p.
Proof.
  intros (Hi & parsed & Hp & Hg & Ht). unfold projectSpecStep.
  now rewrite Hi, (parse_some _ _ Hp), Hg, Ht.
Qed.

Lemma remainingTasksStep_wellFormed c p :
  wellFormedEntry host "remainingTasks" c p -> isArray p = true ->
  remainingTasksStep host c = Return p.
Proof.
  intros (Hi & parsed & Hp & Hg & Ht) Ha. unfold remainingTasksStep.
  now rewrite Hi, (parse_some _ _ Hp), Hg, Ht, Ha.
Qed.

Lemma repositoryInfoStep_wellFormed c p :
  wellFormedRepository host c p ->
  repositoryInfoStep host c = Return p.
Proof.
  intros ((Hi & parsed & Hp & Hg & Ht) & Hn & Hname & Hurl).
  unfold repositoryInfoStep.
  now rewrite Hi, Hn, (parse_some _ _ Hp), Hg, Ht, Hname, Hurl.
Qed.

(** The body of the loop of [getProjectSpec] never throws to the
    enclosing [try]. *)
Lemma projectSpecStep_no_raise c e : projectSpecStep host c <> Raise e.
Proof.
  unfold projectSpecStep.
  destruct (includes "projectSpec" c); [|discriminate].
  destruct (parse host c) as [parsed|err].
  - destruct (get parsed "projectSpec") as [spec|err].
    + destruct (truthy spec); discriminate.
    + destruct (match_projectSpec c); discriminate.
  - destruct (match_projectSpec c); discriminate.
Qed.

Lemma scan_no_raise {A} (body : string -> step A) steps e :
  (forall c e', body c <> Raise e') -> scan body steps <> Raise e.
Proof.
  intros H. induction steps as [|m l IH]; [discriminate|].
  simpl. destruct (body (content m)) eqn:E; try discriminate.
  - exact IH.
  - now apply H in E.
Qed.

(** A malformed entry is passed over unless the salvaging expression
    matches it. *)
Lemma projectSpecStep_malformed c :
  JSON_parse host c = None ->
  projectSpecStep host c
  = if includes "projectSpec" c
    then match match_projectSpec c with
         | Some inner => Return (VStr (unescape inner))
         | None => Continue
         end
    else Continue.
Proof.
  intros H. unfold projectSpecStep. now rewrite (parse_none _ H).
Qed.

(** ** C1 *)

(** C1, as amended: when the local state holds no value, the three
    readers scan the log oldest entry first and return the payload of
    the first entry that is matched, the oldest one: in a log with
    two well-formed entries of one category, the earlier preceded only
    by entries the loop passes over, the projection yields the
    earlier payload whatever the later entry holds. *)
Theorem projection_first_writer_wins
        (pre mid post : list message) (e1 e2 : message)
        (p1 p2 : value) (local : ProjectState) :
  let steps := pre ++ e1 :: mid ++ e2 :: post in
  (skipped (projectSpecStep host) pre ->
   wellFormedEntry host "projectSpec" (content e1) p1 ->
   wellFormedEntry host "projectSpec" (content e2) p2 ->
   truthy (projectSpec local) = false ->
   getProjectSpec host (mkMemory steps local) = p1)
  /\ (skipped (remainingTasksStep host) pre ->
      wellFormedEntry host "remainingTasks" (content e1) p1 ->
      isArray p1 = true ->
      wellFormedEntry host "remainingTasks" (content e2) p2 ->
      isArray p2 = true ->
      tasksUnset local ->
      getRemainingTasks host (mkMemory steps local) = p1)
  /\ (skipped (repositoryInfoStep host) pre ->
      wellFormedRepository host (content e1) p1 ->
      wellFormedRepository host (content e2) p2 ->
      getRepositoryInfo host (mkMemory steps local) = p1).
Proof.
  cbv zeta. repeat split.
  - intros Hpre H1 _ Hc. unfold getProjectSpec, loadMemoryVariables.
    cbn [projectState past_steps]. rewrite Hc.
    now rewrite (scan_first _ pre e1 _ p1 Hpre
                   (projectSpecStep_wellFormed _ _ H1)).
  - intros Hpre H1 A1 _ _ Hc.
    unfold getRemainingTasks, loadMemoryVariables.
    cbn [projectState past_steps]. unfold tasksUnset in Hc. rewrite Hc.
    now rewrite (scan_first _ pre e1 _ p1 Hpre
                   (remainingTasksStep_wellFormed _ _ H1 A1)).
  - intros Hpre H1 _. unfold getRepositoryInfo, loadMemoryVariables.
    cbn [past_steps].
    now rewrite (scan_first _ pre e1 _ p1 Hpre
                   (repositoryInfoStep_wellFormed _ _ H1)).
Qed.

End Projection.

(** Closed instances of [wellFormedEntry] and [skipped] are settled by
    evaluation. *)
Ltac well_formed :=
  split;
  [ vm_compute; reflexivity
  | eexists; split;
    [ vm_compute; reflexivity | split; vm_compute; reflexivity ] ].

Ltac all_skipped :=
  unfold skipped;
  repeat (apply Forall_cons; [vm_compute; reflexivity|]);
  apply Forall_nil.

(** The theorem on the log of [Demo.twoPlans] and of
    [Demo.twoRepositories]: the specification and the tasks of the
    first plan, and the first repository, are read. *)
Lemma projection_first_writer_wins_witness :
  let plans n := Demo.entry n Demo.twoPlans in
  let repos n := Demo.entry n Demo.twoRepositories in
  getProjectSpec Demo.host
    (mkMemory ([plans 0] ++ plans 1 :: [plans 2] ++ plans 3 :: [])
              emptyProjectState)
  = VStr (Demo.specText "A")
  /\ getRemainingTasks Demo.host
       (mkMemory ([plans 0] ++ plans 1 :: [plans 2] ++ plans 3 :: [])
                 (mkProjectState false false VNull VNull VNull))
     = VArr [Demo.setup; Demo.server]
  /\ getRepositoryInfo Demo.host
       (mkMemory ([repos 0] ++ repos 1 :: [repos 2] ++ repos 3 :: [])
                 emptyProjectState)
     = Demo.repo "first".
Proof.
  cbv zeta. split; [|split].
  - apply (proj1 (projection_first_writer_wins Demo.host
                    [Demo.entry 0 Demo.twoPlans] [Demo.entry 2 Demo.twoPlans]
                    [] (Demo.entry 1 Demo.twoPlans)
                    (Demo.entry 3 Demo.twoPlans)
                    (VStr (Demo.specText "A")) (VStr (Demo.specText "B"))
                    emptyProjectState)).
    + all_skipped.
    + well_formed.
    + well_formed.
    + reflexivity.
  - apply (proj1 (proj2 (projection_first_writer_wins Demo.host
                    [Demo.entry 0 Demo.twoPlans] [Demo.entry 2 Demo.twoPlans]
                    [] (Demo.entry 1 Demo.twoPlans)
                    (Demo.entry 3 Demo.twoPlans)
                    (VArr [Demo.setup; Demo.server]) (VArr [Demo.routes])
                    (mkProjectState false false VNull VNull VNull)))).
    + all_skipped.
    + well_formed.
    + reflexivity.
    + well_formed.
    + reflexivity.
    + reflexivity.
  - apply (proj2 (proj2 (projection_first_writer_wins Demo.host
                    [Demo.entry 0 Demo.twoRepositories]
                    [Demo.entry 2 Demo.twoRepositories]
                    [] (Demo.entry 1 Demo.twoRepositories)
                    (Demo.entry 3 Demo.twoRepositories)
                    (Demo.repo "first") (Demo.repo "second")
                    emptyProjectState))).
    + all_skipped.
    + split; [well_formed|repeat split; vm_compute; reflexivity].
    + split; [well_formed|repeat split; vm_compute; reflexivity].
Defined.

(** C1 as the specification states it fails: the log of
    [Demo.twoPlans] holds the well-formed specification of "A" and,
    later, the well-formed specification of "B"; with the initial local
    state the projection yields the earlier one, "A". *)
Lemma projection_last_writer_counterexample :
  past_steps Demo.twoPlans
  = [Demo.entry 0 Demo.twoPlans; Demo.entry 1 Demo.twoPlans;
     Demo.entry 2 Demo.twoPlans; Demo.entry 3 Demo.twoPlans]
  /\ wellFormedEntry Demo.host "projectSpec"
       (content (Demo.entry 1 Demo.twoPlans)) (VStr (Demo.specText "A"))
  /\ wellFormedEntry Demo.host "projectSpec"
       (content (Demo.entry 3 Demo.twoPlans)) (VStr (Demo.specText "B"))
  /\ getProjectSpec Demo.host (Demo.forget Demo.twoPlans)
     = VStr (Demo.specText "A")
  /\ getProjectSpec Demo.host (Demo.forget Demo.twoPlans)
     <> VStr (Demo.specText "B").
Proof.
  split; [vm_compute; reflexivity|].
  split; [well_formed|].
  split; [well_formed|].
  split; [vm_compute; reflexivity|].
  vm_compute. discriminate.
Qed.

(** ** C4 *)

Section Recovery.

Variable host : Host.

(** With the state the constructor builds, the guard of
    [getRemainingTasks] holds (an empty array is truthy and its length
    is at least 0): the log is never read. *)
Lemma getRemainingTasks_initial_state (steps : list message) :
  getRemainingTasks host (mkMemory steps emptyProjectState) = VArr [].
Proof. reflexivity. Qed.

(** More generally the local list wins whenever it is an array. *)
Lemma getRemainingTasks_local_array steps p tasks :
  remainingTasks p = VArr tasks ->
  getRemainingTasks host (mkMemory steps p) = VArr tasks.
Proof.
  intros E. unfold getRemainingTasks. cbn [projectState]. rewrite E.
  cbn [truthy get_or_undefined get].
  replace (String.eqb "length" "length") with true by reflexivity.
  unfold ge0, toNumber.
  replace (0 <=? Z.of_nat (length tasks))%Z with true; [reflexivity|].
  symmetry. apply Z.leb_le. lia.
Qed.

(** The fallback itself recovers the tasks: when the local list is
    unset, a log made of the one entry [updateRemainingTasks] writes
    yields the tasks of that entry, in their order. *)
Lemma getRemainingTasks_unset (h a : message) (tasks : list value)
      (local : ProjectState) :
  JSON_parse host (content h)
  = Some (VObj [("remainingTasks", VStr "update")]) ->
  wellFormedEntry host "remainingTasks" (content a) (VArr tasks) ->
  tasksUnset local ->
  getRemainingTasks host (mkMemory [h; a] local) = VArr tasks.
Proof.
  intros Hh Ha Hc.
  assert (S : skipped (remainingTasksStep host) [h]).
  { constructor; [|constructor]. unfold remainingTasksStep.
    destruct (includes "remainingTasks" (content h)); [|reflexivity].
    now rewrite (parse_some _ _ _ Hh). }
  unfold getRemainingTasks, loadMemoryVariables.
  cbn [projectState past_steps]. unfold tasksUnset in Hc. rewrite Hc.
  change [h; a] with ([h] ++ a :: []).
  now rewrite (scan_first _ [h] a [] (VArr tasks) S
                 (remainingTasksStep_wellFormed _ _ _ Ha eq_refl)).
Qed.

End Recovery.


(** The same log read by the fallback, with the local list unset. *)
Lemma recovery_with_unset_list :
  getRemainingTasks Demo.host
    (mkMemory [Demo.entry 0 (Demo.oneUpdate [Demo.setup; Demo.server]);
               Demo.entry 1 (Demo.oneUpdate [Demo.setup; Demo.server])]
              (mkProjectState false false VNull VNull VNull))
  = VArr [Demo.setup; Demo.server].
Proof.
  apply getRemainingTasks_unset.
  - vm_compute. reflexivity.
  - well_formed.
  - reflexivity.
Defined.

(** ** C5 *)

Section TolerantScan.

Variable host : Host.

(** C5, as amended: the scan for the specification never throws, to
    the caller or to its own [try].  A malformed entry is passed over
    when the salvaging expression (the text projectSpec, a quoted
    colon, and a run of characters up to the next double quote) does
    not match it: with one such entry and one well-formed entry, in
    either order, the projection yields the well-formed
    specification.  When the expression matches the malformed entry
    and the entry comes first, the projection yields the salvaged
    text instead. *)
Theorem tolerant_scan_projectSpec
        (malformed wellFormed : message) (spec : value)
        (local : ProjectState) :
  JSON_parse host (content malformed) = None ->
  wellFormedEntry host "projectSpec" (content wellFormed) spec ->
  truthy (projectSpec local) = false ->
  (forall steps e, scan (projectSpecStep host) steps <> Raise e)
  /\ getProjectSpec host (mkMemory [wellFormed; malformed] local) = spec
  /\ (match_projectSpec (content malformed) = None ->
      getProjectSpec host (mkMemory [malformed; wellFormed] local) = spec)
  /\ (forall inner,
        includes "projectSpec" (content malformed) = true ->
        match_projectSpec (content malformed) = Some inner ->
        getProjectSpec host (mkMemory [malformed; wellFormed] local)
        = VStr (unescape inner)).
Proof.
  intros Hbad Hgood Hc.
  pose proof (projectSpecStep_wellFormed _ _ _ Hgood) as G.
  pose proof (projectSpecStep_malformed _ _ Hbad) as B.
  split; [|split; [|split]].
  - intros steps e. apply scan_no_raise. intros c e'.
    apply projectSpecStep_no_raise.
  - unfold getProjectSpec, loadMemoryVariables.
    cbn [projectState past_steps scan]. now rewrite Hc, G.
  - intros Hm. unfold getProjectSpec, loadMemoryVariables.
    cbn [projectState past_steps scan]. rewrite Hc, B, Hm, G.
    now destruct (includes "projectSpec" (content malformed)).
  - intros inner Hi Hm. unfold getProjectSpec, loadMemoryVariables.
    cbn [projectState past_steps scan]. now rewrite Hc, B, Hi, Hm.
Qed.

End TolerantScan.

(** The theorem on [Demo.garbage], which no expression salvages, and
    [Demo.completeSpec]. *)
Lemma tolerant_scan_projectSpec_witness :
  getProjectSpec Demo.host
    (mkMemory [Demo.completeSpec; Demo.garbage] emptyProjectState)
  = VStr "whole"
  /\ getProjectSpec Demo.host
       (mkMemory [Demo.garbage; Demo.completeSpec] emptyProjectState)
     = VStr "whole".
Proof.
  assert (B : JSON_parse Demo.host (content Demo.garbage) = None)
    by (vm_compute; reflexivity).
  assert (G : wellFormedEntry Demo.host "projectSpec"
                (content Demo.completeSpec) (VStr "whole"))
    by well_formed.
  destruct (tolerant_scan_projectSpec Demo.host Demo.garbage
              Demo.completeSpec (VStr "whole") emptyProjectState B G
              eq_refl) as (_ & H1 & H2 & _).
  split; [exact H1|]. apply H2. vm_compute. reflexivity.
Defined.

(** C5 as the specification states it fails: [Demo.truncatedSpec] is
    malformed, [Demo.completeSpec] is well formed and holds "whole",
    and the projection of the log made of the two yields "half", the
    text salvaged from the malformed entry. *)
Lemma tolerant_scan_counterexample :
  JSON_parse Demo.host (content Demo.truncatedSpec) = None
  /\ wellFormedEntry Demo.host "projectSpec" (content Demo.completeSpec)
       (VStr "whole")
  /\ getProjectSpec Demo.host
       (mkMemory [Demo.truncatedSpec; Demo.completeSpec] emptyProjectState)
     = VStr "half"
  /\ getProjectSpec Demo.host
       (mkMemory [Demo.truncatedSpec; Demo.completeSpec] emptyProjectState)
     <> VStr "whole".
Proof.
  split; [vm_compute; reflexivity|].
  split; [well_formed|].
  split; [vm_compute; reflexivity|].
  vm_compute. discriminate.
Qed.

(** In [getRemainingTasks] a salvaged text that does not parse ends the
    scan: the entries behind it are not read. *)
Lemma remainingTasks_scan_aborts :
  let broken := mkMessage AI (Json.text "{'remainingTasks': [oops], ") in
  let good := Demo.entry 1 (Demo.oneUpdate [Demo.setup]) in
  getRemainingTasks Demo.host
    (mkMemory [broken; good] (mkProjectState false false VNull VNull VNull))
  = VArr [].
Proof. vm_compute. reflexivity. Qed.

(* ================================================================== *)
(** * Runs of the process monad *)
(* ================================================================== *)

Lemma bind_ok {A B} (m : M A) (k : A -> M B) s a s1 :
  m s = (Ok a, s1) -> bind m k s = k a s1.
Proof. unfold bind. now intros ->. Qed.

Lemma bind_throw {A B} (m : M A) (k : A -> M B) s e s1 :
  m s = (Throw e, s1) -> bind m k s = (Throw e, s1).
Proof. unfold bind. now intros ->. Qed.

Lemma bind_ok_inv {A B} (m : M A) (k : A -> M B) s b s' :
  bind m k s = (Ok b, s') ->
  exists a s1, m s = (Ok a, s1) /\ k a s1 = (Ok b, s').
Proof.
  unfold bind. destruct (m s) as [[a|e] s1]; [|discriminate].
  intros H. now exists a, s1.
Qed.

Lemma try_catch_ok {A} (m : M A) h s a s1 :
  m s = (Ok a, s1) -> try_catch m h s = (Ok a, s1).
Proof. unfold try_catch. now intros ->. Qed.

Lemma try_catch_throw {A} (m : M A) h s e s1 :
  m s = (Throw e, s1) -> try_catch m h s = h e s1.
Proof. unfold try_catch. now intros ->. Qed.

(** ** Totality *)

Lemma total_ret {A} (a : A) : total (ret a).
Proof. intros s. now exists a, s. Qed.

Lemma total_bind {A B} (m : M A) (k : A -> M B) :
  total m -> (forall a, total (k a)) -> total (bind m k).
Proof.
  intros Hm Hk s. destruct (Hm s) as (a & s1 & E).
  rewrite (bind_ok _ _ _ _ _ E). apply Hk.
Qed.

(** A [try] whose handler returns normally returns normally. *)
Lemma total_try_catch {A} (m : M A) (h : error -> M A) :
  (forall e, total (h e)) -> total (try_catch m h).
Proof.
  intros Hh s. unfold try_catch.
  destruct (m s) as [[a|e] s1]; [now exists a, s1|]. apply Hh.
Qed.

Lemma total_notify n : total (notify n).
Proof. intros s. eexists _, _. reflexivity. Qed.

Lemma total_memory_write f : total (memory_write f).
Proof. intros s. eexists _, _. reflexivity. Qed.

Lemma total_memory_read {A} (f : MemoryService -> A) : total (memory_read f).
Proof. intros s. eexists _, _. reflexivity. Qed.

Lemma total_now host : total (now host).
Proof. intros s. eexists _, _. reflexivity. Qed.

Lemma total_if {A} (b : bool) (m1 m2 : M A) :
  total m1 -> total m2 -> total (if b then m1 else m2).
Proof. now destruct b. Qed.

(** ** Actions that leave the memory service alone *)

Lemma keeps_ret {A} (a : A) : keeps_memory (ret a).
Proof. intros s o s' H. now inversion H. Qed.

Lemma keeps_throw {A} e : keeps_memory (@throw A e).
Proof. intros s o s' H. now inversion H. Qed.

Lemma keeps_lift {A} (o : outcome A) : keeps_memory (lift o).
Proof. intros s o' s' H. now inversion H. Qed.

Lemma keeps_call {A} (f : nat -> outcome A) : keeps_memory (call f).
Proof. intros s o s' H. now inversion H. Qed.

Lemma keeps_notify n : keeps_memory (notify n).
Proof. intros s o s' H. now inversion H. Qed.

Lemma keeps_memory_read {A} (f : MemoryService -> A) :
  keeps_memory (memory_read f).
Proof. intros s o s' H. now inversion H. Qed.

Lemma keeps_bind {A B} (m : M A) (k : A -> M B) :
  keeps_memory m -> (forall a, keeps_memory (k a)) -> keeps_memory (bind m k).
Proof.
  intros Hm Hk s o s' H. unfold bind in H.
  destruct (m s) as [[a|e] s1] eqn:E.
  - rewrite (Hk a _ _ _ H). exact (Hm _ _ _ E).
  - inversion H; subst. exact (Hm _ _ _ E).
Qed.

Lemma keeps_try_catch {A} (m : M A) (h : error -> M A) :
  keeps_memory m -> (forall e, keeps_memory (h e)) ->
  keeps_memory (try_catch m h).
Proof.
  intros Hm Hh s o s' H. unfold try_catch in H.
  destruct (m s) as [[a|e] s1] eqn:E.
  - inversion H; subst. exact (Hm _ _ _ E).
  - rewrite (Hh e _ _ _ H). exact (Hm _ _ _ E).
Qed.

Lemma keeps_if {A} (b : bool) (m1 m2 : M A) :
  keeps_memory m1 -> keeps_memory m2 -> keeps_memory (if b then m1 else m2).
Proof. now destruct b. Qed.

Create HintDb keeps discriminated.
#[export] Hint Resolve keeps_ret keeps_throw keeps_lift keeps_call
  keeps_notify keeps_memory_read : keeps.

Ltac keeps :=
  repeat first
    [ apply keeps_bind; [|intros ?]
    | apply keeps_try_catch; [|intros ?]
    | apply keeps_if
    | solve [auto with keeps] ].

Section DevelopmentCycle.

Variable host : Host.

Lemma keeps_generateCode projectSpec task :
  keeps_memory (generateCode host projectSpec task).
Proof. unfold generateCode. keeps. Qed.

Lemma keeps_lookupSha owner repo path :
  keeps_memory (lookupSha host owner repo path).
Proof. unfold lookupSha. keeps. Qed.

Lemma keeps_prepareCommit state projectSpec task :
  keeps_memory (prepareCommit host state projectSpec task).
Proof.
  unfold prepareCommit. keeps.
Qed.

Lemma keeps_commitFile state task request :
  keeps_memory (commitFile host state task request).
Proof. unfold commitFile. keeps. Qed.

Lemma keeps_checkInputs state : keeps_memory (checkInputs host state).
Proof. unfold checkInputs. keeps. Qed.

Lemma getRemainingTasks_cached (m : MemoryService) tasks :
  remainingTasks (projectState m) = VArr tasks ->
  getRemainingTasks host m = VArr tasks.
Proof.
  destruct m as [steps p]. apply getRemainingTasks_local_array.
Qed.

Lemma selectTask_head task rest plan :
  selectTask (VArr (task :: rest)) plan = Ok (Some task).
Proof.
  unfold selectTask. cbn [truthy get_or_undefined get andb].
  replace (String.eqb "length" "length") with true by reflexivity.
  unfold gt0, toNumber.
  replace (0 <? Z.of_nat (length (task :: rest)))%Z with true;
    [reflexivity|].
  symmetry. apply Z.ltb_lt. simpl length. lia.
Qed.

(** The handler appends the failure entry, leaves the local state
    alone and throws the error it received. *)
Lemma recordFailure_run {A} (error : error) (s : Sys) :
  exists s' t1 t2,
    @recordFailure host A error s = (Throw error, s')
    /\ past_steps (memoryService s')
       = past_steps (memoryService s) ++ failureEntry host t1 t2 error
    /\ projectState (memoryService s') = projectState (memoryService s)
    /\ sent s' = sent s
    /\ cronScheduler s' = cronScheduler s.
Proof.
  eexists _, _, _. split; [reflexivity|].
  cbn. repeat split; reflexivity.
Qed.

(** A rejected commit: the error notification is sent, and the error
    thrown carries the message of the rejection. *)
Lemma commitFile_rejected state task request s e :
  repos_createOrUpdateFileContents host (instant s) request = Throw e ->
  exists s',
    commitFile host state task request s
    = (Throw (Error ("GitHub commit failed: " ++ message_of e)), s')
    /\ memoryService s' = memoryService s
    /\ sent s'
       = sent s ++ [ErrorNotification e
                      ("GitHub commit failed for " ++ commit_path request)
                      (st_repo state)].
Proof.
  intros H. eexists. split.
  - unfold commitFile. erewrite try_catch_throw.
    2:{ erewrite bind_throw; [reflexivity|].
        unfold call. rewrite H. reflexivity. }
    reflexivity.
  - split; reflexivity.
Qed.

(** ** C2 *)

(** C2: when the host rejects the commit of a development cycle, the
    cycle appends a failure entry to the log and throws to its caller
    the error it built from the rejection; the local state, and with
    it the queue of remaining tasks, is as before: no task is
    dequeued, and the next cycle selects the same head task. *)
Theorem commit_failure_keeps_queue
        (state : AgentState) (s s1 : Sys) (projectSpec task : value)
        (request : commitRequest) (e : error) :
  checkInputs host state s = (Ok projectSpec, s) ->
  selectTask (getRemainingTasks host (memoryService s)) (st_plan state)
  = Ok (Some task) ->
  prepareCommit host state projectSpec task s = (Ok request, s1) ->
  repos_createOrUpdateFileContents host (instant s1) request = Throw e ->
  exists s' t1 t2,
    let failure := Error ("GitHub commit failed: " ++ message_of e) in
    developNextTask host state s = (Throw failure, s')
    /\ past_steps (memoryService s')
       = past_steps (memoryService s) ++ failureEntry host t1 t2 failure
    /\ projectState (memoryService s') = projectState (memoryService s)
    /\ (forall queue,
          remainingTasks (projectState (memoryService s)) = VArr queue ->
          getRemainingTasks host (memoryService s') = VArr queue
          /\ selectTask (getRemainingTasks host (memoryService s'))
                        (st_plan state)
             = Ok (Some task)).
Proof.
  intros Hcheck Hsel Hprep Hcommit.
  pose proof (keeps_prepareCommit _ _ _ _ _ _ Hprep) as Hmem.
  destruct (commitFile_rejected state task request s1 e Hcommit)
    as (s2 & Hrun & Hmem2 & _).
  destruct (@recordFailure_run AgentState
              (Error ("GitHub commit failed: " ++ message_of e)) s2)
    as (s' & t1 & t2 & Hfail & Hlog & Hstate & _).
  exists s', t1, t2. cbv zeta.
  split.
  { unfold developNextTask, developTask.
    erewrite try_catch_throw; [exact Hfail|].
    erewrite bind_ok by exact Hcheck.
    erewrite bind_ok by reflexivity.
    erewrite bind_ok by (unfold lift; rewrite Hsel; reflexivity).
    cbv beta iota.
    erewrite bind_ok by exact Hprep.
    erewrite bind_throw; [reflexivity|exact Hrun]. }
  split; [now rewrite Hlog, Hmem2, Hmem|].
  split; [now rewrite Hstate, Hmem2, Hmem|].
  intros queue Hq.
  assert (Hq' : remainingTasks (projectState (memoryService s'))
                = VArr queue)
    by (now rewrite Hstate, Hmem2, Hmem).
  rewrite (getRemainingTasks_cached _ _ Hq').
  split; [reflexivity|].
  now rewrite <- (getRemainingTasks_cached _ _ Hq).
Qed.

End DevelopmentCycle.

(** The theorem on [Demo.conflictHost], which rejects every commit:
    the cycle for the queue of [Demo.setup] and [Demo.server] fails,
    and the queue is as it was. *)
Lemma commit_failure_keeps_queue_witness :
  let queue := [Demo.setup; Demo.server] in
  exists s',
    developNextTask Demo.conflictHost (Demo.state queue) (Demo.sys queue)
    = (Throw (Error "GitHub commit failed: Conflict"), s')
    /\ getRemainingTasks Demo.conflictHost (memoryService s') = VArr queue.
Proof.
  cbv zeta.
  edestruct (commit_failure_keeps_queue Demo.conflictHost
               (Demo.state [Demo.setup; Demo.server])
               (Demo.sys [Demo.setup; Demo.server]))
    as (s' & t1 & t2 & Hrun & _ & _ & Hq).
  - vm_compute. reflexivity.
  - vm_compute. reflexivity.
  - vm_compute. reflexivity.
  - vm_compute. reflexivity.
  - exists s'. split; [exact Hrun|]. now apply Hq.
Defined.

Section Dequeue.

Variable host : Host.

Lemma withoutTitle_filter (title : string) (tasks updated : list value) :
  withoutTitle (VStr title) tasks = Ok updated ->
  updated = withoutTasksTitled title tasks.
Proof.
  revert updated. induction tasks as [|task rest IH]; intros updated H.
  - now inversion H.
  - cbn [withoutTitle] in H. unfold withoutTasksTitled. cbn [filter].
    unfold get_or_undefined.
    destruct (get task "title") as [t|e]; [|discriminate].
    destruct (withoutTitle (VStr title) rest) as [rest'|e];
      [|discriminate].
    rewrite (IH rest' eq_refl) in H. inversion H. reflexivity.
Qed.

Lemma filterOutTitle_filter (title : string) tasks updated :
  filterOutTitle (VStr title) (VArr tasks) = Ok updated ->
  updated = VArr (withoutTasksTitled title tasks).
Proof.
  unfold filterOutTitle.
  destruct (withoutTitle (VStr title) tasks) as [l|e] eqn:E;
    [|discriminate].
  intros H. inversion H. now rewrite (withoutTitle_filter _ _ _ E).
Qed.

(** After [updateRemainingTasks] the local list is the list given,
    whether or not the project was then marked completed. *)
Lemma updateRemainingTasks_queue t updated m o m' :
  updateRemainingTasks host t updated m = (o, m') ->
  remainingTasks (projectState m') = updated.
Proof.
  unfold updateRemainingTasks.
  destruct (get updated "length") as [len|e].
  - destruct (is0 len); intros H; inversion H; reflexivity.
  - intros H; inversion H; reflexivity.
Qed.

Lemma updateRemainingTasksM_queue updated s o s' :
  updateRemainingTasksM host updated s = (o, s') ->
  remainingTasks (projectState (memoryService s')) = updated.
Proof.
  unfold updateRemainingTasksM, bind, now, memory_run.
  cbn [memoryService tick].
  destruct (updateRemainingTasks host _ updated (memoryService s))
    as [o' m'] eqn:E.
  intros H. inversion H. cbn [memoryService set_memory].
  exact (updateRemainingTasks_queue _ _ _ _ _ E).
Qed.

Lemma markProjectCompletedM_run s :
  exists s',
    markProjectCompletedM host s = (Ok tt, s')
    /\ isCompleted (projectState (memoryService s')) = true
    /\ remainingTasks (projectState (memoryService s'))
       = remainingTasks (projectState (memoryService s))
    /\ past_steps (memoryService s') = past_steps (memoryService s)
    /\ sent s' = sent s
    /\ cronScheduler s' = cronScheduler s.
Proof. eexists. split; [reflexivity|]. repeat split. Qed.

(** A completed record of a task leaves the filtered list as the
    queue. *)
Lemma recordCompletion_queue state remaining task request s result s' :
  recordCompletion host state remaining task request s = (Ok result, s') ->
  exists updated,
    filterOutTitle (get_or_undefined task "title") remaining = Ok updated
    /\ remainingTasks (projectState (memoryService s')) = updated
    /\ st_currentTask result = get_or_undefined task "title"
    /\ st_remainingTasks result = get_or_undefined updated "length".
Proof.
  unfold recordCompletion. intros H.
  apply bind_ok_inv in H as (t & s1 & _ & H).
  apply bind_ok_inv in H as ([] & s2 & _ & H).
  apply bind_ok_inv in H as (updated & s3 & Hf & H).
  apply bind_ok_inv in H as ([] & s4 & Hu & H).
  apply bind_ok_inv in H as ([] & s5 & Hm & H).
  apply bind_ok_inv in H as ([] & s6 & Hn & H).
  exists updated.
  assert (Ef : filterOutTitle (get_or_undefined task "title") remaining
               = Ok updated).
  { unfold lift in Hf. now inversion Hf. }
  split; [exact Ef|].
  pose proof (updateRemainingTasksM_queue _ _ _ _ Hu) as Q4.
  assert (Q5 : remainingTasks (projectState (memoryService s5)) = updated).
  { destruct (is0 (get_or_undefined updated "length")).
    - destruct (markProjectCompletedM_run s4) as (x & Hx & _ & Hq & _).
      rewrite Hx in Hm. inversion Hm as [Es]. rewrite <- Es, Hq.
      exact Q4.
    - unfold ret in Hm. inversion Hm as [Es]. rewrite <- Es. exact Q4. }
  pose proof (keeps_notify _ _ _ _ Hn) as M6.
  unfold ret in H. inversion H as [[Er Es]].
  rewrite <- Es, M6. repeat split. exact Q5.
Qed.

(** ** C9 *)

(** C9: after a successful development cycle for the head task of
    the queue, whose title is [title], the new queue of remaining
    tasks is the old queue without every task of that title, the
    others in their order; no task of that title is left, so two
    queued tasks that share the title are both removed by the one
    cycle. *)
Theorem successful_cycle_removes_title
        (state result : AgentState) (s s' : Sys) (task : value)
        (rest : list value) (title : string) :
  remainingTasks (projectState (memoryService s)) = VArr (task :: rest) ->
  get task "title" = Ok (VStr title) ->
  developNextTask host state s = (Ok result, s') ->
  remainingTasks (projectState (memoryService s'))
  = VArr (withoutTasksTitled title (task :: rest))
  /\ st_currentTask result = VStr title
  /\ (forall other,
        In other (task :: rest) ->
        get_or_undefined other "title" = VStr title ->
        ~ In other (withoutTasksTitled title (task :: rest))).
Proof.
  intros Hq Ht Hrun.
  assert (Ht' : get_or_undefined task "title" = VStr title).
  { unfold get_or_undefined. now rewrite Ht. }
  unfold developNextTask, try_catch in Hrun.
  destruct (developTask host state s) as [[r|e] s0] eqn:E.
  2:{ destruct (@recordFailure_run host AgentState e s0)
        as (x & _ & _ & Hx & _).
      rewrite Hx in Hrun. discriminate. }
  inversion Hrun; subst r s0. clear Hrun.
  unfold developTask in E.
  apply bind_ok_inv in E as (projectSpec & s1 & Hc & E).
  pose proof (keeps_checkInputs _ _ _ _ _ Hc) as M1.
  apply bind_ok_inv in E as (remaining & s2 & Hr & E).
  inversion Hr; subst s2 remaining. clear Hr.
  rewrite M1 in E.
  rewrite (getRemainingTasks_cached host _ _ Hq) in E.
  apply bind_ok_inv in E as (selected & s3 & Hs & E).
  unfold lift in Hs. rewrite selectTask_head in Hs.
  inversion Hs; subst selected s3. clear Hs.
  apply bind_ok_inv in E as (request & s4 & Hp & E).
  apply bind_ok_inv in E as ([] & s5 & Hcommit & E).
  apply recordCompletion_queue in E
    as (updated & Hf & Hq' & Hcur & _).
  rewrite Ht' in Hf, Hcur.
  apply filterOutTitle_filter in Hf. subst updated.
  split; [exact Hq'|]. split; [exact Hcur|].
  intros other _ Ho Hin. unfold withoutTasksTitled in Hin.
  apply filter_In in Hin as [_ Hin].
  rewrite Ho in Hin. unfold is_str, strict_eq in Hin.
  rewrite String.eqb_refl in Hin. discriminate.
Qed.

End Dequeue.

(** The theorem on [Demo.host] and a queue that holds the task
    [Demo.setup] twice, with [Demo.server] between: one cycle removes
    both and leaves [Demo.server]. *)
Lemma successful_cycle_removes_title_witness :
  let queue := [Demo.setup; Demo.server; Demo.setup] in
  exists result s',
    developNextTask Demo.host (Demo.state queue) (Demo.sys queue)
    = (Ok result, s')
    /\ remainingTasks (projectState (memoryService s')) = VArr [Demo.server].
Proof.
  cbv zeta.
  destruct (developNextTask Demo.host
              (Demo.state [Demo.setup; Demo.server; Demo.setup])
              (Demo.sys [Demo.setup; Demo.server; Demo.setup]))
    as [[result|e] s'] eqn:E.
  - exists result, s'. split; [reflexivity|].
    exact (proj1 (successful_cycle_removes_title Demo.host
                    (Demo.state [Demo.setup; Demo.server; Demo.setup])
                    result
                    (Demo.sys [Demo.setup; Demo.server; Demo.setup])
                    s' Demo.setup [Demo.server; Demo.setup]
                    "Project setup" eq_refl eq_refl E)).
  - exfalso. vm_compute in E. discriminate E.
Defined.

(** ** C6 *)

Section Completion.

Variable host : Host.

Lemma updateRemainingTasksM_empty s :
  exists s',
    updateRemainingTasksM host (VArr []) s = (Ok tt, s')
    /\ isCompleted (projectState (memoryService s')) = true
    /\ remainingTasks (projectState (memoryService s')) = VArr []
    /\ sent s' = sent s
    /\ cronScheduler s' = cronScheduler s.
Proof. eexists. split; [reflexivity|]. repeat split. Qed.

(** C6: on a state marked completed whose queue is empty, the
    completion transition ([markProjectCompleted], and
    [updateRemainingTasks] with the empty list, which calls it)
    returns normally and leaves the state completed and the queue
    empty; it sends no notification; [markProjectCompleted] writes
    nothing to the log and applying it twice is applying it once. *)
Theorem completion_idempotent (s : Sys) :
  isCompleted (projectState (memoryService s)) = true ->
  remainingTasks (projectState (memoryService s)) = VArr [] ->
  (exists s',
      markProjectCompletedM host s = (Ok tt, s')
      /\ isCompleted (projectState (memoryService s')) = true
      /\ remainingTasks (projectState (memoryService s')) = VArr []
      /\ isInitialized (projectState (memoryService s'))
         = isInitialized (projectState (memoryService s))
      /\ projectSpec (projectState (memoryService s'))
         = projectSpec (projectState (memoryService s))
      /\ past_steps (memoryService s') = past_steps (memoryService s)
      /\ sent s' = sent s
      /\ cronScheduler s' = cronScheduler s)
  /\ (exists s',
         updateRemainingTasksM host (VArr []) s = (Ok tt, s')
         /\ isCompleted (projectState (memoryService s')) = true
         /\ remainingTasks (projectState (memoryService s')) = VArr []
         /\ sent s' = sent s)
  /\ (exists s2,
         (markProjectCompletedM host ;;; markProjectCompletedM host) s
         = (Ok tt, s2)
         /\ isCompleted (projectState (memoryService s2)) = true
         /\ remainingTasks (projectState (memoryService s2)) = VArr []
         /\ (length (sent s2) <= length (sent s) + 1)%nat)
  /\ (forall t1 t2 m,
         markProjectCompleted t2 (markProjectCompleted t1 m)
         = markProjectCompleted t2 m).
Proof.
  intros Hc Hq. split; [|split; [|split]].
  - eexists. split; [reflexivity|]. cbn.
    repeat split; try reflexivity. exact Hq.
  - destruct (updateRemainingTasksM_empty s) as (s' & H & C & Q & N & _).
    exists s'. auto.
  - eexists. split; [reflexivity|]. cbn.
    repeat split; try reflexivity; [exact Hq|lia].
  - reflexivity.
Qed.

End Completion.

(** The theorem on the process whose queue was emptied by
    [updateRemainingTasks]: marking it completed again changes neither
    the phase nor the queue. *)
Lemma completion_idempotent_witness :
  let done :=
    snd (updateRemainingTasksM Demo.host (VArr []) (Demo.sys [Demo.setup])) in
  exists s',
    markProjectCompletedM Demo.host done = (Ok tt, s')
    /\ isCompleted (projectState (memoryService s')) = true
    /\ remainingTasks (projectState (memoryService s')) = VArr []
    /\ sent s' = sent done.
Proof.
  cbv zeta.
  destruct (completion_idempotent Demo.host
              (snd (updateRemainingTasksM Demo.host (VArr [])
                      (Demo.sys [Demo.setup])))
              eq_refl eq_refl)
    as ((s' & H & C & Q & _ & _ & _ & N & _) & _).
  exists s'. auto.
Defined.

(** ** C3 *)

Section SetupCycle.

Variable host : Host.

Lemma total_generateIdea state : total (generateIdea host state).
Proof.
  unfold generateIdea. apply total_try_catch. intros e. apply total_ret.
Qed.

Lemma total_planProject state : total (planProject host state).
Proof.
  unfold planProject. apply total_try_catch. intros e. apply total_ret.
Qed.

Lemma total_manageRepository state : total (manageRepository host state).
Proof.
  unfold manageRepository. apply total_try_catch. intros e.
  apply total_ret.
Qed.

Lemma total_runInitialCycle input : total (runInitialCycle host input).
Proof.
  unfold runInitialCycle, initialGraph.
  apply total_bind.
  { apply total_bind; [apply total_generateIdea|]. intros st1.
    apply total_bind; [apply total_planProject|]. intros st2.
    apply total_manageRepository. }
  intros result.
  apply total_bind.
  { apply total_if; [|apply total_ret].
    apply total_try_catch. intros e. apply total_ret. }
  intros _.
  apply total_bind.
  { apply total_if; [|apply total_ret].
    apply total_bind; [apply total_now|]. intros t.
    apply total_memory_write. }
  intros _.
  apply total_bind; [apply total_notify|]. intros _.
  apply total_bind; [apply total_now|]. intros t.
  apply total_bind; [apply total_memory_write|]. intros _.
  apply total_ret.
Qed.

(** The inner handler of the lookup throws again what is not a 404. *)
Lemma ensureRepository_rethrows owner name description s e :
  repos_get host (instant s) owner name = Throw e ->
  is404 e = false ->
  ensureRepository host owner name description s = (Throw e, tick s).
Proof.
  intros H N. unfold ensureRepository, try_catch, call.
  now rewrite H, N.
Qed.

(** The outer handler turns whatever the body throws into the
    fallback. *)
Lemma manageRepository_fallback state projectSpec s e s1 :
  validateState state ["projectSpec"] = Ok tt ->
  GITHUB_TOKEN host = true ->
  parse host (toString (st_projectSpec state)) = Ok projectSpec ->
  createRepository host state projectSpec s = (Throw e, s1) ->
  manageRepository host state s = (Ok (with_repo mockRepo state), s1).
Proof.
  intros Hv Ht Hp Hc. unfold manageRepository.
  erewrite try_catch_throw; [reflexivity|].
  erewrite bind_ok by (unfold lift; rewrite Hv; reflexivity).
  rewrite Ht, Hp. exact Hc.
Qed.

(** C3, as amended: no failure of a step of the setup cycle is raised
    past the step.  Specification and plan generation return their
    fallbacks when the model fails, and so does the repository step:
    an error of the lookup of the repository other than a 404 is
    thrown again by the inner handler, and caught by the outer
    handler of the step, which returns the state with the mock
    repository.  The cycle as a whole returns normally. *)
Theorem setup_failures_are_absorbed :
  (forall state, total (generateIdea host state))
  /\ (forall state, total (planProject host state))
  /\ (forall state, total (manageRepository host state))
  /\ (forall input, total (runInitialCycle host input))
  /\ (forall state s p e,
         validateState state ["complexity"] = Ok tt ->
         ideaPrompt state = Ok p ->
         model_invoke host (instant s) p = Throw e ->
         generateIdea host state s
         = (Ok (with_projectSpec
                  (VStr (JSON_stringify host (fallbackSpec state))) state),
            tick s))
  /\ (forall state s projectSpec e,
         validateState state ["projectSpec"] = Ok tt ->
         parse host (toString (st_projectSpec state)) = Ok projectSpec ->
         model_invoke host (instant s) (PlanPrompt projectSpec) = Throw e ->
         planProject host state s
         = (Ok (with_plan (VStr (JSON_stringify host fallbackPlan)) state),
            tick s))
  /\ (forall state s projectSpec title name description owner e,
         validateState state ["projectSpec"] = Ok tt ->
         GITHUB_TOKEN host = true ->
         parse host (toString (st_projectSpec state)) = Ok projectSpec ->
         get projectSpec "title" = Ok title ->
         repoNameOf title = Ok name ->
         repoDescriptionOf projectSpec = Ok description ->
         users_getAuthenticated host (instant s) = Ok owner ->
         repos_get host (S (instant s)) owner name = Throw e ->
         is404 e = false ->
         ensureRepository host owner name description (tick s)
         = (Throw e, tick (tick s))
         /\ manageRepository host state s
            = (Ok (with_repo mockRepo state), tick (tick s))).
Proof.
  split; [exact total_generateIdea|].
  split; [exact total_planProject|].
  split; [exact total_manageRepository|].
  split; [exact total_runInitialCycle|].
  split; [|split].
  - intros state s p e Hv Hp Hm. unfold generateIdea.
    erewrite try_catch_throw; [reflexivity|].
    erewrite bind_ok by (unfold lift; rewrite Hv; reflexivity).
    erewrite bind_ok by (unfold lift; rewrite Hp; reflexivity).
    erewrite bind_throw; [reflexivity|].
    unfold call. now rewrite Hm.
  - intros state s projectSpec e Hv Hp Hm. unfold planProject.
    erewrite try_catch_throw; [reflexivity|].
    erewrite bind_ok by (unfold lift; rewrite Hv; reflexivity).
    erewrite bind_ok
      by (unfold try_catch, lift; rewrite Hp; reflexivity).
    erewrite bind_throw; [reflexivity|].
    unfold call. now rewrite Hm.
  - intros state s projectSpec title name description owner e
           Hv Ht Hp Htitle Hname Hdesc Hauth Hget H404.
    assert (R : ensureRepository host owner name description (tick s)
                = (Throw e, tick (tick s))).
    { now apply ensureRepository_rethrows. }
    split; [exact R|].
    apply (manageRepository_fallback state projectSpec s e); auto.
    unfold createRepository.
    erewrite bind_ok by (unfold lift; rewrite Htitle; reflexivity).
    erewrite bind_ok by (unfold lift; rewrite Hname; reflexivity).
    erewrite bind_ok by (unfold lift; rewrite Hdesc; reflexivity).
    erewrite bind_ok by (unfold call; rewrite Hauth; reflexivity).
    erewrite bind_throw; [reflexivity|exact R].
Qed.

End SetupCycle.

(** The theorem on [Demo.brokenLookupHost], whose lookup of a
    repository fails with a server error: the repository step returns
    the state with the mock repository. *)
Lemma setup_failures_are_absorbed_witness :
  ensureRepository Demo.brokenLookupHost "octocat" "a"
    "A beginner web app project: A. Built with Node.js."
    (tick (Demo.sys []))
  = (Throw (HttpError 500 "Internal Server Error"),
     tick (tick (Demo.sys [])))
  /\ manageRepository Demo.brokenLookupHost Demo.planned (Demo.sys [])
     = (Ok (with_repo mockRepo Demo.planned), tick (tick (Demo.sys []))).
Proof.
  eapply (proj2 (proj2 (proj2 (proj2 (proj2 (proj2
            (setup_failures_are_absorbed Demo.brokenLookupHost)))))));
    try reflexivity; vm_compute; reflexivity.
Defined.

(** C3 as the specification states it fails: on
    [Demo.brokenLookupHost] the lookup of the repository raises an
    error whose status is 500, not 404, inside the repository step,
    and the step returns the fallback instead of raising. *)
Lemma repository_error_counterexample :
  repos_get Demo.brokenLookupHost 1 "octocat" "a"
  = Throw (HttpError 500 "Internal Server Error")
  /\ manageRepository Demo.brokenLookupHost Demo.planned (Demo.sys [])
     = (Ok (with_repo mockRepo Demo.planned), tick (tick (Demo.sys [])))
  /\ (forall e s',
        manageRepository Demo.brokenLookupHost Demo.planned (Demo.sys [])
        <> (Throw e, s')).
Proof.
  split; [reflexivity|].
  split; [vm_compute; reflexivity|].
  intros e s' H. vm_compute in H. discriminate H.
Qed.

(** ** C10 *)

Section ManualTrigger.

Variable host : Host.
Variable orchestrator_runDailyCycle : M AgentState.

Lemma get_set_job name job js : get_job name (set_job name job js) = Some job.
Proof.
  induction js as [|[n j] rest IH]; simpl.
  - now rewrite String.eqb_refl.
  - destruct (String.eqb n name) eqn:E; simpl; now rewrite E.
Qed.

Lemma set_set_job name j1 j2 js :
  set_job name j2 (set_job name j1 js) = set_job name j2 js.
Proof.
  induction js as [|[n j] rest IH]; simpl.
  - now rewrite String.eqb_refl.
  - destruct (String.eqb n name) eqn:E; simpl; rewrite E; [reflexivity|].
    now rewrite IH.
Qed.

(** What [start] does on a stopped scheduler: it throws before it
    touches the scheduler, or it registers the started job and sets
    the flag. *)
Lemma start_stopped s :
  isRunning (cronScheduler s) = false ->
  (exists e, start host s = (Throw e, s))
  \/ (exists job,
        start host s
        = (Ok tt,
           set_scheduler
             (mkScheduler
                (set_job "dailyDevelopment" job (jobs (cronScheduler s)))
                true) s)
        /\ started job = true
        /\ validateSchedule (getCurrentSchedule host) = Ok tt
        /\ cron_validate host (cronExpression job) = true).
Proof.
  intros Hr. unfold start, bind, scheduler_read, scheduler_write, lift.
  rewrite Hr.
  destruct (validateSchedule (getCurrentSchedule host)) as [[]|e] eqn:V;
    [|left; now exists e].
  unfold cron_schedule.
  destruct (cron_validate host _) eqn:C;
    [|left; eexists; reflexivity].
  right. eexists (mkJob _ true).
  split; [|split; [reflexivity|split; [reflexivity|exact C]]].
  cbn. unfold set_scheduler. cbn. now rewrite set_set_job.
Qed.

(** C10: a manual trigger on a scheduler that is not running starts
    the scheduler first.  When [start] throws, the trigger throws the
    same error and no cycle runs; when it returns, the running flag
    is set and the job "dailyDevelopment" is registered and started,
    the memory is untouched, and the development cycle runs from
    that state unless the project is completed.  With a schedule
    that validates, [start] does return. *)
Theorem manual_trigger_starts_scheduler (s : Sys) :
  isRunning (cronScheduler s) = false ->
  (forall e s1,
      start host s = (Throw e, s1) ->
      triggerManualCycle host orchestrator_runDailyCycle s = (Throw e, s1))
  /\ (forall s1,
         start host s = (Ok tt, s1) ->
         isRunning (cronScheduler s1) = true
         /\ (exists job,
                get_job "dailyDevelopment" (jobs (cronScheduler s1))
                = Some job
                /\ started job = true)
         /\ memoryService s1 = memoryService s
         /\ triggerManualCycle host orchestrator_runDailyCycle s
            = if isProjectCompleted (memoryService s1)
              then (Ok (statusOnly "Project completed"), s1)
              else orchestrator_runDailyCycle s1)
  /\ (validateSchedule (getCurrentSchedule host) = Ok tt ->
      cron_validate host
        (toString (get_or_undefined (getCurrentSchedule host)
                                    "cronExpression")) = true ->
      exists s1, start host s = (Ok tt, s1)).
Proof.
  intros Hr.
  assert (T : triggerManualCycle host orchestrator_runDailyCycle s
              = bind (start host)
                     (fun _ =>
                        bind (memory_read isProjectCompleted)
                             (fun completed =>
                                if completed
                                then ret (statusOnly "Project completed")
                                else orchestrator_runDailyCycle)) s).
  { unfold triggerManualCycle.
    erewrite bind_ok by (unfold scheduler_read; reflexivity).
    now rewrite Hr. }
  split; [|split].
  - intros e s1 H. rewrite T. now apply bind_throw.
  - intros s1 H.
    destruct (start_stopped s Hr) as [[e He]|(job & Hj & Hs & _)];
      [rewrite He in H; discriminate|].
    rewrite Hj in H. inversion H as [Es].
    split; [reflexivity|].
    split.
    { exists job. cbn. now rewrite get_set_job. }
    split; [reflexivity|].
    rewrite T. erewrite bind_ok by exact Hj.
    unfold bind, memory_read, ret.
    now destruct (isProjectCompleted _).
  - intros V C. unfold start, bind, scheduler_read, scheduler_write, lift.
    rewrite Hr, V. unfold cron_schedule. rewrite C.
    eexists. reflexivity.
Qed.

(** On a running scheduler the trigger runs the cycle at once. *)
Lemma manual_trigger_running (s : Sys) :
  isRunning (cronScheduler s) = true ->
  triggerManualCycle host orchestrator_runDailyCycle s
  = if isProjectCompleted (memoryService s)
    then (Ok (statusOnly "Project completed"), s)
    else orchestrator_runDailyCycle s.
Proof.
  intros Hr. unfold triggerManualCycle.
  erewrite bind_ok by (unfold scheduler_read; reflexivity).
  rewrite Hr. cbn [negb].
  unfold bind, ret, memory_read.
  now destruct (isProjectCompleted _).
Qed.

End ManualTrigger.

(** The theorem on [Demo.host] with the orchestrator of workflow.js,
    from a stopped scheduler: the scheduler is running when the trigger
    returns. *)
Lemma manual_trigger_starts_scheduler_witness :
  let s := Demo.sys [Demo.setup] in
  exists s1,
    start Demo.host s = (Ok tt, s1)
    /\ isRunning (cronScheduler s1) = true
    /\ triggerManualCycle Demo.host (runDailyCycle Demo.host) s
       = runDailyCycle Demo.host s1.
Proof.
  cbv zeta.
  destruct (manual_trigger_starts_scheduler Demo.host
              (runDailyCycle Demo.host) (Demo.sys [Demo.setup]) eq_refl)
    as (_ & H & _).
  destruct (start Demo.host (Demo.sys [Demo.setup])) as [[[]|e] s1] eqn:E.
  - exists s1. split; [reflexivity|].
    destruct (H s1 eq_refl) as (R & _ & M & T).
    split; [exact R|]. rewrite T, M. reflexivity.
  - exfalso. vm_compute in E. discriminate E.
Defined.

(* ================================================================== *)
(** * The daily cycle calls itself at most once *)
(* ================================================================== *)

Section DailyCycle.

Variable host : Host.

Lemma scan_return {A} (body : string -> step A) steps r :
  scan body steps = Return r -> exists c, body c = Return r.
Proof.
  induction steps as [|m l IH]; [discriminate|].
  simpl. destruct (body (content m)) eqn:E; intros H.
  - exists (content m). now rewrite E, H.
  - now apply IH.
  - discriminate.
Qed.

Lemma originalPlan_nonempty m tasks :
  findOriginalPlan host m = Some tasks -> exists x l, tasks = VArr (x :: l).
Proof.
  unfold findOriginalPlan.
  destruct (scan _ _) as [r| |e] eqn:E; try discriminate.
  intros H. inversion H; subst r. clear H.
  apply scan_return in E as [c E]. unfold originalPlanStep in E.
  destruct (includes "remainingTasks" c); [|discriminate].
  destruct (parse host c) as [parsed|]; [|discriminate].
  destruct (get parsed "remainingTasks") as [t|]; [|discriminate].
  destruct (truthy t && isArray t && gt0 (get_or_undefined t "length"))
    eqn:C; [|discriminate].
  inversion E; subst t. clear E.
  apply andb_true_iff in C as [C G]. apply andb_true_iff in C as [_ A].
  destruct tasks as [| | | | |items|]; try discriminate.
  destruct items as [|x l]; [discriminate|]. now exists x, l.
Qed.

(** The call of the cycle to itself is reached only behind the
    restoration of a list that is not empty. *)
Lemma dailyCycle_again (a1 a2 : M AgentState) s :
  (forall s1 x l,
      remainingTasks (projectState (memoryService s1)) = VArr (x :: l) ->
      a1 s1 = a2 s1) ->
  dailyCycle host a1 s = dailyCycle host a2 s.
Proof.
  intros H. unfold dailyCycle, bind, memory_read.
  destruct (isProjectInitialized (memoryService s)); [|reflexivity].
  cbn [negb].
  destruct (isProjectCompleted (memoryService s)); [reflexivity|].
  destruct (negb (truthy (getProjectSpec host (memoryService s))));
    [reflexivity|].
  destruct (negb (truthy (getRemainingTasks host (memoryService s)))
            || is0 (get_or_undefined
                      (getRemainingTasks host (memoryService s)) "length"));
    [|reflexivity].
  destruct (findOriginalPlan host (memoryService s)) as [tasks|] eqn:F;
    [|reflexivity].
  destruct (originalPlan_nonempty _ _ F) as (x & l & ->).
  destruct (updateRemainingTasksM host (VArr (x :: l)) s)
    as [[[]|e] s1] eqn:U; [|reflexivity].
  exact (H s1 x l (updateRemainingTasksM_queue _ _ _ _ _ U)).
Qed.

(** With a task in the local list the cycle does not call itself. *)
Lemma dailyCycle_queue (a1 a2 : M AgentState) s x l :
  remainingTasks (projectState (memoryService s)) = VArr (x :: l) ->
  dailyCycle host a1 s = dailyCycle host a2 s.
Proof.
  intros Hq. unfold dailyCycle, bind, memory_read.
  destruct (isProjectInitialized (memoryService s)); [|reflexivity].
  cbn [negb].
  destruct (isProjectCompleted (memoryService s)); [reflexivity|].
  rewrite (getRemainingTasks_cached host _ _ Hq).
  destruct (negb (truthy (getProjectSpec host (memoryService s))));
    reflexivity.
Qed.

(** One call of the cycle to itself is enough: a larger bound gives
    the same run, so the bound of [runDailyCycle] is never reached. *)
Lemma runDailyCycle_depth d s :
  runDailyCycleFrom host (S d) s = runDailyCycle host s.
Proof.
  unfold runDailyCycle. cbn [runDailyCycleFrom].
  apply dailyCycle_again. intros s1 x l Hq.
  destruct d; cbn [runDailyCycleFrom]; [reflexivity|].
  now apply (dailyCycle_queue _ _ s1 x l).
Qed.

(** X16: the daily cycle calls itself at most once.  The run is that
    of the cycle calling itself once, whatever a further call would
    do: after the tasks of the original plan were restored the second
    pass finds a task in the local list and does not restart, so the
    error of the exhausted bound is never the outcome. *)
Lemma runDailyCycle_two_calls (again : M AgentState) s :
  runDailyCycle host s = dailyCycle host (dailyCycle host again) s.
Proof.
  unfold runDailyCycle. cbn [runDailyCycleFrom].
  apply dailyCycle_again. intros s1 x l Hq.
  now apply (dailyCycle_queue _ _ s1 x l).
Qed.

End DailyCycle.

(* ================================================================== *)
(** * The memory service: plans, resets and the phase flags *)
(* ================================================================== *)

Section MemoryPhases.

Variable host : Host.

Lemma hasTasks_list x l : hasTasks (VArr (x :: l)) = true.
Proof.
  unfold hasTasks. cbn [truthy get_or_undefined get andb].
  replace (String.eqb "length" "length") with true by reflexivity.
  unfold gt0, toNumber. apply Z.ltb_lt. simpl length. lia.
Qed.

Lemma hasTasks_empty : hasTasks (VArr []) = false.
Proof. reflexivity. Qed.

(** What the loop of [forceResetProject] returns is a list with a
    task in it. *)
Lemma originalPlanStep_return c tasks :
  originalPlanStep host c = Return tasks -> exists x l, tasks = VArr (x :: l).
Proof.
  unfold originalPlanStep.
  destruct (includes "remainingTasks" c); [|discriminate].
  destruct (parse host c) as [parsed|]; [|discriminate].
  destruct (get parsed "remainingTasks") as [t|]; [|discriminate].
  destruct (truthy t && isArray t && gt0 (get_or_undefined t "length"))
    eqn:C; [|discriminate].
  intros E. inversion E; subst t. clear E.
  apply andb_true_iff in C as [C G]. apply andb_true_iff in C as [_ A].
  destruct tasks as [| | | | |items|]; try discriminate.
  destruct items as [|x l]; [discriminate|]. now exists x, l.
Qed.

(** The reset: the log is only read; without an entry that holds a
    task nothing changes; with one, the local list is that entry's. *)
Lemma forceResetProject_run t m :
  (forceResetProject host t m = (false, m)
   /\ forall tasks,
        scan (originalPlanStep host) (past_steps m) <> Return tasks)
  \/ (exists x l,
        scan (originalPlanStep host) (past_steps m) = Return (VArr (x :: l))
        /\ forceResetProject host t m
           = (true, restoreTasks t (VArr (x :: l)) m)).
Proof.
  unfold forceResetProject, loadMemoryVariables.
  destruct (scan (originalPlanStep host) (past_steps m)) as [tasks| |e] eqn:E.
  - right. destruct (scan_return _ _ _ E) as [c Hc].
    destruct (originalPlanStep_return _ _ Hc) as (x & l & ->).
    now exists x, l.
  - left. split; [reflexivity|discriminate].
  - left. split; [reflexivity|discriminate].
Qed.

(** X1: [saveProjectPlan] followed by the readers.  A plan that is
    null or undefined makes it throw before anything is written.
    Otherwise one entry (two messages) is appended, the specification
    given is read back when it is truthy, the tasks of the plan are
    read back when they are an array, a plan without tasks reads back
    as the empty list, and the completion flag is the one before:
    saving a plan with no task does not complete the project, and
    saving a plan on a completed project does not reopen it. *)
Theorem saveProjectPlan_read_back (t : string) (plan spec : value)
        (m : MemoryService) :
  (forall e,
      get plan "tasks" = Throw e ->
      saveProjectPlan host t plan spec m = (Throw e, m))
  /\ (forall tasks,
         get plan "tasks" = Ok tasks ->
         exists m' h a,
           saveProjectPlan host t plan spec m = (Ok tt, m')
           /\ past_steps m' = past_steps m ++ [h; a]
           /\ (truthy spec = true -> getProjectSpec host m' = spec)
           /\ (forall l, tasks = VArr l -> getRemainingTasks host m' = VArr l)
           /\ (truthy tasks = false -> getRemainingTasks host m' = VArr [])
           /\ isCompleted (projectState m') = isCompleted (projectState m)
           /\ isInitialized (projectState m')
              = isInitialized (projectState m)).
Proof.
  split.
  - intros e H. unfold saveProjectPlan. now rewrite H.
  - intros tasks H. unfold saveProjectPlan. rewrite H.
    eexists _, _, _. split; [reflexivity|].
    split; [reflexivity|].
    split.
    { intros Hs. unfold getProjectSpec. cbn. now rewrite Hs. }
    split.
    { intros l ->. unfold saveContext, with_state.
      apply getRemainingTasks_local_array. reflexivity. }
    split.
    { intros Hf. unfold saveContext, with_state.
      apply getRemainingTasks_local_array. cbn. unfold or_else.
      now rewrite Hf. }
    split; reflexivity.
Qed.

(** X2: [forceResetProject] never writes to the log.  When it
    answers false the service is as it was.  When it answers true the
    local list holds at least one task, which the next reading of the
    remaining tasks returns, the local completion flag is off, and the
    specification and the initialization flag are the ones before. *)
Theorem forceResetProject_restores (t : string) (m : MemoryService) :
  let r := forceResetProject host t m in
  past_steps (snd r) = past_steps m
  /\ (fst r = false -> snd r = m)
  /\ (fst r = true ->
      exists x l,
        scan (originalPlanStep host) (past_steps m) = Return (VArr (x :: l))
        /\ remainingTasks (projectState (snd r)) = VArr (x :: l)
        /\ getRemainingTasks host (snd r) = VArr (x :: l)
        /\ isCompleted (projectState (snd r)) = false
        /\ projectSpec (projectState (snd r)) = projectSpec (projectState m)
        /\ isInitialized (projectState (snd r))
           = isInitialized (projectState m)).
Proof.
  cbv zeta.
  destruct (forceResetProject_run t m) as [[E _]|(x & l & S & E)];
    rewrite E; cbn [fst snd].
  - split; [reflexivity|]. split; [reflexivity|discriminate].
  - split; [reflexivity|]. split; [discriminate|]. intros _.
    exists x, l. split; [exact S|]. split; [reflexivity|].
    split; [|repeat split].
    unfold restoreTasks, with_state.
    apply getRemainingTasks_local_array. reflexivity.
Qed.

(** X3: [continueDevelopment] answers true exactly when, afterwards,
    the local list passes the test the development cycle selects its
    task with ([tasks && tasks.length > 0]); the local completion flag
    is then off.  When it answers false the service is as it was and
    the local list fails that test.  A local list that holds a task
    is kept as it is.  The log is never written. *)
Theorem continueDevelopment_selects (t : string) (m : MemoryService) :
  let r := continueDevelopment host t m in
  past_steps (snd r) = past_steps m
  /\ hasTasks (remainingTasks (projectState (snd r))) = fst r
  /\ (fst r = true -> isCompleted (projectState (snd r)) = false)
  /\ (fst r = false -> snd r = m)
  /\ (hasTasks (remainingTasks (projectState m)) = true ->
      fst r = true
      /\ remainingTasks (projectState (snd r))
         = remainingTasks (projectState m)).
Proof.
  cbv zeta. unfold continueDevelopment.
  fold (hasTasks (remainingTasks (projectState m))).
  destruct (hasTasks (remainingTasks (projectState m))) eqn:G.
  - cbn [fst snd]. split; [reflexivity|]. split; [exact G|].
    split; [reflexivity|]. split; [discriminate|]. now intros _.
  - destruct (forceResetProject_run t m) as [[E _]|(x & l & S & E)];
      rewrite E; cbn [fst snd].
    + split; [reflexivity|]. split; [exact G|].
      split; [discriminate|]. split; [reflexivity|discriminate].
    + split; [reflexivity|].
      split; [apply hasTasks_list|].
      split; [reflexivity|]. split; discriminate.
Qed.

(** The fallback of [isProjectCompleted] on a log, entry by entry. *)
Lemma isProjectCompleted_log steps p :
  existsb (fun st => marksCompletion (content st)) steps = true ->
  isProjectCompleted (mkMemory steps p) = true.
Proof.
  intros H. unfold isProjectCompleted, loadMemoryVariables.
  cbn [projectState past_steps].
  destruct (isCompleted p); [reflexivity|exact H].
Qed.

(** X4: a completion saved to the log is permanent.  Once
    [saveProjectCompletion] has run, [isProjectCompleted] answers true
    whatever is appended to the log afterwards and whatever the local
    state becomes; in particular [resetProjectCompletion] turns the
    local flag off and the project still reads as completed. *)
Theorem saved_completion_is_permanent (t1 t2 : string) (m : MemoryService) :
  includes projectStatus (format host (VObj [("project", VStr "status")]))
  = true ->
  let saved := saveProjectCompletion host t1 m in
  (forall more p,
      isProjectCompleted (mkMemory (past_steps saved ++ more) p) = true)
  /\ isCompleted (projectState (resetProjectCompletion t2 saved)) = false
  /\ isProjectCompleted (resetProjectCompletion t2 saved) = true.
Proof.
  intros H. cbv zeta.
  assert (L : forall more p,
             isProjectCompleted
               (mkMemory (past_steps (saveProjectCompletion host t1 m)
                          ++ more) p) = true).
  { intros more p. apply isProjectCompleted_log.
    unfold saveProjectCompletion, saveContext. cbn [past_steps with_state].
    rewrite !existsb_app. cbn [existsb content].
    unfold marksCompletion at 2. rewrite H.
    rewrite orb_true_r. cbn [orb]. now rewrite orb_true_r. }
  split; [exact L|]. split; [reflexivity|].
  specialize (L [] (projectState
                      (resetProjectCompletion t2
                         (saveProjectCompletion host t1 m)))).
  rewrite app_nil_r in L. exact L.
Qed.

(** The fallback of [isProjectInitialized] on a log, entry by
    entry. *)
Lemma isProjectInitialized_log steps p :
  isInitialized p = false ->
  isProjectInitialized (mkMemory steps p)
  = existsb (fun st => marksInitialization (content st)) steps.
Proof.
  intros H. unfold isProjectInitialized, loadMemoryVariables.
  cbn [projectState past_steps]. now rewrite H.
Qed.

(** X5: the entry [saveInitializationStatus] writes cannot be read
    back.  The word initialization goes to the message of the input
    and the status to the message of the output, and the fallback of
    [isProjectInitialized] wants both in one message: with the local
    flag lost, a service whose log showed no initialization before
    shows none after [saveInitializationStatus("done")], although the
    same call sets the local flag. *)
Theorem initialization_is_not_recovered (t : string) (m : MemoryService)
        (lost : ProjectState) :
  includes "done" (format host (VObj [("step", VStr "initialization")]))
  = false ->
  includes "initialization"
    (format host (VObj [("status", VStr "done"); ("timestamp", VStr t)]))
  = false ->
  isInitialized lost = false ->
  isProjectInitialized (mkMemory (past_steps m) lost) = false ->
  let saved := saveInitializationStatus host t (VStr "done") m in
  isProjectInitialized saved = true
  /\ isProjectInitialized (mkMemory (past_steps saved) lost) = false.
Proof.
  intros H1 H2 Hl Hm. cbv zeta. split; [reflexivity|].
  rewrite isProjectInitialized_log in * by exact Hl.
  unfold saveInitializationStatus, saveContext. cbn [past_steps with_state].
  rewrite existsb_app, Hm. cbn [existsb content orb].
  unfold marksInitialization. now rewrite H1, H2, andb_false_r.
Qed.

End MemoryPhases.

(** X4 on [Demo.host]: the completion saved on a new service survives
    the reset of the flag. *)
Lemma saved_completion_is_permanent_witness :
  isProjectCompleted
    (resetProjectCompletion (Demo.clock 1)
       (saveProjectCompletion Demo.host (Demo.clock 0) newMemoryService))
  = true.
Proof.
  apply (saved_completion_is_permanent Demo.host (Demo.clock 0)
           (Demo.clock 1) newMemoryService).
  vm_compute. reflexivity.
Defined.

(** X5 on [Demo.host]: a new service, initialized, then read with the
    state the constructor builds. *)
Lemma initialization_is_not_recovered_witness :
  let saved :=
    saveInitializationStatus Demo.host (Demo.clock 0) (VStr "done")
      newMemoryService in
  isProjectInitialized saved = true
  /\ isProjectInitialized (Demo.forget saved) = false.
Proof.
  cbv zeta.
  apply (initialization_is_not_recovered Demo.host (Demo.clock 0)
           newMemoryService emptyProjectState);
    vm_compute; reflexivity.
Defined.

(** X1 on [Demo.host]: the plan of two tasks read back from a new
    service. *)
Lemma saveProjectPlan_read_back_witness :
  exists m',
    saveProjectPlan Demo.host (Demo.clock 0)
      (Demo.plan [Demo.setup; Demo.server]) (VStr (Demo.specText "A"))
      newMemoryService = (Ok tt, m')
    /\ getRemainingTasks Demo.host m' = VArr [Demo.setup; Demo.server]
    /\ getProjectSpec Demo.host m' = VStr (Demo.specText "A").
Proof.
  destruct (proj2 (saveProjectPlan_read_back Demo.host (Demo.clock 0)
                     (Demo.plan [Demo.setup; Demo.server])
                     (VStr (Demo.specText "A")) newMemoryService)
                  (VArr [Demo.setup; Demo.server]) eq_refl)
    as (m' & h & a & E & _ & S & Q & _).
  exists m'. split; [exact E|]. split; [now apply Q|].
  apply S. vm_compute. reflexivity.
Defined.

(** X2 on [Demo.host]: the log of one update with the task
    [Demo.setup], the local list unset; the reset brings the task
    back. *)
Lemma forceResetProject_restores_witness :
  let m := Demo.unset (Demo.oneUpdate [Demo.setup]) in
  fst (forceResetProject Demo.host (Demo.clock 1) m) = true
  /\ getRemainingTasks Demo.host
       (snd (forceResetProject Demo.host (Demo.clock 1) m))
     = VArr [Demo.setup].
Proof.
  cbv zeta.
  assert (T : fst (forceResetProject Demo.host (Demo.clock 1)
                     (Demo.unset (Demo.oneUpdate [Demo.setup]))) = true)
    by (vm_compute; reflexivity).
  split; [exact T|].
  destruct (forceResetProject_restores Demo.host (Demo.clock 1)
              (Demo.unset (Demo.oneUpdate [Demo.setup])))
    as (_ & _ & H).
  destruct (H T) as (x & l & S & _ & G & _).
  rewrite G. vm_compute in S. now inversion S.
Defined.

(** X3 on [Demo.host]: with the task in the log only, development
    continues and the task can be selected; with an empty log and an
    empty list it does not. *)
Lemma continueDevelopment_selects_witness :
  hasTasks
    (remainingTasks
       (projectState
          (snd (continueDevelopment Demo.host (Demo.clock 1)
                  (Demo.unset (Demo.oneUpdate [Demo.setup]))))))
  = true
  /\ snd (continueDevelopment Demo.host (Demo.clock 1) newMemoryService)
     = newMemoryService.
Proof.
  split.
  - destruct (continueDevelopment_selects Demo.host (Demo.clock 1)
                (Demo.unset (Demo.oneUpdate [Demo.setup])))
      as (_ & H & _).
    rewrite H. vm_compute. reflexivity.
  - destruct (continueDevelopment_selects Demo.host (Demo.clock 1)
                newMemoryService)
      as (_ & _ & _ & H & _).
    apply H. vm_compute. reflexivity.
Defined.

(* ================================================================== *)
(** * Parts of the process an action leaves alone *)
(* ================================================================== *)

Section Preservation.

Context {X : Type} (proj : Sys -> X).

Lemma preserves_ret {A} (a : A) : preserves proj (ret a).
Proof. intros s o s' H. now inversion H. Qed.

Lemma preserves_throw {A} e : preserves proj (@throw A e).
Proof. intros s o s' H. now inversion H. Qed.

Lemma preserves_lift {A} (o : outcome A) : preserves proj (lift o).
Proof. intros s o' s' H. now inversion H. Qed.

Lemma preserves_bind {A B} (m : M A) (k : A -> M B) :
  preserves proj m -> (forall a, preserves proj (k a)) ->
  preserves proj (bind m k).
Proof.
  intros Hm Hk s o s' H. unfold bind in H.
  destruct (m s) as [[a|e] s1] eqn:E.
  - rewrite (Hk a _ _ _ H). exact (Hm _ _ _ E).
  - inversion H; subst. exact (Hm _ _ _ E).
Qed.

Lemma preserves_try_catch {A} (m : M A) (h : error -> M A) :
  preserves proj m -> (forall e, preserves proj (h e)) ->
  preserves proj (try_catch m h).
Proof.
  intros Hm Hh s o s' H. unfold try_catch in H.
  destruct (m s) as [[a|e] s1] eqn:E.
  - inversion H; subst. exact (Hm _ _ _ E).
  - rewrite (Hh e _ _ _ H). exact (Hm _ _ _ E).
Qed.

Lemma preserves_if {A} (b : bool) (m1 m2 : M A) :
  preserves proj m1 -> preserves proj m2 ->
  preserves proj (if b then m1 else m2).
Proof. now destruct b. Qed.

Lemma preserves_call {A} (f : nat -> outcome A) :
  timeless proj -> preserves proj (call f).
Proof. intros T s o s' H. inversion H. apply T. Qed.

Lemma preserves_now host : timeless proj -> preserves proj (now host).
Proof. intros T s o s' H. inversion H. apply T. Qed.

Lemma preserves_notify n : silent proj -> preserves proj (notify n).
Proof. intros T s o s' H. inversion H. apply T. Qed.

Lemma preserves_memory_read {A} (f : MemoryService -> A) :
  preserves proj (memory_read f).
Proof. intros s o s' H. now inversion H. Qed.

Lemma preserves_memory_write f :
  memoryless proj -> preserves proj (memory_write f).
Proof. intros T s o s' H. inversion H. apply T. Qed.

Lemma preserves_memory_run {A}
      (f : MemoryService -> outcome A * MemoryService) :
  memoryless proj -> preserves proj (memory_run f).
Proof.
  intros T s o s' H. unfold memory_run in H.
  destruct (f (memoryService s)) as [o' m']. inversion H. apply T.
Qed.

Lemma preserves_scheduler_read {A} (f : CronScheduler -> A) :
  preserves proj (scheduler_read f).
Proof. intros s o s' H. now inversion H. Qed.

Lemma preserves_scheduler_write f :
  unscheduled proj -> preserves proj (scheduler_write f).
Proof. intros T s o s' H. inversion H. apply T. Qed.

End Preservation.

Lemma timeless_sent : timeless sent.
Proof. now intros s. Qed.
Lemma timeless_scheduler : timeless cronScheduler.
Proof. now intros s. Qed.
Lemma timeless_memory : timeless memoryService.
Proof. now intros s. Qed.
Lemma memoryless_sent : memoryless sent.
Proof. now intros m s. Qed.
Lemma memoryless_scheduler : memoryless cronScheduler.
Proof. now intros m s. Qed.
Lemma memoryless_instant : memoryless instant.
Proof. now intros m s. Qed.
Lemma silent_scheduler : silent cronScheduler.
Proof. now intros s n. Qed.
Lemma silent_memory : silent memoryService.
Proof. now intros s n. Qed.
Lemma silent_instant : silent instant.
Proof. now intros s n. Qed.
Lemma unscheduled_memory : unscheduled memoryService.
Proof. now intros c s. Qed.
Lemma unscheduled_sent : unscheduled sent.
Proof. now intros c s. Qed.
Lemma unscheduled_instant : unscheduled instant.
Proof. now intros c s. Qed.

Create HintDb preserves discriminated.
#[export] Hint Resolve timeless_sent timeless_scheduler timeless_memory
  memoryless_sent memoryless_scheduler memoryless_instant
  silent_scheduler silent_memory silent_instant
  unscheduled_memory unscheduled_sent unscheduled_instant : preserves.
#[export] Hint Resolve preserves_ret preserves_throw preserves_lift
  preserves_call preserves_now preserves_notify preserves_memory_read
  preserves_memory_write preserves_memory_run preserves_scheduler_read
  preserves_scheduler_write : preserves.

Ltac preserves :=
  repeat first
    [ apply preserves_bind; [|intros ?]
    | apply preserves_try_catch; [|intros ?]
    | apply preserves_if
    | solve [auto with preserves]
    | match goal with
      | |- preserves _ (match ?x with _ => _ end) => destruct x
      end ].

(** ** Time does not go back *)

Lemma advances_ret {A} (a : A) : advances (ret a).
Proof. intros s o s' H. inversion H. lia. Qed.

Lemma advances_throw {A} e : advances (@throw A e).
Proof. intros s o s' H. inversion H. lia. Qed.

Lemma advances_lift {A} (o : outcome A) : advances (lift o).
Proof. intros s o' s' H. inversion H. lia. Qed.

Lemma advances_bind {A B} (m : M A) (k : A -> M B) :
  advances m -> (forall a, advances (k a)) -> advances (bind m k).
Proof.
  intros Hm Hk s o s' H. unfold bind in H.
  destruct (m s) as [[a|e] s1] eqn:E.
  - pose proof (Hk a _ _ _ H). pose proof (Hm _ _ _ E). lia.
  - inversion H; subst. exact (Hm _ _ _ E).
Qed.

Lemma advances_try_catch {A} (m : M A) (h : error -> M A) :
  advances m -> (forall e, advances (h e)) -> advances (try_catch m h).
Proof.
  intros Hm Hh s o s' H. unfold try_catch in H.
  destruct (m s) as [[a|e] s1] eqn:E.
  - inversion H; subst. exact (Hm _ _ _ E).
  - pose proof (Hh e _ _ _ H). pose proof (Hm _ _ _ E). lia.
Qed.

Lemma advances_if {A} (b : bool) (m1 m2 : M A) :
  advances m1 -> advances m2 -> advances (if b then m1 else m2).
Proof. now destruct b. Qed.

Lemma advances_call {A} (f : nat -> outcome A) : advances (call f).
Proof. intros s o s' H. inversion H. cbn. lia. Qed.

Lemma advances_now host : advances (now host).
Proof. intros s o s' H. inversion H. cbn. lia. Qed.

Lemma advances_preserves {A} (m : M A) : preserves instant m -> advances m.
Proof. intros P s o s' H. rewrite (P _ _ _ H). lia. Qed.

Create HintDb advances discriminated.
#[export] Hint Resolve advances_ret advances_throw advances_lift
  advances_call advances_now : advances.

Ltac advances :=
  repeat first
    [ apply advances_bind; [|intros ?]
    | apply advances_try_catch; [|intros ?]
    | apply advances_if
    | solve [auto with advances]
    | solve [apply advances_preserves; auto with preserves]
    | match goal with
      | |- advances (match ?x with _ => _ end) => destruct x
      end ].

Lemma bind_throw_inv {A B} (m : M A) (k : A -> M B) s e s' :
  bind m k s = (Throw e, s') ->
  m s = (Throw e, s')
  \/ exists a s1, m s = (Ok a, s1) /\ k a s1 = (Throw e, s').
Proof.
  unfold bind. destruct (m s) as [[a|e1] s1]; intros H.
  - right. now exists a, s1.
  - left. now inversion H.
Qed.

(* ================================================================== *)
(** * The development cycle: what a run leaves behind *)
(* ================================================================== *)

Section DevelopmentOutcomes.

Variable host : Host.

Lemma preserves_scheduler_developNextTask state :
  preserves cronScheduler (developNextTask host state).
Proof.
  unfold developNextTask, developTask, recordFailure, checkInputs,
    prepareCommit, generateCode, lookupSha, commitFile, recordCompletion,
    saveTaskProgressM, updateRemainingTasksM, markProjectCompletedM.
  preserves.
Qed.

Lemma advances_developTask state : advances (developTask host state).
Proof.
  unfold developTask, checkInputs,
    prepareCommit, generateCode, lookupSha, commitFile, recordCompletion,
    saveTaskProgressM, updateRemainingTasksM, markProjectCompletedM.
  advances.
Qed.

Lemma advances_checkInputs state : advances (checkInputs host state).
Proof. unfold checkInputs. advances. Qed.

Lemma advances_prepareCommit state projectSpec task :
  advances (prepareCommit host state projectSpec task).
Proof. unfold prepareCommit, generateCode, lookupSha. advances. Qed.

Lemma advances_recordCompletion state remaining task request :
  advances (recordCompletion host state remaining task request).
Proof.
  unfold recordCompletion, saveTaskProgressM, updateRemainingTasksM,
    markProjectCompletedM.
  advances.
Qed.

Lemma filterOutTitle_array title remaining updated :
  filterOutTitle title remaining = Ok updated -> exists l, updated = VArr l.
Proof.
  unfold filterOutTitle. destruct remaining; try discriminate.
  destruct (withoutTitle title items) as [l|e]; [|discriminate].
  intros H. inversion H. now exists l.
Qed.

(** The record of a completed task throws only from the filter of the
    queue, after the entry of the task was written and before the
    queue is touched. *)
Lemma recordCompletion_throw state remaining task request s e s' :
  recordCompletion host state remaining task request s = (Throw e, s') ->
  localState s' = localState s
  /\ exists details t,
       logOf s' = logOf s
                  ++ progressEntry host (get_or_undefined task "title")
                       (VStr "completed") details t.
Proof.
  unfold recordCompletion. intros H.
  apply bind_throw_inv in H as [H|(t & s1 & Ht & H)];
    [unfold now in H; discriminate|].
  unfold now in Ht. inversion Ht; subst t s1. clear Ht.
  apply bind_throw_inv in H as [H|([] & s2 & Hs & H)];
    [unfold saveTaskProgressM, bind, now, memory_write in H; discriminate|].
  unfold saveTaskProgressM, bind, now, memory_write in Hs.
  inversion Hs; subst s2. clear Hs.
  apply bind_throw_inv in H as [H|(updated & s3 & Hf & H)].
  - unfold lift in H. inversion H. split; [reflexivity|].
    eexists _, _. reflexivity.
  - exfalso. unfold lift in Hf. inversion Hf as [[Ef Es]]. clear Hf.
    destruct (filterOutTitle_array _ _ _ Ef) as [l ->].
    unfold updateRemainingTasksM, markProjectCompletedM, bind, now,
      memory_run, memory_write, notify, ret, updateRemainingTasks in H.
    cbn [get] in H.
    replace (String.eqb "length" "length") with true in H by reflexivity.
    cbn in H.
    destruct (Z.of_nat (length l) =? 0)%Z; cbn in H; discriminate H.
Qed.

(** A body of the cycle that throws has left the local state and the
    scheduler alone; to the log it has added nothing, or the entry of
    the task it had just committed. *)
Lemma developTask_throw state s e s' :
  developTask host state s = (Throw e, s') ->
  localState s' = localState s
  /\ exists done,
       logOf s' = logOf s ++ done
       /\ (done = []
           \/ exists title details t,
                done = progressEntry host title (VStr "completed")
                         details t).
Proof.
  unfold developTask. intros H.
  assert (Nil : forall s0, memoryService s0 = memoryService s ->
                  localState s0 = localState s
                  /\ exists done,
                       logOf s0 = logOf s ++ done
                       /\ (done = []
                           \/ exists title details t,
                                done = progressEntry host title
                                         (VStr "completed") details t)).
  { intros s0 E. unfold localState, logOf. rewrite E.
    split; [reflexivity|]. exists []. rewrite app_nil_r. auto. }
  apply bind_throw_inv in H as [H|(projectSpec & s1 & Hc & H)].
  { apply Nil. exact (keeps_checkInputs _ _ _ _ _ H). }
  pose proof (keeps_checkInputs _ _ _ _ _ Hc) as M1.
  apply bind_throw_inv in H as [H|(remaining & s2 & Hr & H)];
    [unfold memory_read in H; discriminate|].
  unfold memory_read in Hr. inversion Hr; subst s2. clear Hr.
  apply bind_throw_inv in H as [H|(selected & s3 & Hs & H)].
  { unfold lift in H. inversion H; subst. now apply Nil. }
  unfold lift in Hs. inversion Hs as [[Hsel Es]]. subst s3.
  destruct selected as [task|]; [|discriminate H].
  apply bind_throw_inv in H as [H|(request & s4 & Hp & H)].
  { apply Nil. rewrite (keeps_prepareCommit _ _ _ _ _ _ _ H). exact M1. }
  pose proof (keeps_prepareCommit _ _ _ _ _ _ _ Hp) as M4.
  apply bind_throw_inv in H as [H|([] & s5 & Hcommit & H)].
  { apply Nil. rewrite (keeps_commitFile _ _ _ _ _ _ _ H), M4. exact M1. }
  pose proof (keeps_commitFile _ _ _ _ _ _ _ Hcommit) as M5.
  apply recordCompletion_throw in H as (L & details & t & G).
  unfold localState, logOf in *. rewrite M5, M4, M1 in L, G.
  split; [exact L|].
  eexists. split; [exact G|]. right. eexists _, _, _. reflexivity.
Qed.

(** X6: whatever makes a development cycle fail, the failure leaves
    the local state of the memory service, and with it the queue of
    remaining tasks, as it was, and the scheduler too.  The log is only
    appended to: the failure entry that carries the message of the
    error thrown, preceded by the entry of the task when the failure
    came after the commit.  The error the caller receives is the one
    the entry records, and a queue that was an array is read back as
    it was. *)
Theorem failed_cycle_keeps_state (state : AgentState) (s s' : Sys)
        (e : error) :
  developNextTask host state s = (Throw e, s') ->
  localState s' = localState s
  /\ (forall queue,
        remainingTasks (localState s) = VArr queue ->
        getRemainingTasks host (memoryService s') = VArr queue)
  /\ cronScheduler s' = cronScheduler s
  /\ exists done t1 t2,
       logOf s' = logOf s ++ done ++ failureEntry host t1 t2 e
       /\ (done = []
           \/ exists title details t,
                done = progressEntry host title (VStr "completed")
                         details t).
Proof.
  intros H.
  pose proof (preserves_scheduler_developNextTask _ _ _ _ H) as C.
  unfold developNextTask, try_catch in H.
  destruct (developTask host state s) as [[r|e0] s0] eqn:E;
    [discriminate|].
  destruct (@recordFailure_run host AgentState e0 s0)
    as (x & t1 & t2 & Hx & Hlog & Hstate & _).
  rewrite Hx in H. inversion H; subst e0 x. clear H.
  apply developTask_throw in E as (L & done & G & D).
  assert (L' : localState s' = localState s).
  { unfold localState in *. now rewrite Hstate. }
  split; [exact L'|].
  split.
  { intros queue Hq. apply getRemainingTasks_cached.
    unfold localState in *. now rewrite L'. }
  split; [exact C|].
  exists done, t1, t2. split; [|exact D].
  unfold logOf in *. now rewrite Hlog, G, app_assoc.
Qed.

(** A commit that returned was accepted by the host at that
    instant. *)
Lemma commitFile_accepted state task request s s' :
  commitFile host state task request s = (Ok tt, s') ->
  repos_createOrUpdateFileContents host (instant s) request = Ok tt
  /\ instant s' = S (instant s).
Proof.
  unfold commitFile, try_catch, bind, call, notify, throw.
  destruct (repos_createOrUpdateFileContents host (instant s) request)
    as [[]|e]; [|discriminate].
  intros H. inversion H. split; reflexivity.
Qed.

Lemma normalizeFilePathOf_ok filePath title path :
  normalizeFilePathOf filePath title = Ok path ->
  exists p, filePath = VStr p /\ path = normalizeFilePath p (toString title).
Proof.
  destruct filePath; try discriminate. intros H. inversion H.
  now exists s.
Qed.

(** The request a cycle prepares for a task. *)
Lemma prepareCommit_request state projectSpec task s request s' :
  prepareCommit host state projectSpec task s = (Ok request, s') ->
  exists title p,
    get task "title" = Ok title
    /\ get task "filePath" = Ok (VStr p)
    /\ commit_path request = normalizeFilePath p (toString title)
    /\ commit_message request = ("feat: implement " ++ toString title)%string
    /\ commit_repo request
       = toString (get_or_undefined (st_repo state) "name")
    /\ GITHUB_TOKEN host = true.
Proof.
  unfold prepareCommit. intros H.
  apply bind_ok_inv in H as (title & s1 & Ht & H).
  apply bind_ok_inv in H as (codeContent & s2 & Hg & H).
  apply bind_ok_inv in H as (filePath & s3 & Hf & H).
  apply bind_ok_inv in H as (fullPath & s4 & Hn & H).
  destruct (GITHUB_TOKEN host) eqn:T; [|discriminate H].
  cbn [negb] in H.
  apply bind_ok_inv in H as (owner & s5 & Ho & H).
  apply bind_ok_inv in H as (sha & s6 & Hs & H).
  unfold ret in H. inversion H; subst. clear H.
  unfold lift in Ht, Hf, Hn.
  inversion Ht as [[Et Es1]]. inversion Hf as [[Ef Es3]].
  inversion Hn as [[En Es4]].
  destruct (normalizeFilePathOf_ok _ _ _ En) as (p & -> & ->).
  exists title, p. repeat split; assumption.
Qed.

(** The path [normalizeFilePath] gives is relative, ends in no slash
    and has a dot in it. *)
Lemma normalizeFilePath_shape filePath taskTitle :
  let p := chars_of (normalizeFilePath filePath taskTitle) in
  p <> []
  /\ Js.includes ["."%char] p = true
  /\ headIs Js.is_slash p = false
  /\ headIs Js.is_slash (rev p) = false
  /\ noDoubleSlash p = true.
Proof.
  cbv zeta. unfold normalizeFilePath.
  rewrite string_chars_roundtrip, normalizeFilePathChars_eq.
  rewrite includes_single.
  apply finalPath_shape. apply ensureExtension_has_dot.
Qed.

(** The state a completed record returns. *)
Lemma recordCompletion_result state remaining task request s result s' :
  recordCompletion host state remaining task request s = (Ok result, s') ->
  exists updated,
    result
    = with_progress (get_or_undefined task "title")
        (get_or_undefined updated "length")
        (with_commits (commitsOf request) state).
Proof.
  unfold recordCompletion. intros H.
  apply bind_ok_inv in H as (t & s1 & _ & H).
  apply bind_ok_inv in H as ([] & s2 & _ & H).
  apply bind_ok_inv in H as (updated & s3 & _ & H).
  apply bind_ok_inv in H as ([] & s4 & _ & H).
  apply bind_ok_inv in H as ([] & s5 & _ & H).
  apply bind_ok_inv in H as ([] & s6 & _ & H).
  unfold ret in H. inversion H. now exists updated.
Qed.

(** X7: a development cycle that returns has either found nothing to
    do (it then reports no commit, the status that says so, and the
    project is marked completed) or reports exactly one commit, for
    the task it selected, and that commit is one the host accepted
    during the cycle: to the repository named in the state it was
    given, with the message feat: implement and the title of the task,
    at the normalised path of the task, which is relative, has an
    extension and no doubled or trailing slash. *)
Theorem reported_commit_was_accepted (state result : AgentState)
        (s s' : Sys) :
  developNextTask host state s = (Ok result, s') ->
  (st_commits result = VArr []
   /\ st_status result = VStr "Project completed - no more tasks"
   /\ isCompleted (localState s') = true)
  \/ (exists task title p request t,
        selectTask (getRemainingTasks host (memoryService s)) (st_plan state)
        = Ok (Some task)
        /\ repos_createOrUpdateFileContents host t request = Ok tt
        /\ (instant s <= t < instant s')%nat
        /\ st_commits result = commitsOf request
        /\ get task "title" = Ok title
        /\ get task "filePath" = Ok (VStr p)
        /\ st_currentTask result = title
        /\ commit_message request
           = ("feat: implement " ++ toString title)%string
        /\ commit_repo request
           = toString (get_or_undefined (st_repo state) "name")
        /\ commit_path request = normalizeFilePath p (toString title)
        /\ headIs Js.is_slash (chars_of (commit_path request)) = false
        /\ headIs Js.is_slash (rev (chars_of (commit_path request))) = false
        /\ noDoubleSlash (chars_of (commit_path request)) = true
        /\ Js.includes ["."%char] (chars_of (commit_path request)) = true).
Proof.
  intros H. unfold developNextTask, try_catch in H.
  destruct (developTask host state s) as [[r|e] s0] eqn:E.
  2:{ destruct (@recordFailure_run host AgentState e s0)
        as (x & _ & _ & Hx & _).
      rewrite Hx in H. discriminate. }
  inversion H; subst r s0. clear H.
  unfold developTask in E.
  apply bind_ok_inv in E as (projectSpec & s1 & Hc & E).
  pose proof (advances_checkInputs _ _ _ _ Hc) as A1.
  pose proof (keeps_checkInputs _ _ _ _ _ Hc) as M1.
  apply bind_ok_inv in E as (remaining & s2 & Hr & E).
  inversion Hr; subst s2 remaining. clear Hr.
  apply bind_ok_inv in E as (selected & s3 & Hs & E).
  unfold lift in Hs. inversion Hs as [[Hsel Es]]. subst s3. clear Hs.
  destruct selected as [task|].
  - right.
    apply bind_ok_inv in E as (request & s4 & Hp & E).
    apply bind_ok_inv in E as ([] & s5 & Hcommit & E).
    pose proof (advances_prepareCommit _ _ _ _ _ _ Hp) as A4.
    destruct (commitFile_accepted _ _ _ _ _ Hcommit) as (Acc & I5).
    pose proof (advances_recordCompletion _ _ _ _ _ _ _ E) as A5.
    destruct (prepareCommit_request _ _ _ _ _ _ Hp)
      as (title & p & Ht & Hf & Hpath & Hmsg & Hrepo & _).
    apply recordCompletion_result in E as (updated & ->).
    destruct (normalizeFilePath_shape p (toString title))
      as (_ & Dot & Lead & Trail & Dbl).
    cbv zeta in *.
    exists task, title, p, request, (instant s4).
    split; [now rewrite <- M1|].
    split; [exact Acc|]. split; [lia|].
    split; [reflexivity|]. split; [exact Ht|]. split; [exact Hf|].
    split.
    { cbn [st_currentTask with_progress]. unfold get_or_undefined.
      now rewrite Ht. }
    split; [exact Hmsg|]. split; [exact Hrepo|]. split; [exact Hpath|].
    rewrite Hpath. repeat split; assumption.
  - left. unfold bind, now, memory_write, ret in E.
    inversion E. repeat split.
Qed.

(** A state whose repository is the mock one does not pass the check
    of the inputs. *)
Lemma checkInputs_mock state s :
  is_str "mock-repo" (get_or_undefined (st_repo state) "name") = true ->
  exists e,
    checkInputs host state s = (Throw e, s)
    /\ (validateState state ["projectSpec"; "plan"; "repo"] = Ok tt ->
        (exists projectSpec,
            parse host (toString (st_projectSpec state)) = Ok projectSpec) ->
        e = Error "No valid repository found")
    /\ (validateState state ["projectSpec"; "plan"; "repo"] = Ok tt ->
        JSON_parse host (toString (st_projectSpec state)) = None ->
        e = Error "Invalid projectSpec or plan JSON").
Proof.
  intros Hm. unfold checkInputs, bind, lift, try_catch, throw.
  destruct (validateState state _) as [[]|e1].
  2:{ exists e1. split; [reflexivity|split; discriminate]. }
  unfold parse.
  destruct (JSON_parse host (toString (st_projectSpec state))) as [spec|].
  - rewrite Hm, !orb_true_r. eexists. split; [reflexivity|].
    split; [reflexivity|discriminate].
  - eexists. split; [reflexivity|]. split; [|reflexivity].
    intros _ [x Hx]. discriminate.
Qed.

(** The run of the cycle on the mock repository. *)
Lemma developNextTask_mock (state : AgentState) (s : Sys) :
  is_str "mock-repo" (get_or_undefined (st_repo state) "name") = true ->
  exists e s',
    developNextTask host state s = (Throw e, s')
    /\ (validateState state ["projectSpec"; "plan"; "repo"] = Ok tt ->
        (exists projectSpec,
            parse host (toString (st_projectSpec state)) = Ok projectSpec) ->
        e = Error "No valid repository found")
    /\ (validateState state ["projectSpec"; "plan"; "repo"] = Ok tt ->
        JSON_parse host (toString (st_projectSpec state)) = None ->
        e = Error "Invalid projectSpec or plan JSON")
    /\ logOf s'
       = logOf s
         ++ failureEntry host (Date_toISOString host (instant s))
              (Date_toISOString host (S (instant s))) e
    /\ localState s' = localState s
    /\ sent s' = sent s
    /\ cronScheduler s' = cronScheduler s
    /\ instant s' = S (S (instant s)).
Proof.
  intros Hm. destruct (checkInputs_mock state s Hm) as (e & Hc & He & Hp).
  exists e. eexists. split.
  { unfold developNextTask, developTask.
    erewrite try_catch_throw; [reflexivity|].
    erewrite bind_throw; [reflexivity|exact Hc]. }
  split; [exact He|]. split; [exact Hp|]. repeat split.
Qed.


(** A commit that returned has sent the notification of the
    commit. *)
Lemma commitFile_sent state task request s s' :
  commitFile host state task request s = (Ok tt, s') ->
  memoryService s' = memoryService s
  /\ sent s'
     = sent s ++ [CommitNotification (commit_message request)
                    (commit_path request) (st_repo state)
                    (get_or_undefined task "title")].
Proof.
  unfold commitFile, try_catch, bind, call, notify, throw.
  destruct (repos_createOrUpdateFileContents host (instant s) request)
    as [[]|e]; [|discriminate].
  intros H. inversion H. split; reflexivity.
Qed.

(** The record of a completed task, in full: the queue becomes the
    filtered list, the flag of completion is set when that list is
    empty, and the completion of the task is notified. *)
Lemma recordCompletion_run state remaining task request s result s' :
  recordCompletion host state remaining task request s = (Ok result, s') ->
  exists l,
    filterOutTitle (get_or_undefined task "title") remaining = Ok (VArr l)
    /\ remainingTasks (localState s') = VArr l
    /\ st_remainingTasks result = VNum (Z.of_nat (length l))
    /\ isCompleted (localState s')
       = (if (length l =? 0)%nat then true else isCompleted (localState s))
    /\ sent s'
       = sent s ++ [TaskCompletionNotification
                      (get_or_undefined task "title")
                      (VNum (Z.of_nat (length l))) (st_repo state)].
Proof.
  unfold recordCompletion. intros H.
  apply bind_ok_inv in H as (t & s1 & Ht & H).
  unfold now in Ht. inversion Ht; subst t s1. clear Ht.
  apply bind_ok_inv in H as ([] & s2 & Hs & H).
  unfold saveTaskProgressM, bind, now, memory_write in Hs.
  inversion Hs; subst s2. clear Hs.
  apply bind_ok_inv in H as (updated & s3 & Hf & H).
  unfold lift in Hf. inversion Hf as [[Ef Es]]. subst s3. clear Hf.
  destruct (filterOutTitle_array _ _ _ Ef) as [l ->].
  exists l. split; [exact Ef|].
  unfold updateRemainingTasksM, markProjectCompletedM, bind, now,
    memory_run, memory_write, notify, ret, updateRemainingTasks in H.
  cbn [get] in H.
  replace (String.eqb "length" "length") with true in H by reflexivity.
  cbn in H.
  destruct l as [|x l].
  - cbn in H. inversion H. repeat split.
  - replace (Z.of_nat (length (x :: l)) =? 0)%Z with false in H
      by (symmetry; apply Z.eqb_neq; simpl length; lia).
    cbn in H. inversion H. repeat split.
Qed.

(** X24: every successful cycle shortens the queue.  From a queue
    that is an array whose head has a string for title, a cycle that
    returns leaves a strictly shorter array as the queue and reports
    its length; the project is marked completed exactly when that
    array is empty (otherwise the flag is the one before); and the
    cycle has sent two notifications, of the commit and of the
    completion of the task, in this order. *)
Theorem successful_cycle_makes_progress (state result : AgentState)
        (s s' : Sys) (task : value) (rest : list value) (title : string) :
  remainingTasks (localState s) = VArr (task :: rest) ->
  get task "title" = Ok (VStr title) ->
  developNextTask host state s = (Ok result, s') ->
  exists queue request,
    remainingTasks (localState s') = VArr queue
    /\ (length queue <= length rest)%nat
    /\ st_remainingTasks result = VNum (Z.of_nat (length queue))
    /\ isCompleted (localState s')
       = (if (length queue =? 0)%nat then true
          else isCompleted (localState s))
    /\ sent s'
       = sent s
         ++ [CommitNotification (commit_message request)
               (commit_path request) (st_repo state) (VStr title);
             TaskCompletionNotification (VStr title)
               (VNum (Z.of_nat (length queue))) (st_repo state)].
Proof.
  intros Hq Ht Hrun.
  assert (Ht' : get_or_undefined task "title" = VStr title).
  { unfold get_or_undefined. now rewrite Ht. }
  unfold developNextTask, try_catch in Hrun.
  destruct (developTask host state s) as [[r|e] s0] eqn:E.
  2:{ destruct (@recordFailure_run host AgentState e s0)
        as (x & _ & _ & Hx & _).
      rewrite Hx in Hrun. discriminate. }
  inversion Hrun; subst r s0. clear Hrun.
  unfold developTask in E.
  apply bind_ok_inv in E as (projectSpec & s1 & Hc & E).
  pose proof (keeps_checkInputs _ _ _ _ _ Hc) as M1.
  assert (N1 : sent s1 = sent s).
  { revert Hc. unfold checkInputs.
    match goal with |- ?m s = _ -> _ => assert (P : preserves sent m) end.
    { preserves. }
    apply P. }
  apply bind_ok_inv in E as (remaining & s2 & Hr & E).
  unfold memory_read in Hr. inversion Hr; subst s2 remaining. clear Hr.
  rewrite M1 in E.
  rewrite (getRemainingTasks_cached host _ _ Hq) in E.
  apply bind_ok_inv in E as (selected & s3 & Hs & E).
  unfold lift in Hs. rewrite selectTask_head in Hs.
  inversion Hs; subst selected s3. clear Hs.
  apply bind_ok_inv in E as (request & s4 & Hp & E).
  pose proof (keeps_prepareCommit _ _ _ _ _ _ _ Hp) as M4.
  assert (N4 : sent s4 = sent s1).
  { revert Hp. unfold prepareCommit, generateCode, lookupSha.
    match goal with |- ?m s1 = _ -> _ => assert (P : preserves sent m) end.
    { preserves. }
    apply P. }
  apply bind_ok_inv in E as ([] & s5 & Hcommit & E).
  destruct (commitFile_sent _ _ _ _ _ Hcommit) as (M5 & N5).
  apply recordCompletion_run in E as (l & Hf & Hq' & Hrem & Hdone & Hsent).
  rewrite Ht' in *.
  apply filterOutTitle_filter in Hf. inversion Hf; subst l. clear Hf.
  exists (withoutTasksTitled title (task :: rest)), request.
  split; [exact Hq'|].
  split.
  { unfold withoutTasksTitled. cbn [filter]. rewrite Ht'.
    unfold is_str, strict_eq. rewrite String.eqb_refl. cbn [negb].
    apply filter_length_le. }
  split; [exact Hrem|].
  split.
  { rewrite Hdone. unfold localState. now rewrite M5, M4, M1. }
  rewrite Hsent, N5, N4, N1, <- app_assoc. reflexivity.
Qed.

End DevelopmentOutcomes.

(** X6 on [Demo.conflictHost], which rejects every commit: the cycle
    fails and the local state is the one before. *)
Lemma failed_cycle_keeps_state_witness :
  let queue := [Demo.setup; Demo.server] in
  exists e s',
    developNextTask Demo.conflictHost (Demo.state queue) (Demo.sys queue)
    = (Throw e, s')
    /\ localState s' = localState (Demo.sys queue).
Proof.
  cbv zeta.
  destruct (developNextTask Demo.conflictHost
              (Demo.state [Demo.setup; Demo.server])
              (Demo.sys [Demo.setup; Demo.server]))
    as [[result|e] s'] eqn:E.
  - exfalso. vm_compute in E. discriminate E.
  - exists e, s'. split; [reflexivity|].
    exact (proj1 (failed_cycle_keeps_state Demo.conflictHost _ _ _ _ E)).
Defined.

(** X7 on [Demo.host]: the cycle for the queue of [Demo.setup] and
    [Demo.server] reports the commit of package.json, which the host
    accepted. *)
Lemma reported_commit_was_accepted_witness :
  let queue := [Demo.setup; Demo.server] in
  exists result s' request t,
    developNextTask Demo.host (Demo.state queue) (Demo.sys queue)
    = (Ok result, s')
    /\ repos_createOrUpdateFileContents Demo.host t request = Ok tt
    /\ st_commits result = commitsOf request
    /\ commit_path request = "package.json".
Proof.
  cbv zeta.
  destruct (developNextTask Demo.host
              (Demo.state [Demo.setup; Demo.server])
              (Demo.sys [Demo.setup; Demo.server]))
    as [[result|e] s'] eqn:E.
  2:{ exfalso. vm_compute in E. discriminate E. }
  destruct (reported_commit_was_accepted Demo.host _ _ _ _ E)
    as [(C & _)|(task & title & p & request & t & Sel & Acc & _ & Com & Ht
                 & Hf & _ & _ & _ & Hp & _)].
  - exfalso. vm_compute in E. inversion E as [[Er Es]].
    rewrite <- Er in C. discriminate C.
  - exists result, s', request, t.
    split; [reflexivity|]. split; [exact Acc|]. split; [exact Com|].
    vm_compute in Sel. inversion Sel; subst task.
    vm_compute in Ht. inversion Ht; subst title.
    vm_compute in Hf. inversion Hf; subst p.
    rewrite Hp. vm_compute. reflexivity.
Defined.


(* ================================================================== *)
(** * The cleaning of generated text *)
(* ================================================================== *)

Section Fences.

Lemma starts_with_fence_inv s :
  Js.starts_with fence s = true ->
  exists t, s = backquote :: backquote :: backquote :: t.
Proof.
  change fence with [backquote; backquote; backquote].
  destruct s as [|a [|b [|c t]]]; cbn [Js.starts_with];
    rewrite ?andb_false_r; try discriminate.
  intros H.
  apply andb_true_iff in H as [Ha H].
  apply andb_true_iff in H as [Hb H].
  apply andb_true_iff in H as [Hc _].
  apply eqc_true in Ha, Hb, Hc. subst. now exists t.
Qed.

Lemma replace_fence_step t :
  Js.replace_lit fence [] 0 (backquote :: backquote :: backquote :: t)
  = Js.replace_lit fence [] 0 t.
Proof. reflexivity. Qed.

Lemma replace_fence_other c t :
  Js.starts_with fence (c :: t) = false ->
  Js.replace_lit fence [] 0 (c :: t) = c :: Js.replace_lit fence [] 0 t.
Proof. intros H. cbn [Js.replace_lit]. now rewrite H. Qed.

(** The text left starts with a backquote only where the text given
    did. *)
Lemma replace_fence_head s :
  Js.starts_with [backquote] (Js.replace_lit fence [] 0 s) = true ->
  Js.starts_with [backquote] s = true.
Proof.
  destruct s as [|c t]; [discriminate|].
  destruct (Js.starts_with fence (c :: t)) eqn:F.
  - destruct (starts_with_fence_inv _ F) as [t' E]. now rewrite E.
  - rewrite (replace_fence_other _ _ F). cbn [Js.starts_with]. auto.
Qed.

Lemma replace_fence_head2 s :
  Js.starts_with [backquote; backquote] (Js.replace_lit fence [] 0 s) = true ->
  Js.starts_with [backquote; backquote] s = true.
Proof.
  destruct s as [|c t]; [discriminate|].
  destruct (Js.starts_with fence (c :: t)) eqn:F.
  - destruct (starts_with_fence_inv _ F) as [t' E]. now rewrite E.
  - rewrite (replace_fence_other _ _ F).
    cbn [Js.starts_with]. intros H.
    apply andb_true_iff in H as [Hc H]. rewrite Hc. cbn [andb].
    apply replace_fence_head. exact H.
Qed.

(** After the second replacement no fence is left. *)
Lemma replace_fence_none n : forall s,
  (length s <= n)%nat ->
  Js.includes fence (Js.replace_lit fence [] 0 s) = false.
Proof.
  induction n as [|n IH]; intros s L.
  - destruct s; [reflexivity|simpl in L; lia].
  - destruct s as [|c t]; [reflexivity|].
    destruct (Js.starts_with fence (c :: t)) eqn:F.
    + destruct (starts_with_fence_inv _ F) as [t' E]. rewrite E in *.
      rewrite replace_fence_step. apply IH. simpl in L. lia.
    + rewrite (replace_fence_other _ _ F).
      cbn [Js.includes]. rewrite (IH t) by (simpl in L; lia).
      rewrite orb_false_r.
      destruct (Js.starts_with fence (c :: Js.replace_lit fence [] 0 t))
        eqn:G; [|reflexivity].
      exfalso. change fence with [backquote; backquote; backquote] in *.
      cbn [Js.starts_with] in G, F.
      apply andb_true_iff in G as [Gc G]. rewrite Gc in F. cbn [andb] in F.
      apply replace_fence_head2 in G. cbn [Js.starts_with] in G.
      rewrite G in F. discriminate.
Qed.

Lemma starts_with_app w : forall a z,
  Js.starts_with w a = true -> Js.starts_with w (a ++ z) = true.
Proof.
  induction w as [|x w IH]; intros a z; [reflexivity|].
  destruct a as [|y a]; [discriminate|]. cbn.
  intros H. apply andb_true_iff in H as [H1 H2].
  now rewrite H1, (IH _ _ H2).
Qed.

Lemma includes_prefix w a z :
  Js.includes w (a ++ z) = false -> Js.includes w a = false.
Proof.
  induction a as [|y a IH]; intros H.
  - cbn. rewrite orb_false_r.
    destruct (Js.starts_with w []) eqn:S; [|reflexivity].
    apply (starts_with_app _ _ z) in S. cbn [app] in *.
    destruct z; cbn [Js.includes] in H; rewrite S in H; discriminate.
  - cbn [app Js.includes] in *.
    apply orb_false_iff in H as [H1 H2].
    rewrite (IH H2), orb_false_r.
    destruct (Js.starts_with w (y :: a)) eqn:S; [|reflexivity].
    apply (starts_with_app _ _ z) in S. cbn [app] in S. congruence.
Qed.

Lemma includes_dropWhile w p s :
  Js.includes w s = false -> Js.includes w (Js.dropWhile p s) = false.
Proof.
  induction s as [|c t IH]; intros H; [exact H|].
  cbn [Js.dropWhile]. destruct (p c); [|exact H].
  apply IH. cbn [Js.includes] in H.
  now apply orb_false_iff in H as [_ H].
Qed.

Lemma includes_trim w s :
  Js.includes w s = false -> Js.includes w (Js.trim s) = false.
Proof.
  intros H. unfold Js.trim.
  destruct (dropWhileEnd_prefix Js.is_space (Js.dropWhile Js.is_space s))
    as [z E].
  apply (includes_prefix _ _ z). rewrite <- E.
  now apply includes_dropWhile.
Qed.

Lemma trim_shape s :
  headIs Js.is_space (Js.trim s) = false
  /\ headIs Js.is_space (rev (Js.trim s)) = false.
Proof.
  unfold Js.trim. split.
  - destruct (dropWhileEnd_prefix Js.is_space (Js.dropWhile Js.is_space s))
      as [z E].
    apply (headIs_prefix _ _ z). rewrite <- E. apply headIs_dropWhile.
  - unfold Js.dropWhileEnd. rewrite rev_involutive. apply headIs_dropWhile.
Qed.

(** What both cleanings end with: the removal of the fences that are
    left, then [trim]. *)
Lemma cleaned_shape u :
  let text := Js.trim (Js.replace_lit fence [] 0 u) in
  Js.includes fence text = false
  /\ headIs Js.is_space text = false
  /\ headIs Js.is_space (rev text) = false.
Proof.
  cbv zeta. split; [|apply trim_shape].
  apply includes_trim. now apply (replace_fence_none (length u)).
Qed.

Variable host : Host.

(** X9: the text the agents keep of an answer of the model holds no
    code fence (three backquotes in a row) and neither starts nor ends
    with white space: so for the cleaning of generated code, for the
    cleaning of a generated README, and for whatever [generateCode]
    returns, the first answer or the answer to the second prompt. *)
Theorem cleaned_text_has_no_fence :
  (forall text,
      let code := chars_of (cleanCode text) in
      Js.includes fence code = false
      /\ headIs Js.is_space code = false
      /\ headIs Js.is_space (rev code) = false)
  /\ (forall text,
         let readme := chars_of (cleanReadme text) in
         Js.includes fence readme = false
         /\ headIs Js.is_space readme = false
         /\ headIs Js.is_space (rev readme) = false)
  /\ (forall projectSpec task s codeContent s',
         generateCode host projectSpec task s = (Ok codeContent, s') ->
         Js.includes fence (chars_of codeContent) = false
         /\ headIs Js.is_space (chars_of codeContent) = false
         /\ headIs Js.is_space (rev (chars_of codeContent)) = false).
Proof.
  assert (C : forall text,
             Js.includes fence (chars_of (cleanCode text)) = false
             /\ headIs Js.is_space (chars_of (cleanCode text)) = false
             /\ headIs Js.is_space (rev (chars_of (cleanCode text))) = false).
  { intros text. unfold cleanCode. rewrite string_chars_roundtrip.
    apply cleaned_shape. }
  split; [exact C|]. split.
  - intros text. cbv zeta. unfold cleanReadme.
    rewrite string_chars_roundtrip. apply cleaned_shape.
  - intros projectSpec task s codeContent s' H.
    unfold generateCode in H.
    apply bind_ok_inv in H as (p & s1 & _ & H).
    apply bind_ok_inv in H as (response & s2 & _ & H).
    destruct (String.length (cleanCode response) <? 10)%nat;
      [discriminate H|].
    destruct (hasNonCodePattern (cleanCode response)
              && (String.length (cleanCode response) <? 200)%nat).
    + apply bind_ok_inv in H as (p' & s3 & _ & H).
      apply bind_ok_inv in H as (retry & s4 & _ & H).
      unfold ret in H. inversion H. apply C.
    + unfold ret in H. inversion H. apply C.
Qed.

End Fences.

(** X24 on [Demo.host]: from the queue of [Demo.setup] and
    [Demo.server] one cycle leaves one task. *)
Lemma successful_cycle_makes_progress_witness :
  let queue := [Demo.setup; Demo.server] in
  exists result s' left,
    developNextTask Demo.host (Demo.state queue) (Demo.sys queue)
    = (Ok result, s')
    /\ remainingTasks (localState s') = VArr left
    /\ (length left <= 1)%nat.
Proof.
  cbv zeta.
  destruct (developNextTask Demo.host
              (Demo.state [Demo.setup; Demo.server])
              (Demo.sys [Demo.setup; Demo.server]))
    as [[result|e] s'] eqn:E.
  2:{ exfalso. vm_compute in E. discriminate E. }
  destruct (successful_cycle_makes_progress Demo.host
              (Demo.state [Demo.setup; Demo.server]) result
              (Demo.sys [Demo.setup; Demo.server]) s'
              Demo.setup [Demo.server] "Project setup" eq_refl eq_refl E)
    as (left & request & Q & L & _).
  exists result, s', left. split; [reflexivity|]. split; [exact Q|exact L].
Defined.

(* ================================================================== *)
(** * The setup agents: what they hand on *)
(* ================================================================== *)

Lemma string_length_app (a b : string) :
  String.length (a ++ b) = (String.length a + String.length b)%nat.
Proof. induction a as [|c a IH]; simpl; [reflexivity|]. now rewrite IH. Qed.

Lemma string_of_length (l : Js.chars) :
  String.length (string_of l) = length l.
Proof. induction l as [|c l IH]; simpl; [reflexivity|]. now rewrite IH. Qed.

Section SetupAgents.

Variable host : Host.

(** One attempt at the README makes one call of the model; what it
    returns starts with a heading and has at least 100 characters. *)
Lemma readmeAttempt_run projectSpec repo s o s' :
  readmeAttempt host projectSpec repo s = (o, s') ->
  s' = tick s
  /\ forall readme,
       o = Ok readme ->
       Js.starts_with ["#"%char] (chars_of readme) = true
       /\ (100 <= String.length readme)%nat.
Proof.
  unfold readmeAttempt, bind, call.
  destruct (model_invoke host (instant s) _) as [response|e].
  2:{ intros H. inversion H. split; [reflexivity|discriminate]. }
  destruct (String.length (cleanReadme response) <? 100)%nat eqn:L.
  { unfold throw. intros H. inversion H. split; [reflexivity|discriminate]. }
  apply Nat.ltb_ge in L.
  destruct (Js.starts_with ["#"%char] (chars_of (cleanReadme response)))
    eqn:Hd.
  { unfold ret. intros H. inversion H. split; [reflexivity|].
    intros readme E. inversion E; subst readme. now split. }
  unfold lift, ret.
  destruct (get projectSpec "title") as [title|e].
  2:{ intros H. inversion H. split; [reflexivity|discriminate]. }
  intros H. inversion H. split; [reflexivity|].
  intros readme E. inversion E; subst readme. split; [reflexivity|].
  cbn [String.length]. rewrite string_length_app. cbn [String.length]. lia.
Qed.

Lemma readmeAttempts_run attempts : forall lastError projectSpec repo s o s',
  readmeAttempts host attempts lastError projectSpec repo s = (o, s') ->
  memoryService s' = memoryService s
  /\ sent s' = sent s
  /\ cronScheduler s' = cronScheduler s
  /\ (forall readme,
         o = Ok readme ->
         Js.starts_with ["#"%char] (chars_of readme) = true
         /\ (100 <= String.length readme)%nat
         /\ (instant s < instant s' <= instant s + attempts)%nat)
  /\ (forall e,
         o = Throw e ->
         instant s' = (instant s + attempts)%nat
         /\ exists cause,
              e = Error ("Failed to generate README after 3 attempts: "
                         ++ cause)).
Proof.
  induction attempts as [|k IH]; intros lastError projectSpec repo s o s' H.
  - cbn [readmeAttempts] in H. unfold throw in H. inversion H; subst o s'.
    split; [reflexivity|]. split; [reflexivity|]. split; [reflexivity|].
    split; [discriminate|].
    intros e0 E. inversion E; subst e0. split; [lia|].
    now exists (message_of lastError).
  - cbn [readmeAttempts] in H. unfold try_catch in H.
    destruct (readmeAttempt host projectSpec repo s) as [[r|e1] s1] eqn:A;
      destruct (readmeAttempt_run _ _ _ _ _ A) as (-> & Shape).
    + inversion H; subst o s'.
      split; [reflexivity|]. split; [reflexivity|]. split; [reflexivity|].
      split; [|discriminate].
      intros readme E. destruct (Shape readme E) as (P1 & P2).
      split; [exact P1|]. split; [exact P2|]. cbn. lia.
    + destruct (IH _ _ _ _ _ _ H) as (M & N & C & Ok' & Th).
      cbn [memoryService sent cronScheduler instant tick] in *.
      split; [exact M|]. split; [exact N|]. split; [exact C|]. split.
      * intros readme E. destruct (Ok' readme E) as (P1 & P2 & P3).
        repeat split; auto; lia.
      * intros e E. destruct (Th e E) as (P1 & P2). split; [lia|exact P2].
Qed.

(** The three attempts, as a run of the generator. *)
Lemma generateAIReadme_run projectSpec repo s o s' :
  generateAIReadme host projectSpec repo s = (o, s') ->
  memoryService s' = memoryService s
  /\ sent s' = sent s
  /\ cronScheduler s' = cronScheduler s
  /\ (forall readme,
         o = Ok readme ->
         Js.starts_with ["#"%char] (chars_of readme) = true
         /\ (100 <= String.length readme)%nat
         /\ (instant s < instant s' <= instant s + 3)%nat)
  /\ (forall e,
         o = Throw e ->
         instant s' = (instant s + 3)%nat
         /\ exists cause,
              e = Error ("Failed to generate README after 3 attempts: "
                         ++ cause)).
Proof. apply readmeAttempts_run. Qed.


Lemma truncateDescription_length d :
  (String.length (truncateDescription d) <= 350)%nat.
Proof.
  unfold truncateDescription.
  destruct (350 <? String.length d)%nat eqn:L.
  - apply Nat.ltb_lt in L.
    rewrite string_length_app, string_of_length. unfold Js.substring0.
    rewrite length_firstn. simpl String.length. lia.
  - apply Nat.ltb_ge in L. exact L.
Qed.

Lemma repoDescriptionOf_length projectSpec d :
  repoDescriptionOf projectSpec = Ok d -> (String.length d <= 350)%nat.
Proof.
  unfold repoDescriptionOf.
  destruct (get projectSpec "complexity") as [complexity|];
    destruct (get projectSpec "type") as [type|];
    destruct (get projectSpec "title") as [title|];
    destruct (get projectSpec "description") as [description|];
    destruct (get projectSpec "techStack") as [techStack|];
    try discriminate.
  destruct (lowerCaseOf complexity) as [c|];
    destruct (lowerCaseOf type) as [t|]; try discriminate.
  destruct (truthy techStack && gt0 (get_or_undefined techStack "length")).
  - destruct (join techStack ", ") as [stack|]; [|discriminate].
    intros H. inversion H. apply truncateDescription_length.
  - intros H. inversion H. apply truncateDescription_length.
Qed.

(** X11: the description of the repository never exceeds 350
    characters: a longer text is cut to its first 347 characters
    followed by three dots, a text of at most 350 characters is kept
    as it is, and so every description [repoDescriptionOf] builds
    from a specification has at most 350 characters. *)
Theorem repository_description_is_bounded :
  (forall d, (String.length (truncateDescription d) <= 350)%nat)
  /\ (forall d,
         (String.length d <= 350)%nat -> truncateDescription d = d)
  /\ (forall d,
         (350 < String.length d)%nat ->
         String.length (truncateDescription d) = 350%nat
         /\ truncateDescription d
            = (string_of (firstn 347 (chars_of d)) ++ "...")%string)
  /\ (forall projectSpec d,
         repoDescriptionOf projectSpec = Ok d ->
         (String.length d <= 350)%nat).
Proof.
  split; [exact truncateDescription_length|].
  split.
  { intros d L. unfold truncateDescription.
    apply Nat.ltb_ge in L. now rewrite L. }
  split; [|exact repoDescriptionOf_length].
  intros d L. unfold truncateDescription.
  pose proof L as L'. apply Nat.ltb_lt in L'. rewrite L'.
  split; [|reflexivity].
  rewrite string_length_app, string_of_length. unfold Js.substring0.
  rewrite length_firstn, chars_of_length. simpl String.length. lia.
Qed.

(** X12: what the first two setup agents hand on is always a text,
    and a text that was checked.  The specification [generateIdea]
    stores is the cleaned answer of the model, which the host parses,
    or else the fallback specification; the plan [planProject] stores
    is the cleaned answer of the model, which parses to an object
    whose tasks are an array, or else the fallback plan; no other
    field of the state changes, and each agent asks the model at most
    once. *)
Theorem setup_answers_are_checked (state : AgentState) (s : Sys) :
  (exists text s',
      generateIdea host state s
      = (Ok (with_projectSpec (VStr text) state), s')
      /\ (instant s' <= S (instant s))%nat
      /\ (text = JSON_stringify host (fallbackSpec state)
          \/ exists spec, JSON_parse host text = Some spec))
  /\ (exists text s',
         planProject host state s = (Ok (with_plan (VStr text) state), s')
         /\ (instant s' <= S (instant s))%nat
         /\ (text = JSON_stringify host fallbackPlan
             \/ exists plan tasks,
                  JSON_parse host text = Some plan
                  /\ get plan "tasks" = Ok (VArr tasks))).
Proof.
  split.
  - unfold generateIdea, try_catch, bind, lift, call, ret, throw.
    destruct (validateState state ["complexity"]) as [[]|];
      [|eexists _, _; split; [reflexivity|split; [lia|now left]]].
    destruct (ideaPrompt state) as [p|];
      [|eexists _, _; split; [reflexivity|split; [lia|now left]]].
    destruct (model_invoke host (instant s) p) as [response|];
      [|eexists _, _; split; [reflexivity|split; [cbn; lia|now left]]].
    unfold parse.
    destruct (JSON_parse host (cleanJson response)) as [spec|] eqn:P;
      eexists _, _; (split; [reflexivity|split; [cbn; lia|]]).
    + right. now exists spec.
    + now left.
  - unfold planProject, try_catch, bind, lift, call, ret, throw.
    destruct (validateState state ["projectSpec"]) as [[]|];
      [|eexists _, _; split; [reflexivity|split; [lia|now left]]].
    destruct (parse host (toString (st_projectSpec state))) as [spec|];
      [|eexists _, _; split; [reflexivity|split; [lia|now left]]].
    destruct (model_invoke host (instant s) (PlanPrompt spec))
      as [response|];
      [|eexists _, _; split; [reflexivity|split; [cbn; lia|now left]]].
    unfold parse.
    destruct (JSON_parse host (cleanJson response)) as [plan|] eqn:P;
      [|eexists _, _; split; [reflexivity|split; [cbn; lia|now left]]].
    destruct (get plan "tasks") as [tasks|] eqn:G;
      [|eexists _, _; split; [reflexivity|split; [cbn; lia|now left]]].
    destruct (negb (truthy tasks) || negb (isArray tasks)) eqn:C;
      eexists _, _; (split; [reflexivity|split; [cbn; lia|]]).
    + now left.
    + right. apply orb_false_iff in C as [_ A].
      apply negb_false_iff in A.
      destruct tasks; try discriminate. now exists plan, items.
Qed.

Lemma ensureRepository_ok owner name description s r s' :
  ensureRepository host owner name description s = (Ok r, s') ->
  (instant s < instant s' <= instant s + 2)%nat
  /\ memoryService s' = memoryService s.
Proof.
  unfold ensureRepository, try_catch, call, throw.
  destruct (repos_get host (instant s) owner name) as [r0|e].
  - intros H. inversion H. cbn. split; [lia|reflexivity].
  - destruct (is404 e); [|discriminate].
    intros H. inversion H. cbn. split; [lia|reflexivity].
Qed.

(** What a repository step that went through has done. *)
Lemma createRepository_ok state projectSpec s st' s' :
  createRepository host state projectSpec s = (Ok st', s') ->
  exists title r request t,
    get projectSpec "title" = Ok (VStr title)
    /\ st' = with_repo (VObj [("name", VStr (repo_name r));
                              ("url", VStr (repo_html_url r))]) state
    /\ repos_createOrUpdateFileContents host t request = Ok tt
    /\ (instant s < t < instant s')%nat
    /\ commit_repo request = repoName title
    /\ commit_path request = "README.md"
    /\ Js.starts_with ["#"%char] (chars_of (commit_content request)) = true
    /\ (100 <= String.length (commit_content request))%nat
    /\ memoryService s' = memoryService s.
Proof.
  unfold createRepository. intros H.
  apply bind_ok_inv in H as (title & s1 & Ht & H).
  apply bind_ok_inv in H as (name & s2 & Hn & H).
  apply bind_ok_inv in H as (description & s3 & Hd & H).
  apply bind_ok_inv in H as (owner & s4 & Ho & H).
  apply bind_ok_inv in H as (r & s5 & Hr & H).
  apply bind_ok_inv in H as (readme & s6 & Hg & H).
  apply bind_ok_inv in H as (sha & s7 & Hs & H).
  apply bind_ok_inv in H as ([] & s8 & Hc & H).
  unfold ret in H. inversion H; subst st' s8. clear H.
  unfold lift in Ht, Hn, Hd.
  inversion Ht as [[Et E1]]. inversion Hn as [[En E2]].
  inversion Hd as [[Ed E3]]. subst s1 s2 s3. clear Ht Hn Hd.
  unfold call in Ho.
  destruct (users_getAuthenticated host (instant s)) as [o|]; [|discriminate].
  inversion Ho; subst o s4. clear Ho.
  destruct (ensureRepository_ok _ _ _ _ _ _ Hr) as (I5 & M5).
  destruct (generateAIReadme_run _ _ _ _ _ Hg) as (M6 & _ & _ & Shape & _).
  destruct (Shape readme eq_refl) as (Hash & Len & I6).
  assert (I7 : (instant s6 <= instant s7)%nat /\ memoryService s7 = memoryService s6).
  { revert Hs. unfold readmeSha, try_catch, bind, call, ret, throw.
    destruct (repos_getContent host (instant s6) owner name "README.md").
    - intros H. inversion H. cbn. split; [lia|reflexivity].
    - destruct (is404 e); intros H; inversion H. cbn.
      split; [lia|reflexivity]. }
  destruct I7 as (I7 & M7).
  unfold call in Hc.
  destruct (repos_createOrUpdateFileContents host (instant s7) _)
    as [[]|] eqn:Acc; [|discriminate].
  inversion Hc; subst s'. clear Hc.
  unfold repoNameOf in En. destruct title; try discriminate.
  inversion En; subst name.
  eexists s0, r, _, (instant s7).
  split; [exact Et|]. split; [reflexivity|]. split; [exact Acc|].
  cbn [instant tick] in *.
  split; [lia|]. split; [reflexivity|]. split; [reflexivity|].
  split; [exact Hash|]. split; [exact Len|].
  cbn [memoryService tick] in *. now rewrite M7, M6, M5.
Qed.

(** What the repository step returns, and what it has done by then. *)
Lemma manageRepository_run state st' s s' :
  manageRepository host state s = (Ok st', s') ->
  memoryService s' = memoryService s
  /\ (st' = with_repo mockRepo state
      \/ exists projectSpec title r request t,
           parse host (toString (st_projectSpec state)) = Ok projectSpec
           /\ get projectSpec "title" = Ok (VStr title)
           /\ st' = with_repo (VObj [("name", VStr (repo_name r));
                                     ("url", VStr (repo_html_url r))]) state
           /\ repos_createOrUpdateFileContents host t request = Ok tt
           /\ (instant s < t < instant s')%nat
           /\ commit_repo request = repoName title
           /\ commit_path request = "README.md"
           /\ Js.starts_with ["#"%char] (chars_of (commit_content request))
              = true
           /\ (100 <= String.length (commit_content request))%nat).
Proof.
  intros H.
  assert (K : keeps_memory (manageRepository host state)).
  { unfold manageRepository, createRepository, ensureRepository, readmeSha,
      generateAIReadme.
    apply keeps_try_catch; [|intros ?; apply keeps_ret].
    apply keeps_bind; [apply keeps_lift|]. intros _.
    destruct (negb (GITHUB_TOKEN host)); [apply keeps_ret|].
    destruct (parse host _); [|apply keeps_ret].
    keeps. }
  split; [exact (K _ _ _ H)|].
  unfold manageRepository, try_catch in H.
  match type of H with
  | match ?body s with _ => _ end = _ =>
      destruct (body s) as [[r|e] s0] eqn:B
  end.
  2:{ unfold ret in H. inversion H. now left. }
  inversion H; subst r s0. clear H.
  apply bind_ok_inv in B as ([] & s1 & Hv & B).
  assert (Es : s1 = s) by (unfold lift in Hv; now inversion Hv).
  subst s1. clear Hv.
  destruct (negb (GITHUB_TOKEN host)).
  { unfold ret in B. inversion B. now left. }
  destruct (parse host (toString (st_projectSpec state))) as [spec|] eqn:P.
  2:{ unfold ret in B. inversion B. now left. }
  right.
  destruct (createRepository_ok _ _ _ _ _ B)
    as (title & r & request & t & Ht & E & Acc & I & Hrepo & Hpath
        & Hash & Len & _).
  exists spec, title, r, request, t.
  split; [reflexivity|]. split; [exact Ht|]. split; [exact E|].
  split; [exact Acc|]. split; [exact I|]. split; [exact Hrepo|].
  split; [exact Hpath|]. split; [exact Hash|exact Len].
Qed.

(** X13: the repository step reports a repository other than the
    mock one only after the README was committed to it.  When
    [manageRepository] returns a state whose repository is not the
    fallback, the host has accepted, during the step, a commit of
    README.md to the repository named by the slug of the title of the
    specification, and the content committed starts with a heading
    and has at least 100 characters.  In every case only the
    repository of the state changes, and the memory service is left
    alone. *)
Theorem repository_is_mock_or_has_readme (state st' : AgentState)
        (s s' : Sys) :
  manageRepository host state s = (Ok st', s') ->
  memoryService s' = memoryService s
  /\ (st' = with_repo mockRepo state
      \/ exists projectSpec title r request t,
           parse host (toString (st_projectSpec state)) = Ok projectSpec
           /\ get projectSpec "title" = Ok (VStr title)
           /\ st' = with_repo (VObj [("name", VStr (repo_name r));
                                     ("url", VStr (repo_html_url r))]) state
           /\ repos_createOrUpdateFileContents host t request = Ok tt
           /\ (instant s < t < instant s')%nat
           /\ commit_repo request = repoName title
           /\ commit_path request = "README.md"
           /\ Js.starts_with ["#"%char] (chars_of (commit_content request))
              = true
           /\ (100 <= String.length (commit_content request))%nat).
Proof. apply manageRepository_run. Qed.

End SetupAgents.


(** X13 on [Sample.host]: the repository step for the project "A"
    reports the repository a, whose README the host accepted. *)
Lemma repository_is_mock_or_has_readme_witness :
  exists st' s' request t,
    manageRepository Sample.host Demo.planned Sample.fresh = (Ok st', s')
    /\ st_repo st' = Demo.repo "a"
    /\ repos_createOrUpdateFileContents Sample.host t request = Ok tt
    /\ commit_path request = "README.md".
Proof.
  destruct (manageRepository Sample.host Demo.planned Sample.fresh)
    as [[st'|e] s'] eqn:E.
  2:{ exfalso. vm_compute in E. discriminate E. }
  destruct (repository_is_mock_or_has_readme Sample.host _ _ _ _ E)
    as (_ & [M|(spec & title & r & request & t & _ & _ & _ & Acc & _ & _
                & Hp & _)]).
  - exfalso. vm_compute in E. inversion E as [[Er Es]].
    rewrite <- Er in M. discriminate M.
  - exists st', s', request, t. split; [reflexivity|].
    split; [|split; [exact Acc|exact Hp]].
    vm_compute in E. inversion E. reflexivity.
Defined.

(* ================================================================== *)
(** * The orchestrator *)
(* ================================================================== *)

Section Orchestrator.

Variable host : Host.

Lemma total_initialGraph st : total (initialGraph host st).
Proof.
  unfold initialGraph.
  apply total_bind; [apply total_generateIdea|]. intros st1.
  apply total_bind; [apply total_planProject|]. intros st2.
  apply total_manageRepository.
Qed.

Lemma preserves_sent_initialGraph st : preserves sent (initialGraph host st).
Proof.
  unfold initialGraph, generateIdea, planProject, manageRepository,
    createRepository, ensureRepository, readmeSha, generateAIReadme.
  preserves.
Qed.

Lemma preserves_scheduler_initialGraph st :
  preserves cronScheduler (initialGraph host st).
Proof.
  unfold initialGraph, generateIdea, planProject, manageRepository,
    createRepository, ensureRepository, readmeSha, generateAIReadme.
  preserves.
Qed.

(** The two savings of [runInitialCycle], which never throw. *)
Lemma savePlan_run (result : AgentState) s :
  exists s',
    (if truthy (st_plan result) then
       try_catch
         (plan <- lift (parse host (toString (st_plan result))) ;;
          t <- now host ;;
          memory_run (saveProjectPlan host t plan (st_projectSpec result)))
         (fun _ => ret tt)
     else ret tt) s = (Ok tt, s')
    /\ sent s' = sent s
    /\ cronScheduler s' = cronScheduler s.
Proof.
  destruct (truthy (st_plan result)); [|now exists s].
  unfold try_catch, bind, lift, now, memory_run, ret.
  destruct (parse host (toString (st_plan result))) as [plan|e];
    [|now exists s].
  cbn [memoryService tick].
  destruct (saveProjectPlan host _ plan (st_projectSpec result)
              (memoryService s)) as [[[]|e] m'];
    eexists; (split; [reflexivity|split; reflexivity]).
Qed.

(** The run of the setup cycle. *)
Lemma runInitialCycle_run (input : SetupInput) (s : Sys) :
  exists result s' earlier t,
    runInitialCycle host input s = (Ok result, s')
    /\ isInitialized (localState s') = true
    /\ isProjectInitialized (memoryService s') = true
    /\ logOf s'
       = earlier
         ++ [mkMessage Human
               (format host (VObj [("step", VStr "initialization")]));
             mkMessage AI
               (format host (VObj [("status", VStr "done");
                                   ("timestamp", VStr t)]))]
    /\ sent s'
       = sent s
         ++ [ProjectStartNotification
               (or_else (in_projectName input) (VStr "AI Generated Project"))
               (or_else (in_complexity input) (VStr "beginner"))
               (or_else (in_techConstraints input) (VArr [VStr "Node.js"]))
               (st_repo result)]
    /\ cronScheduler s' = cronScheduler s.
Proof.
  destruct (total_initialGraph (initialState input) s) as (result & s1 & E1).
  pose proof (preserves_sent_initialGraph _ _ _ _ E1) as N1.
  pose proof (preserves_scheduler_initialGraph _ _ _ _ E1) as C1.
  destruct (savePlan_run result s1) as (s2 & E2 & N2 & C2).
  exists result.
  unfold runInitialCycle.
  erewrite bind_ok by exact E1.
  erewrite bind_ok by exact E2.
  destruct (truthy (st_repo result)).
  - eexists _, _, _. split; [reflexivity|].
    cbn. split; [reflexivity|]. split; [reflexivity|].
    split; [reflexivity|]. split; [now rewrite N2, N1|now rewrite C2, C1].
  - eexists _, _, _. split; [reflexivity|].
    cbn. split; [reflexivity|]. split; [reflexivity|].
    split; [reflexivity|]. split; [now rewrite N2, N1|now rewrite C2, C1].
Qed.

(** X14: the setup cycle always returns, and always ends with the
    project marked initialized: whatever the three agents answered or
    fell back to, the local flag is set, the last entry of the log is
    the initialization entry with the status done, exactly one
    notification (the start of the project) was sent, and the
    scheduler was not touched. *)
Theorem setup_cycle_marks_initialized (input : SetupInput) (s : Sys) :
  exists result s' earlier t,
    runInitialCycle host input s = (Ok result, s')
    /\ isInitialized (localState s') = true
    /\ isProjectInitialized (memoryService s') = true
    /\ logOf s'
       = earlier
         ++ [mkMessage Human
               (format host (VObj [("step", VStr "initialization")]));
             mkMessage AI
               (format host (VObj [("status", VStr "done");
                                   ("timestamp", VStr t)]))]
    /\ sent s'
       = sent s
         ++ [ProjectStartNotification
               (or_else (in_projectName input) (VStr "AI Generated Project"))
               (or_else (in_complexity input) (VStr "beginner"))
               (or_else (in_techConstraints input) (VArr [VStr "Node.js"]))
               (st_repo result)]
    /\ cronScheduler s' = cronScheduler s.
Proof. apply runInitialCycle_run. Qed.

(** The runs of the daily cycle that end before the development. *)
Lemma runDailyCycle_exits (s : Sys) :
  let m := memoryService s in
  (isProjectInitialized m = false ->
   runDailyCycle host s = (Ok (statusOnly "Project not initialized"), s))
  /\ (isProjectInitialized m = true -> isProjectCompleted m = true ->
      runDailyCycle host s = (Ok (statusOnly "Project completed"), s))
  /\ (isProjectInitialized m = true -> isProjectCompleted m = false ->
      truthy (getProjectSpec host m) = false ->
      runDailyCycle host s
      = (Ok (statusOnly "No project spec available"), s))
  /\ (isProjectInitialized m = true -> isProjectCompleted m = false ->
      truthy (getProjectSpec host m) = true ->
      negb (truthy (getRemainingTasks host m))
      || is0 (get_or_undefined (getRemainingTasks host m) "length") = true ->
      findOriginalPlan host m = None ->
      runDailyCycle host s
      = (Ok (statusOnly "Project completed"),
         set_memory
           (markProjectCompleted (Date_toISOString host (instant s)) m)
           (tick s))).
Proof.
  cbv zeta. unfold runDailyCycle. cbn [runDailyCycleFrom].
  unfold dailyCycle, bind, memory_read, ret.
  split; [|split; [|split]].
  - intros ->. reflexivity.
  - intros -> H2. cbn [negb]. now rewrite H2.
  - intros -> H2 H3. cbn [negb]. now rewrite H2, H3.
  - intros -> H2 H3 H4 H5. cbn [negb]. rewrite H2, H3. cbn [negb].
    now rewrite H4, H5.
Qed.

(** X15: the exits of the daily cycle that develop nothing.  A
    project that is not initialized, a project that is completed and a
    project without specification each return a status and leave the
    whole process as it was: memory service, scheduler, notifications
    and instant.  A project with no remaining task and no entry of the
    log with a task in it is marked completed, and nothing else
    changes. *)
Theorem daily_cycle_exits (s : Sys) :
  let m := memoryService s in
  (isProjectInitialized m = false ->
   runDailyCycle host s = (Ok (statusOnly "Project not initialized"), s))
  /\ (isProjectInitialized m = true -> isProjectCompleted m = true ->
      runDailyCycle host s = (Ok (statusOnly "Project completed"), s))
  /\ (isProjectInitialized m = true -> isProjectCompleted m = false ->
      truthy (getProjectSpec host m) = false ->
      runDailyCycle host s
      = (Ok (statusOnly "No project spec available"), s))
  /\ (isProjectInitialized m = true -> isProjectCompleted m = false ->
      truthy (getProjectSpec host m) = true ->
      negb (truthy (getRemainingTasks host m))
      || is0 (get_or_undefined (getRemainingTasks host m) "length") = true ->
      findOriginalPlan host m = None ->
      runDailyCycle host s
      = (Ok (statusOnly "Project completed"),
         set_memory
           (markProjectCompleted (Date_toISOString host (instant s)) m)
           (tick s))).
Proof. apply runDailyCycle_exits. Qed.

(** A loop that returned on a log returns the same on the log
    extended. *)
Lemma scan_extended {A} (body : string -> step A) steps more r :
  scan body steps = Return r -> scan body (steps ++ more) = Return r.
Proof.
  induction steps as [|m l IH]; [discriminate|].
  cbn [scan app]. destruct (body (content m)); auto.
Qed.

Lemma mock_is_truthy (v : value) :
  is_str "mock-repo" (get_or_undefined v "name") = true -> truthy v = true.
Proof. destruct v; try discriminate; reflexivity. Qed.


End Orchestrator.

(** X14 on [Sample.host]: a first setup ends initialized, with the
    repository a. *)
Lemma setup_cycle_marks_initialized_witness :
  exists result s',
    runInitialCycle Sample.host Sample.input Sample.fresh = (Ok result, s')
    /\ isProjectInitialized (memoryService s') = true
    /\ st_repo result = Demo.repo "a".
Proof.
  destruct (setup_cycle_marks_initialized Sample.host Sample.input
              Sample.fresh)
    as (result & s' & earlier & t & E & _ & I & _).
  exists result, s'. split; [exact E|]. split; [exact I|].
  vm_compute in E. inversion E. reflexivity.
Defined.

(* ================================================================== *)
(** * The scheduler *)
(* ================================================================== *)

Section SchedulerRuns.

Variable host : Host.
Variable orchestrator_runDailyCycle : M AgentState.

(** The expression of the schedule in force, as [start] reads it. *)
Lemma start_run s :
  isRunning (cronScheduler s) = false ->
  start host s
  = match validateSchedule (getCurrentSchedule host) with
    | Throw e => (Throw e, s)
    | Ok _ =>
        let expression :=
          toString (get_or_undefined (getCurrentSchedule host)
                                     "cronExpression") in
        if cron_validate host expression
        then (Ok tt,
              set_scheduler
                (mkScheduler
                   (set_job "dailyDevelopment" (mkJob expression true)
                            (jobs (cronScheduler s)))
                   true) s)
        else (Throw (Error "Invalid cron expression"), s)
    end.
Proof.
  intros Hr. unfold start, bind, scheduler_read, scheduler_write, lift.
  rewrite Hr.
  destruct (validateSchedule (getCurrentSchedule host)) as [[]|e];
    [|reflexivity].
  cbv zeta. unfold cron_schedule.
  destruct (cron_validate host _); [|reflexivity].
  cbn. unfold set_scheduler. cbn. now rewrite set_set_job.
Qed.

Lemma start_running s :
  isRunning (cronScheduler s) = true -> start host s = (Ok tt, s).
Proof.
  intros Hr. unfold start, bind, scheduler_read. now rewrite Hr.
Qed.

(** [start] inside a [try] whose handler only logs. *)
Lemma startQuietly_run s :
  exists s',
    startQuietly host s = (Ok tt, s')
    /\ memoryService s' = memoryService s
    /\ sent s' = sent s
    /\ instant s' = instant s
    /\ (cronScheduler s' = cronScheduler s
        \/ isRunning (cronScheduler s') = true).
Proof.
  unfold startQuietly, try_catch.
  destruct (isRunning (cronScheduler s)) eqn:Hr.
  - rewrite (start_running _ Hr). exists s. repeat split. now left.
  - rewrite (start_run _ Hr).
    destruct (validateSchedule (getCurrentSchedule host)) as [[]|e].
    + cbv zeta. destruct (cron_validate host _).
      * eexists. split; [reflexivity|]. repeat split. now right.
      * exists s. unfold ret. repeat split. now left.
    + exists s. unfold ret. repeat split. now left.
Qed.

(** X17: starting and restarting the scheduler.  [start] on a running
    scheduler changes nothing, so a second [start] after a first that
    returned is without effect; a [start] that throws has changed
    nothing.  [restart] ends in one of two states, whatever the jobs
    before: stopped with no job, when the schedule in force has no
    expression or the library refuses it (the error is thrown to the
    caller); or running with the single job dailyDevelopment, started,
    on the expression of the schedule in force.  Memory service,
    notifications and instant are as before in every case. *)
Theorem start_and_restart (s : Sys) :
  let expression :=
    toString (get_or_undefined (getCurrentSchedule host) "cronExpression") in
  (isRunning (cronScheduler s) = true -> start host s = (Ok tt, s))
  /\ (forall s1,
         start host s = (Ok tt, s1) ->
         isRunning (cronScheduler s1) = true
         /\ start host s1 = (Ok tt, s1))
  /\ (forall e s1, start host s = (Throw e, s1) -> s1 = s)
  /\ ((exists e,
          restart host s = (Throw e, set_scheduler (mkScheduler [] false) s)
          /\ (e = Error "Invalid schedule: missing cronExpression"
              \/ e = Error "Invalid cron expression"))
      \/ restart host s
         = (Ok tt,
            set_scheduler
              (mkScheduler [("dailyDevelopment", mkJob expression true)]
                           true) s)).
Proof.
  cbv zeta.
  split; [apply start_running|].
  split.
  { intros s1 H.
    assert (R : isRunning (cronScheduler s1) = true).
    { destruct (isRunning (cronScheduler s)) eqn:Hr.
      - rewrite (start_running _ Hr) in H. inversion H; subst. exact Hr.
      - rewrite (start_run _ Hr) in H.
        destruct (validateSchedule (getCurrentSchedule host)) as [[]|e];
          [|discriminate].
        cbv zeta in H. destruct (cron_validate host _); [|discriminate].
        inversion H. reflexivity. }
    split; [exact R|now apply start_running]. }
  split.
  { intros e s1 H.
    destruct (isRunning (cronScheduler s)) eqn:Hr.
    - rewrite (start_running _ Hr) in H. discriminate.
    - rewrite (start_run _ Hr) in H.
      destruct (validateSchedule (getCurrentSchedule host)) as [[]|e0].
      + cbv zeta in H. destruct (cron_validate host _); [discriminate|].
        now inversion H.
      + now inversion H. }
  unfold restart.
  assert (St : stop s = (Ok tt, set_scheduler (mkScheduler [] false) s))
    by reflexivity.
  rewrite (bind_ok _ _ _ _ _ St).
  rewrite start_run by reflexivity.
  unfold validateSchedule.
  destruct (negb (truthy (get_or_undefined (getCurrentSchedule host)
                            "cronExpression"))).
  - left. eexists. split; [reflexivity|now left].
  - cbv zeta. destruct (cron_validate host _).
    + right. reflexivity.
    + left. eexists. split; [reflexivity|now right].
Qed.

(** The handler of the scheduled callback. *)
Lemma cronError_run (error : error) s :
  (t <- now host ;;
   saveTaskProgressM host (VStr "CRON_ERROR") (VStr "failed")
     (VObj [("error", VStr (message_of error)); ("timestamp", VStr t)])) s
  = (Ok tt,
     set_memory
       (saveTaskProgress host (Date_toISOString host (S (instant s)))
          (VStr "CRON_ERROR") (VStr "failed")
          (VObj [("error", VStr (message_of error));
                 ("timestamp", VStr (Date_toISOString host (instant s)))])
          (memoryService s))
       (tick (tick s))).
Proof. reflexivity. Qed.

(** X18: the callback of the scheduled job never throws.  On a
    completed project it stops the scheduler and runs no cycle.  With
    a task in the local list it runs the cycle of the orchestrator:
    when the cycle throws, the error goes to the log as the entry
    CRON_ERROR with its message, and the scheduler keeps the state the
    cycle left; when the cycle returns, the scheduler is stopped if
    the status returned is Project completed and left alone
    otherwise. *)
Theorem scheduled_cycle_never_throws (s : Sys) :
  let m := memoryService s in
  (exists s',
      scheduledCycle host orchestrator_runDailyCycle s = (Ok tt, s'))
  /\ (isProjectCompleted m = true ->
      scheduledCycle host orchestrator_runDailyCycle s
      = (Ok tt, set_scheduler (mkScheduler [] false) s))
  /\ (isProjectCompleted m = false ->
      negb (truthy (getRemainingTasks host m))
      || is0 (get_or_undefined (getRemainingTasks host m) "length") = false ->
      (forall e s1,
          orchestrator_runDailyCycle s = (Throw e, s1) ->
          exists s',
            scheduledCycle host orchestrator_runDailyCycle s = (Ok tt, s')
            /\ logOf s'
               = logOf s1
                 ++ progressEntry host (VStr "CRON_ERROR") (VStr "failed")
                      (VObj [("error", VStr (message_of e));
                             ("timestamp",
                              VStr (Date_toISOString host (instant s1)))])
                      (Date_toISOString host (S (instant s1)))
            /\ localState s' = localState s1
            /\ cronScheduler s' = cronScheduler s1)
      /\ (forall result s1,
             orchestrator_runDailyCycle s = (Ok result, s1) ->
             scheduledCycle host orchestrator_runDailyCycle s
             = (Ok tt,
                if isStatus "Project completed" result
                then set_scheduler (mkScheduler [] false) s1
                else s1))).
Proof.
  cbv zeta. split; [|split].
  - assert (T : total (scheduledCycle host orchestrator_runDailyCycle)).
    { unfold scheduledCycle. apply total_try_catch. intros e s0.
      rewrite cronError_run. eexists _, _. reflexivity. }
    destruct (T s) as ([] & s' & E). now exists s'.
  - intros Hc. unfold scheduledCycle, try_catch, bind, memory_read.
    now rewrite Hc.
  - intros Hc Hq. split.
    + intros e s1 Hrun. eexists. split.
      * unfold scheduledCycle.
        erewrite try_catch_throw; [apply cronError_run|].
        unfold bind, memory_read, ret. rewrite Hc, Hq. cbn [negb].
        now rewrite Hrun.
      * repeat split.
    + intros result s1 Hrun.
      unfold scheduledCycle, try_catch, bind, memory_read, ret.
      rewrite Hc, Hq. cbn [negb]. rewrite Hrun.
      now destruct (isStatus "Project completed" result).
Qed.

(** X19: the schedule in force follows [COMMIT_MODE].  Unset, empty,
    test or development give the development schedule, which runs
    every minute; production gives the production schedule; any other
    name, unless it is one every object answers to through its
    prototype, gives the development schedule too.  The development
    schedule always validates, and with it [start] on a stopped
    scheduler returns whenever the library accepts the expression. *)
Theorem schedule_follows_mode :
  (forall mode,
      COMMIT_MODE host = mode ->
      mode = None \/ mode = Some "" \/ mode = Some "test"
      \/ mode = Some "development" ->
      getCurrentSchedule host = developmentSchedule)
  /\ (COMMIT_MODE host = Some "production" ->
      getCurrentSchedule host = productionSchedule host)
  /\ (forall mode,
         COMMIT_MODE host = Some mode ->
         mode <> "production" ->
         existsb (String.eqb mode) inheritedNames = false ->
         getCurrentSchedule host = developmentSchedule)
  /\ get_or_undefined developmentSchedule "cronExpression"
     = VStr "*/1 * * * *"
  /\ validateSchedule developmentSchedule = Ok tt
  /\ (forall mode,
         COMMIT_MODE host = Some mode ->
         existsb (String.eqb mode) inheritedNames = true ->
         validateSchedule (getCurrentSchedule host)
         = Throw (Error "Invalid schedule: missing cronExpression")).
Proof.
  split.
  { intros mode E [ -> | [ -> | [ -> | -> ] ] ]; unfold getCurrentSchedule;
      rewrite E; reflexivity. }
  split.
  { intros E. unfold getCurrentSchedule. rewrite E. reflexivity. }
  split.
  { intros mode E Np Ni. unfold getCurrentSchedule. rewrite E.
    unfold env_or.
    destruct (String.eqb mode "") eqn:E0; [reflexivity|].
    destruct (String.eqb mode "test") eqn:E1; [reflexivity|].
    unfold commitScheduleConfig. cbn [lookup].
    destruct (String.eqb mode "development") eqn:E2; [reflexivity|].
    destruct (String.eqb mode "production") eqn:E3.
    { apply String.eqb_eq in E3. contradiction. }
    now rewrite Ni. }
  split; [reflexivity|]. split; [reflexivity|].
  intros mode E Hi. unfold getCurrentSchedule. rewrite E.
  unfold inheritedNames in Hi. cbn [existsb] in Hi.
  repeat match type of Hi with
         | (String.eqb mode ?n || _) = true =>
             let Q := fresh "Q" in
             destruct (String.eqb mode n) eqn:Q;
             [apply String.eqb_eq in Q; subst mode; reflexivity
             |cbn [orb] in Hi]
         end.
  discriminate.
Qed.

End SchedulerRuns.

(* ================================================================== *)
(** * The controller and the route of the external trigger *)
(* ================================================================== *)

Section ControllerRuns.

Variable host : Host.

(** The service after [clearMemory] and [clearRepositoryInfo]: the
    state the constructor builds and the two entries of the
    clearing. *)
Lemma cleared_service t t' m :
  clearRepositoryInfo host t' (clearMemory host t m)
  = mkMemory
      [mkMessage Human (format host (VObj [("action", VStr "clear_repository")]));
       mkMessage AI (format host (VObj [("repository", VNull);
                                        ("timestamp", VStr t)]));
       mkMessage Human (format host (VObj [("action", VStr "clear_repository")]));
       mkMessage AI (format host (VObj [("repository", VNull);
                                        ("timestamp", VStr t')]))]
      emptyProjectState.
Proof. reflexivity. Qed.

(** X20: a request to run on a project in progress wipes the
    project.  When the project is initialized and not completed, the
    controller clears the memory service (log and local state) and
    then runs the daily cycle, which finds no project: the answer is
    the code 200 with the status Project not initialized under the
    message of a successful development cycle; the queue, the
    specification and the log of the project are gone, only the
    entries of the clearing remain, and nothing was developed or
    notified.  (The entries of the clearing, as the host writes them,
    are assumed not to read as an initialization.) *)
Theorem run_wipes_project_in_progress (input : SetupInput) (s : Sys) :
  isProjectInitialized (memoryService s) = true ->
  isProjectCompleted (memoryService s) = false ->
  marksInitialization
    (format host (VObj [("action", VStr "clear_repository")])) = false ->
  (forall n,
      marksInitialization
        (format host
           (VObj [("repository", VNull);
                  ("timestamp", VStr (Date_toISOString host n))]))
      = false) ->
  exists s',
    gitAgent host (Ok input) s
    = (Ok (executed true VUndefined (statusOnly "Project not initialized")),
       s')
    /\ memoryService s'
       = clearRepositoryInfo host (Date_toISOString host (S (instant s)))
           (clearMemory host (Date_toISOString host (instant s))
              (memoryService s))
    /\ localState s' = emptyProjectState
    /\ length (logOf s') = 4%nat
    /\ getRemainingTasks host (memoryService s') = VArr []
    /\ isProjectInitialized (memoryService s') = false
    /\ sent s' = sent s
    /\ instant s' = S (S (instant s)).
Proof.
  intros Hi Hc Ha Hr.
  set (cleared := clearRepositoryInfo host
                    (Date_toISOString host (S (instant s)))
                    (clearMemory host (Date_toISOString host (instant s))
                       (memoryService s))).
  assert (U : isProjectInitialized cleared = false).
  { unfold cleared. rewrite cleared_service.
    rewrite isProjectInitialized_log by reflexivity.
    cbn [existsb content]. now rewrite Ha, !Hr. }
  set (s2 := set_memory cleared (tick (tick s))).
  assert (Q : exists s3,
             (if negb (isRunning (cronScheduler s2))
              then startQuietly host else ret tt) s2
             = (Ok tt, s3)
             /\ memoryService s3 = cleared
             /\ sent s3 = sent s
             /\ instant s3 = S (S (instant s))).
  { destruct (isRunning (cronScheduler s2)); cbn [negb].
    - exists s2. repeat split.
    - destruct (startQuietly_run host s2) as (s3 & E & M & N & I & _).
      exists s3. split; [exact E|]. now rewrite M, N, I. }
  destruct Q as (s3 & E3 & M3 & N3 & I3).
  exists s3. split.
  { unfold gitAgent.
    erewrite try_catch_ok; [reflexivity|].
    erewrite bind_ok by reflexivity.
    erewrite bind_ok by reflexivity.
    erewrite bind_ok by reflexivity.
    rewrite Hi, Hc. cbn [andb negb].
    erewrite bind_ok by reflexivity.
    fold cleared. fold s2.
    erewrite bind_ok by (unfold scheduler_read; reflexivity).
    erewrite bind_ok by exact E3.
    erewrite bind_ok
      by (apply (proj1 (runDailyCycle_exits host s3)); now rewrite M3).
    reflexivity. }
  rewrite M3. split; [reflexivity|].
  unfold localState, logOf. rewrite M3.
  split; [reflexivity|]. split; [reflexivity|]. split; [reflexivity|].
  split; [exact U|]. split; [exact N3|exact I3].
Qed.

(** X21: the requests to run that change nothing.  A body the
    validation refuses is answered with the code 500 and the message
    of the validation; a request on a completed project is answered
    with the code 200 and the status Project completed.  In both
    cases the process is left as it was: nothing is cleared, no cycle
    runs, the scheduler is not started. *)
Theorem run_without_effect (s : Sys) :
  (forall e, gitAgent host (Throw e) s = (Ok (failedWorkflow e), s))
  /\ (forall input,
         isProjectCompleted (memoryService s) = true ->
         gitAgent host (Ok input) s = (Ok alreadyCompleted, s)).
Proof.
  split.
  - intros e. reflexivity.
  - intros input Hc. unfold gitAgent, try_catch, bind, lift, memory_read.
    rewrite Hc. rewrite andb_false_r. reflexivity.
Qed.

(** X22: a first request to run is always answered with the code
    200.  On a service that shows neither an initialized nor a
    completed project the controller runs the setup cycle, and
    whatever the agents met (a model that fails, a host that refuses,
    the mock repository) the answer is the code 200 with the message
    of a completed setup and the result of the cycle; afterwards the
    project is initialized, the start of the project was notified
    once, and the scheduler is as before or running. *)
Theorem first_run_answers_200 (input : SetupInput) (s : Sys) :
  isProjectInitialized (memoryService s) = false ->
  isProjectCompleted (memoryService s) = false ->
  exists result s',
    gitAgent host (Ok input) s = (Ok (executed false VNull result), s')
    /\ res_status (executed false VNull result) = 200%Z
    /\ isProjectInitialized (memoryService s') = true
    /\ sent s'
       = sent s
         ++ [ProjectStartNotification
               (or_else (in_projectName input) (VStr "AI Generated Project"))
               (or_else (in_complexity input) (VStr "beginner"))
               (or_else (in_techConstraints input) (VArr [VStr "Node.js"]))
               (st_repo result)]
    /\ (cronScheduler s' = cronScheduler s
        \/ isRunning (cronScheduler s') = true).
Proof.
  intros Hi Hc.
  destruct (runInitialCycle_run host input s)
    as (result & s1 & earlier & t & E & _ & I & _ & N & C).
  assert (Q : exists s2,
             (if truthy (st_projectSpec result) && truthy (st_plan result)
                 && truthy (st_repo result)
              then startQuietly host else ret tt) s1 = (Ok tt, s2)
             /\ memoryService s2 = memoryService s1
             /\ sent s2 = sent s1
             /\ (cronScheduler s2 = cronScheduler s1
                 \/ isRunning (cronScheduler s2) = true)).
  { destruct (truthy (st_projectSpec result) && truthy (st_plan result)
              && truthy (st_repo result)).
    - destruct (startQuietly_run host s1) as (s2 & E2 & M & N2 & _ & R).
      exists s2. auto.
    - exists s1. repeat split. now left. }
  destruct Q as (s2 & E2 & M2 & N2 & R2).
  exists result, s2. split.
  { unfold gitAgent.
    erewrite try_catch_ok; [reflexivity|].
    erewrite bind_ok by reflexivity.
    erewrite bind_ok by reflexivity.
    erewrite bind_ok by reflexivity.
    rewrite Hi, Hc. cbn [andb negb].
    erewrite bind_ok by reflexivity.
    erewrite bind_ok by exact E.
    erewrite bind_ok by exact E2.
    reflexivity. }
  split; [reflexivity|]. rewrite M2, N2.
  split; [exact I|]. split; [exact N|].
  destruct R2 as [R2|R2]; [left; now rewrite R2|now right].
Qed.

(** X23: the route of the external trigger.  With a secret
    configured (not empty) and a key that is not that very string,
    the answer is the code 401 and the process is left as it was: the
    scheduler is not started and no cycle runs.  The route never
    throws.  With the key accepted and a scheduler that is stopped,
    the scheduler is started before anything else is looked at: a
    start that throws is answered with the code 500 and its message,
    and on a completed project the answer is the status Project
    completed while the scheduler is left running. *)
Theorem run_daily_checks_the_key (secret : option string) (key : value)
        (s : Sys) :
  let accepted :=
    match secret with
    | Some sec => String.eqb sec "" || strict_eq key (VStr sec)
    | None => true
    end in
  (accepted = false ->
   runDaily host secret key s
   = (Ok (mkResponse 401
            (VObj [("success", VBool false);
                   ("error", VStr "Invalid or missing key")])), s))
  /\ (exists response s', runDaily host secret key s = (Ok response, s'))
  /\ (accepted = true ->
      isRunning (cronScheduler s) = false ->
      (forall e s1,
          start host s = (Throw e, s1) ->
          runDaily host secret key s = (Ok (failed e), s))
      /\ (forall s1,
             start host s = (Ok tt, s1) ->
             isProjectCompleted (memoryService s) = true ->
             runDaily host secret key s
             = (Ok (mkResponse 200
                      (VObj [("success", VBool true);
                             ("data",
                              resultObject (statusOnly "Project completed"));
                             ("message", VStr "Daily cycle completed")])),
                s1)
             /\ isRunning (cronScheduler s1) = true
             /\ memoryService s1 = memoryService s)).
Proof.
  cbv zeta.
  assert (G : match secret with
              | Some sec =>
                  negb (String.eqb sec "") && negb (strict_eq key (VStr sec))
              | None => false
              end
              = negb match secret with
                     | Some sec => String.eqb sec "" || strict_eq key (VStr sec)
                     | None => true
                     end).
  { destruct secret as [sec|]; [|reflexivity].
    now rewrite negb_orb. }
  split; [|split].
  - intros A. unfold runDaily, try_catch. rewrite G, A. reflexivity.
  - assert (T : total (runDaily host secret key)).
    { unfold runDaily. apply total_try_catch. intros e. apply total_ret. }
    destruct (T s) as (response & s' & E). now exists response, s'.
  - intros A Hr. split.
    + intros e s1 H.
      assert (s1 = s) as ->.
      { rewrite (start_run host s Hr) in H.
        destruct (validateSchedule (getCurrentSchedule host)) as [[]|e0].
        - cbv zeta in H. destruct (cron_validate host _); [discriminate|].
          now inversion H.
        - now inversion H. }
      unfold runDaily. rewrite G, A. cbn [negb].
      erewrite try_catch_throw; [reflexivity|].
      erewrite bind_throw; [reflexivity|].
      unfold triggerManualCycle.
      erewrite bind_ok by (unfold scheduler_read; reflexivity).
      rewrite Hr. cbn [negb].
      erewrite bind_throw; [reflexivity|exact H].
    + intros s1 H Hc.
      assert (S1 : isRunning (cronScheduler s1) = true
                   /\ memoryService s1 = memoryService s).
      { rewrite (start_run host s Hr) in H.
        destruct (validateSchedule (getCurrentSchedule host)) as [[]|e0];
          [|discriminate].
        cbv zeta in H. destruct (cron_validate host _); [|discriminate].
        inversion H. split; reflexivity. }
      split; [|exact S1].
      unfold runDaily. rewrite G, A. cbn [negb].
      erewrite try_catch_ok; [reflexivity|].
      erewrite bind_ok; [reflexivity|].
      unfold triggerManualCycle.
      erewrite bind_ok by (unfold scheduler_read; reflexivity).
      rewrite Hr. cbn [negb].
      erewrite bind_ok by exact H.
      unfold bind, memory_read, ret.
      destruct S1 as [_ ->]. now rewrite Hc.
Qed.

End ControllerRuns.

(** X20 on [Sample.host]: the project "A" is set up by a first
    request, and a second request wipes it. *)
Lemma run_wipes_project_in_progress_witness :
  let started :=
    snd (gitAgent Sample.host (Ok Sample.input) Sample.fresh) in
  getRemainingTasks Sample.host (memoryService started) = VArr [Demo.setup]
  /\ exists s',
       gitAgent Sample.host (Ok Sample.input) started
       = (Ok (executed true VUndefined
                (statusOnly "Project not initialized")), s')
       /\ getRemainingTasks Sample.host (memoryService s') = VArr [].
Proof.
  cbv zeta. split; [vm_compute; reflexivity|].
  destruct (run_wipes_project_in_progress Sample.host Sample.input
              (snd (gitAgent Sample.host (Ok Sample.input) Sample.fresh)))
    as (s' & E & _ & _ & _ & Q & _).
  - vm_compute. reflexivity.
  - vm_compute. reflexivity.
  - vm_compute. reflexivity.
  - intros n. vm_compute. reflexivity.
  - exists s'. split; [exact E|exact Q].
Defined.

(** X22 on [Sample.host]: the first request on a new process. *)
Lemma first_run_answers_200_witness :
  exists result s',
    gitAgent Sample.host (Ok Sample.input) Sample.fresh
    = (Ok (executed false VNull result), s')
    /\ isProjectInitialized (memoryService s') = true.
Proof.
  destruct (first_run_answers_200 Sample.host Sample.input Sample.fresh
              eq_refl eq_refl)
    as (result & s' & E & _ & I & _).
  exists result, s'. split; [exact E|exact I].
Defined.

(* ================================================================== *)
(** * The code-update controller *)
(* ================================================================== *)

Section CodeUpdateRuns.

Variable host : Host.
Variable updates : UpdateHost.

Lemma cleanUpdate_shape text :
  Js.includes fence (chars_of (cleanUpdate text)) = false
  /\ headIs Js.is_space (chars_of (cleanUpdate text)) = false
  /\ headIs Js.is_space (rev (chars_of (cleanUpdate text))) = false.
Proof.
  unfold cleanUpdate. rewrite string_chars_roundtrip. apply cleaned_shape.
Qed.

Ltac unfold_update :=
  cbv beta iota delta
    [updateCode deleteFileOrFolder lookupFile lookupPath repositoryIsMissing
     try_catch bind ret throw lift call decodeContent].

Lemma updateCode_run (parsed : outcome UpdateInput) (s : Sys) :
  exists response s',
    updateCode host updates parsed s = (Ok response, s')
    /\ memoryService s' = memoryService s
    /\ cronScheduler s' = cronScheduler s
    /\ sent s' = sent s
    /\ In (res_status response) [200; 400; 404; 500]%Z
    /\ (GITHUB_TOKEN host = false ->
        forall input, parsed = Ok input -> response = tokenMissing /\ s' = s)
    /\ (res_status response = 200%Z ->
        exists input owner current sha text,
          parsed = Ok input
          /\ users_getAuthenticated host (instant s) = Ok owner
          /\ fileFound updates owner input (2 + instant s) current sha
          /\ invokeUpdate updates (3 + instant s) current (up_change input)
             = Ok text
          /\ commitTo updates (4 + instant s) (up_branch input)
               (mkCommit owner (up_repoName input) (up_filePath input)
                  (updateMessage input current) (cleanUpdate text) sha)
             = Ok tt
          /\ response
             = updated input (updateMessage input current) (cleanUpdate text)
                 current
          /\ (5 <= String.length (cleanUpdate text))%nat
          /\ Js.includes fence (chars_of (cleanUpdate text)) = false).
Proof.
  unfold_update.
  destruct parsed as [input|e0].
  2:{ eexists _, _. split; [reflexivity|]. cbn. intuition (try discriminate). }
  destruct (GITHUB_TOKEN host) eqn:G; cbn [negb].
  2:{ eexists _, _. split; [reflexivity|]. cbn.
      intuition (try discriminate). }
  destruct (users_getAuthenticated host (instant s)) as [owner|e1] eqn:U.
  2:{ eexists _, _. split; [reflexivity|]. cbn. intuition (try discriminate). }
  destruct (repos_get host (instant (tick s)) owner (up_repoName input))
    as [r|e2] eqn:R.
  2:{ destruct (is404 e2);
      (eexists _, _; split; [reflexivity|]; cbn;
       intuition (try discriminate)). }
  destruct (getContentAt updates (instant (tick (tick s))) owner
              (up_repoName input) (up_filePath input) (up_branch input))
    as [data|e3] eqn:C.
  - destruct (is_str "file" (data_type data)) eqn:F.
    2:{ eexists _, _. split; [reflexivity|]. cbn.
        intuition (try discriminate). }
    destruct (data_content data) as [content|] eqn:D.
    2:{ eexists _, _. split; [reflexivity|]. cbn.
        intuition (try discriminate). }
    destruct (invokeUpdate updates (instant (tick (tick (tick s))))
                (nonEmpty (Some content)) (up_change input))
      as [text|e4] eqn:I.
    2:{ eexists _, _. split; [reflexivity|]. cbn.
        intuition (try discriminate). }
    destruct (String.length (cleanUpdate text) <? 5)%nat eqn:L.
    { eexists _, _. split; [reflexivity|]. cbn.
      intuition (try discriminate). }
    destruct (commitTo updates (instant (tick (tick (tick (tick s)))))
                (up_branch input)
                (mkCommit owner (up_repoName input) (up_filePath input)
                   (updateMessage input (nonEmpty (Some content)))
                   (cleanUpdate text) (data_sha data)))
      as [[]|e5] eqn:K.
    2:{ eexists _, _. split; [reflexivity|]. cbn.
        intuition (try discriminate). }
    eexists _, _. split; [reflexivity|]. cbn [tick memoryService cronScheduler sent].
    repeat (split; [reflexivity|]).
    split; [cbn; auto|]. split; [discriminate|]. intros _.
    exists input, owner, (nonEmpty (Some content)), (data_sha data), text.
    split; [reflexivity|]. split; [reflexivity|].
    split; [left; exists data, content; auto|].
    split; [exact I|]. split; [exact K|]. split; [reflexivity|].
    split; [apply Nat.ltb_ge in L; exact L|apply cleanUpdate_shape].
  - destruct (is404 e3) eqn:N.
    2:{ eexists _, _. split; [reflexivity|]. cbn.
        intuition (try discriminate). }
    destruct (invokeUpdate updates (instant (tick (tick (tick s))))
                (nonEmpty None) (up_change input))
      as [text|e4] eqn:I.
    2:{ eexists _, _. split; [reflexivity|]. cbn.
        intuition (try discriminate). }
    destruct (String.length (cleanUpdate text) <? 5)%nat eqn:L.
    { eexists _, _. split; [reflexivity|]. cbn.
      intuition (try discriminate). }
    destruct (commitTo updates (instant (tick (tick (tick (tick s)))))
                (up_branch input)
                (mkCommit owner (up_repoName input) (up_filePath input)
                   (updateMessage input (nonEmpty None))
                   (cleanUpdate text) None))
      as [[]|e5] eqn:K.
    2:{ eexists _, _. split; [reflexivity|]. cbn.
        intuition (try discriminate). }
    eexists _, _. split; [reflexivity|]. cbn [tick memoryService cronScheduler sent].
    repeat (split; [reflexivity|]).
    split; [cbn; auto|]. split; [discriminate|]. intros _.
    exists input, owner, None, None, text.
    split; [reflexivity|]. split; [reflexivity|].
    split; [right; exists e3; auto|].
    split; [exact I|]. split; [exact K|]. split; [reflexivity|].
    split; [apply Nat.ltb_ge in L; exact L|apply cleanUpdate_shape].
Qed.

(** X26: [updateCode] always answers, with 200, 400, 404 or 500, and
    leaves the memory, the scheduler and the notifications as they
    are; without a token it answers 400 before any request.  When it
    answers 200, the hosting service accepted, as the fifth request, a
    commit on the branch of the input whose content is the cleaned
    answer of the model: at least five characters and no code fence;
    its sha is the one of the file found, or none when the lookup
    answered 404. *)
Theorem updateCode_answers (parsed : outcome UpdateInput) (s : Sys) :
  exists response s',
    updateCode host updates parsed s = (Ok response, s')
    /\ memoryService s' = memoryService s
    /\ cronScheduler s' = cronScheduler s
    /\ sent s' = sent s
    /\ In (res_status response) [200; 400; 404; 500]%Z
    /\ (GITHUB_TOKEN host = false ->
        forall input, parsed = Ok input -> response = tokenMissing /\ s' = s)
    /\ (res_status response = 200%Z ->
        exists input owner current sha text,
          parsed = Ok input
          /\ users_getAuthenticated host (instant s) = Ok owner
          /\ fileFound updates owner input (2 + instant s) current sha
          /\ invokeUpdate updates (3 + instant s) current (up_change input)
             = Ok text
          /\ commitTo updates (4 + instant s) (up_branch input)
               (mkCommit owner (up_repoName input) (up_filePath input)
                  (updateMessage input current) (cleanUpdate text) sha)
             = Ok tt
          /\ response
             = updated input (updateMessage input current) (cleanUpdate text)
                 current
          /\ (5 <= String.length (cleanUpdate text))%nat
          /\ Js.includes fence (chars_of (cleanUpdate text)) = false).
Proof. apply updateCode_run. Qed.

(** X27: an update of a file that exists and is empty is reported as
    a creation: the commit carries the sha of the file, the answer
    says [created], and the default commit message starts with
    [Create]. *)
Theorem empty_file_is_reported_created
        (input : UpdateInput) (s s' : Sys) (response : Response)
        (owner : string) (data : contentData) :
  updateCode host updates (Ok input) s = (Ok response, s') ->
  res_status response = 200%Z ->
  users_getAuthenticated host (instant s) = Ok owner ->
  getContentAt updates (2 + instant s) owner (up_repoName input)
    (up_filePath input) (up_branch input) = Ok data ->
  data_content data = Some EmptyString ->
  exists text message,
    commitTo updates (4 + instant s) (up_branch input)
      (mkCommit owner (up_repoName input) (up_filePath input) message
         (cleanUpdate text) (data_sha data)) = Ok tt
    /\ get_or_undefined (get_or_undefined (res_body response) "data")
         "action" = VStr "created"
    /\ get_or_undefined (get_or_undefined (res_body response) "data")
         "commitMessage" = VStr message
    /\ (nonEmpty (up_commitMessage input) = None ->
        message
        = ("Create " ++ up_filePath input ++ ": " ++ up_change input)%string).
Proof.
  intros H S200 U C D.
  destruct (updateCode_run (Ok input) s)
    as (response0 & s0 & E & _ & _ & _ & _ & _ & R).
  rewrite H in E. inversion E; subst response0 s0. clear E.
  destruct (R S200)
    as (input0 & owner0 & current & sha & text & P & U0 & F & I & K & Q & _).
  inversion P; subst input0. rewrite U in U0. inversion U0; subst owner0.
  destruct F as [(data0 & content & C0 & _ & D0 & Ec & Es)
                |(e & C0 & _)];
    [|rewrite C in C0; discriminate C0].
  rewrite C in C0. inversion C0; subst data0.
  rewrite D in D0. inversion D0; subst content.
  cbn in Ec. subst current sha.
  exists text, (updateMessage input None).
  split; [exact K|]. rewrite Q. split; [reflexivity|].
  split; [reflexivity|].
  intros N. unfold updateMessage. rewrite N. reflexivity.
Qed.

Ltac answered :=
  eexists _, _; split; [reflexivity|]; cbn;
  intuition (try discriminate).

(** X28: [deleteFileOrFolder] always answers, with 200, 400, 404, 409
    or 500, and leaves the memory, the scheduler and the notifications
    as they are; without a token it answers 400 before any request.
    An answer 200 or 409 follows a lookup that found a file or a
    directory: with 200 the hosting service accepted, as the fourth
    request, the deletion of the path of the input with the sha of
    the lookup; with 409 it refused that request with status 409.  An
    answer 404 comes after two or three requests, so before any
    deletion. *)
Theorem deleteFileOrFolder_answers
        (parsed : outcome DeleteInput) (s : Sys) :
  exists response s',
    deleteFileOrFolder host updates parsed s = (Ok response, s')
    /\ memoryService s' = memoryService s
    /\ cronScheduler s' = cronScheduler s
    /\ sent s' = sent s
    /\ In (res_status response) [200; 400; 404; 409; 500]%Z
    /\ (GITHUB_TOKEN host = false ->
        forall input, parsed = Ok input -> response = tokenMissing /\ s' = s)
    /\ (res_status response = 200%Z \/ res_status response = 409%Z ->
        exists input owner data,
          let isDirectory := is_str "dir" (data_type data) in
          let request :=
            mkDelete owner (del_repoName input) (del_filePath input)
              (deleteMessage input isDirectory) (data_sha data)
              (del_branch input) in
          parsed = Ok input
          /\ users_getAuthenticated host (instant s) = Ok owner
          /\ getContentAt updates (2 + instant s) owner (del_repoName input)
               (del_filePath input) (del_branch input) = Ok data
          /\ is_str "dir" (data_type data) || is_str "file" (data_type data)
             = true
          /\ (res_status response = 200%Z ->
              deleteFile updates (3 + instant s) request = Ok tt
              /\ response
                 = deleted input (deleteMessage input isDirectory)
                     isDirectory)
          /\ (res_status response = 409%Z ->
              response = conflict
              /\ exists e,
                   deleteFile updates (3 + instant s) request = Throw e
                   /\ is409 e = true))
    /\ (res_status response = 404%Z ->
        instant s' = 2 + instant s \/ instant s' = 3 + instant s).
Proof.
  unfold_update.
  destruct parsed as [input|e0]; [|answered].
  destruct (GITHUB_TOKEN host) eqn:G; cbn [negb]; [|answered].
  destruct (users_getAuthenticated host (instant s)) as [owner|e1] eqn:U;
    [|answered].
  destruct (repos_get host (instant (tick s)) owner (del_repoName input))
    as [r|e2] eqn:R.
  2:{ destruct (is404 e2); answered. }
  destruct (getContentAt updates (instant (tick (tick s))) owner
              (del_repoName input) (del_filePath input) (del_branch input))
    as [data|e3] eqn:C.
  2:{ destruct (is404 e3); answered. }
  destruct (is_str "dir" (data_type data)) eqn:Dir.
  - destruct (deleteFile updates (instant (tick (tick (tick s))))
                (mkDelete owner (del_repoName input) (del_filePath input)
                   (deleteMessage input true) (data_sha data)
                   (del_branch input))) as [[]|e4] eqn:K.
    + eexists _, _. split; [reflexivity|].
      cbn [tick memoryService cronScheduler sent].
      repeat (split; [reflexivity|]).
      split; [cbn; auto|]. split; [discriminate|].
      split; [|cbn; discriminate]. intros _.
      exists input, owner, data. cbv zeta. rewrite Dir.
      split; [reflexivity|]. split; [first [reflexivity|exact U]|].
        split; [first [reflexivity|exact C]|].
      split; [reflexivity|]. split; [intros _; split; [first [reflexivity|exact K]|reflexivity]|].
      cbn. discriminate.
    + destruct (is409 e4) eqn:N9.
      * eexists _, _. split; [reflexivity|].
        cbn [tick memoryService cronScheduler sent].
        repeat (split; [reflexivity|]).
        split; [cbn; auto|]. split; [discriminate|].
        split; [|cbn; discriminate]. intros _.
        exists input, owner, data. cbv zeta. rewrite Dir.
        split; [reflexivity|]. split; [first [reflexivity|exact U]|].
        split; [first [reflexivity|exact C]|].
        split; [reflexivity|]. split; [cbn; discriminate|].
        intros _. split; [reflexivity|]. exists e4. auto.
      * answered.
  - destruct (is_str "file" (data_type data)) eqn:Fi; [|answered].
    destruct (deleteFile updates (instant (tick (tick (tick s))))
                (mkDelete owner (del_repoName input) (del_filePath input)
                   (deleteMessage input false) (data_sha data)
                   (del_branch input))) as [[]|e4] eqn:K.
    + eexists _, _. split; [reflexivity|].
      cbn [tick memoryService cronScheduler sent].
      repeat (split; [reflexivity|]).
      split; [cbn; auto|]. split; [discriminate|].
      split; [|cbn; discriminate]. intros _.
      exists input, owner, data. cbv zeta. rewrite Dir, Fi.
      split; [reflexivity|]. split; [first [reflexivity|exact U]|].
        split; [first [reflexivity|exact C]|].
      split; [reflexivity|]. split; [intros _; split; [first [reflexivity|exact K]|reflexivity]|].
      cbn. discriminate.
    + destruct (is409 e4) eqn:N9.
      * eexists _, _. split; [reflexivity|].
        cbn [tick memoryService cronScheduler sent].
        repeat (split; [reflexivity|]).
        split; [cbn; auto|]. split; [discriminate|].
        split; [|cbn; discriminate]. intros _.
        exists input, owner, data. cbv zeta. rewrite Dir, Fi.
        split; [reflexivity|]. split; [first [reflexivity|exact U]|].
        split; [first [reflexivity|exact C]|].
        split; [reflexivity|]. split; [cbn; discriminate|].
        intros _. split; [reflexivity|]. exists e4. auto.
      * answered.
Qed.

End CodeUpdateRuns.

(** X27 on [Sample.host]: the file [index.js] exists and is empty. *)
Lemma empty_file_is_reported_created_witness :
  let input := mkUpdate "demo" "index.js" "print the answer" "main" None in
  exists response s' text,
    updateCode Sample.host Sample.updates (Ok input) Sample.fresh
    = (Ok response, s')
    /\ commitTo Sample.updates 4 "main"
         (mkCommit "octocat" "demo" "index.js"
            "Create index.js: print the answer" (cleanUpdate text)
            (Some "abc123")) = Ok tt
    /\ get_or_undefined (get_or_undefined (res_body response) "data")
         "action" = VStr "created".
Proof.
  cbv zeta.
  destruct (updateCode Sample.host Sample.updates
              (Ok (mkUpdate "demo" "index.js" "print the answer" "main"
                     None)) Sample.fresh) as [[response|e] s'] eqn:E.
  2:{ exfalso. vm_compute in E. discriminate E. }
  assert (S200 : res_status response = 200%Z).
  { vm_compute in E. inversion E. reflexivity. }
  destruct (empty_file_is_reported_created Sample.host Sample.updates
              (mkUpdate "demo" "index.js" "print the answer" "main" None)
              Sample.fresh s' response "octocat"
              (mkContent (VStr "file") (Some "abc123") (Some EmptyString))
              E S200 eq_refl eq_refl eq_refl)
    as (text & message & K & A & _ & M).
  exists response, s', text. split; [reflexivity|].
  split; [|exact A].
  rewrite (M eq_refl) in K. exact K.
Defined.

(* ================================================================== *)
(** * The repository manager *)
(* ================================================================== *)

Section ManagerRuns.

Variable manager : ManagerHost.

Lemma trim_blank (s : Js.chars) :
  forallb Js.is_space s = true -> Js.trim s = [].
Proof.
  intros B. unfold Js.trim.
  assert (D : Js.dropWhile Js.is_space s = []).
  { induction s as [|c t IH]; [reflexivity|].
    cbn in B. apply andb_prop in B as [Bc Bt].
    cbn. rewrite Bc. now apply IH. }
  rewrite D. reflexivity.
Qed.

(** X29: the repository manager asks nothing and throws [GitHub token
    is not configured] when the token is absent, empty or white space
    only.  Otherwise every error it throws is an [Error] whose message
    starts with [Failed to handle GitHub repository: ], also the one
    of a lookup that failed with a status other than 404; and a
    result is either the repository that the lookup found, with no
    creation asked, or the one created after the lookup answered 404,
    public description [Auto-generated repository: ] and the name. *)
Theorem repositoryManagerAgent_outcomes (repoName : string) (s : Sys) :
  (forall text,
      manager_token manager = Some text ->
      forallb Js.is_space (chars_of text) = true ->
      nonEmpty (token manager) = None)
  /\ (manager_token manager = None -> nonEmpty (token manager) = None)
  /\ (nonEmpty (token manager) = None ->
      repositoryManagerAgent manager repoName s
      = (Throw (Error "GitHub token is not configured"), s))
  /\ (nonEmpty (token manager) <> None ->
      forall e s',
        repositoryManagerAgent manager repoName s = (Throw e, s') ->
        exists message,
          e = Error ("Failed to handle GitHub repository: " ++ message)%string)
  /\ (forall result s',
        repositoryManagerAgent manager repoName s = (Ok result, s') ->
        exists login,
          manager_user manager (instant s) = Ok login
          /\ ((exists repo,
                  manager_get manager (1 + instant s) login repoName = Ok repo
                  /\ result
                     = VObj [("repositoryUrl", html_url repo);
                             ("status", VStr "Repository already exists");
                             ("branch", default_branch repo)]
                  /\ instant s' = 2 + instant s)
              \/ (exists e repo,
                     manager_get manager (1 + instant s) login repoName
                     = Throw e
                     /\ is404 e = true
                     /\ manager_create manager (2 + instant s) repoName
                          ("Auto-generated repository: " ++ repoName)%string
                        = Ok repo
                     /\ result
                        = VObj [("repositoryUrl", html_url repo);
                                ("status", VStr "Initialized");
                                ("initialCommit",
                                 VStr "Initial project setup");
                                ("branch", default_branch repo)]))).
Proof.
  split.
  { intros text T B. unfold token. rewrite T.
    rewrite (trim_blank _ B). reflexivity. }
  split.
  { intros T. unfold token. rewrite T. reflexivity. }
  unfold repositoryManagerAgent.
  destruct (nonEmpty (token manager)) as [tk|] eqn:N.
  2:{ split; [reflexivity|]. split; [intros C; now elim C|].
      intros result s' H. discriminate H. }
  split; [discriminate|].
  cbv beta iota delta
    [checkExistingRepo createNewRepo try_catch bind ret throw call].
  destruct (manager_user manager (instant s)) as [login|e1] eqn:U.
  2:{ split.
      - intros _ e s' H. exists (message_of e1). congruence.
      - intros result s' H. discriminate H. }
  destruct (manager_get manager (instant (tick s)) login repoName)
    as [repo|e2] eqn:G.
  { split.
    - intros _ e s' H. discriminate H.
    - intros result s' H. inversion H. exists login.
      split; [reflexivity|]. left. exists repo. auto. }
  destruct (is404 e2) eqn:N4.
  2:{ split.
      - intros _ e s' H. exists (message_of e2). congruence.
      - intros result s' H. discriminate H. }
  destruct (manager_create manager (instant (tick (tick s))) repoName
              ("Auto-generated repository: " ++ repoName)%string)
    as [repo|e3] eqn:K.
  - split.
    + intros _ e s' H. discriminate H.
    + intros result s' H. inversion H. exists login.
      split; [reflexivity|]. right. exists e2, repo. auto.
  - split.
    + intros _ e s' H. exists (message_of e3). congruence.
    + intros result s' H. discriminate H.
Qed.

End ManagerRuns.
